(** * Stock reconciliation engine of the pharmacy retail application

    A shallow embedding of the document-mutation handlers of [App.tsx]
    ([handleGenerateBill], [handleUpdateBill], [handleDeleteBill],
    [handleAddPurchase], [handleUpdatePurchase], [handleDeletePurchase]) and
    of the cart arithmetic of [Billing.tsx], together with the properties the
    specification states about them.

    Conventions.
    - Quantities and stocks are JavaScript numbers holding integers
      ([parseInt] of the form field); they are modelled as [Z].
    - Prices and GST percentages are JavaScript numbers; they are modelled as
      canonical rationals [Qc], i.e. the arithmetic is taken exact.
    - The numeric part of a bill number is a JavaScript number of any size:
      it is modelled as the double it is ([Number], [toNumber]), so that
      integers from 2^53 on are rounded as the code rounds them.
    - The forms always submit the [composition] of a product or purchase
      line, as a possibly empty string.
    - A Firestore collection is a finite map from document id to document;
      the [id] field the snapshot listener adds to every record is the key.
    - A Firestore [WriteBatch] is a list of writes applied in order and
      committed all-or-nothing; an [update] of a missing document rejects the
      whole batch.
    - The React state [products] a handler reads is the product collection of
      the store at the time of the call.
    - The handlers are modelled for a signed-in user who answers the
      confirmation dialogs with yes. *)

From Stdlib Require Import ZArith NArith QArith Qcanon Ascii String.
From stdpp Require Import base numbers strings list gmap fin_maps.

Open Scope Z_scope.

(** ** Data model ([types.ts]) *)

Module Batch.
Record t := mk {
  id : string;
  batchNumber : string;
  expiryDate : string;
  stock : Z;
  mrp : Qc;
  purchasePrice : Qc;
}.

(** [{ ...b, stock: z }] *)
Definition withStock (b : t) (z : Z) : t :=
  mk (id b) (batchNumber b) (expiryDate b) z (mrp b) (purchasePrice b).
End Batch.

Global Instance Batch_eq_dec : EqDecision Batch.t.
Proof. solve_decision. Defined.

Module Product.
Record t := mk {
  name : string;
  company : string;
  hsnCode : string;
  gst : Qc;
  composition : option string;
  batches : list Batch.t;
}.

(** [{ batches: bs }] merged into the document by [update]. *)
Definition withBatches (p : t) (bs : list Batch.t) : t :=
  mk (name p) (company p) (hsnCode p) (gst p) (composition p) bs.
End Product.

Module CartItem.
Record t := mk {
  productId : string;
  productName : string;
  composition : option string;
  batchId : string;
  batchNumber : string;
  expiryDate : string;
  hsnCode : string;
  quantity : Z;
  mrp : Qc;
  gst : Qc;
  total : Qc;
}.
End CartItem.

Module Bill.
(** [Omit<Bill, 'id'>]: the document as stored. *)
Record t := mk {
  billNumber : string;
  date : string;
  customerName : string;
  items : list CartItem.t;
  subTotal : Qc;
  totalGst : Qc;
  grandTotal : Qc;
}.
End Bill.

Module BillData.
(** [Omit<Bill, 'id' | 'billNumber'>]: what the billing form submits. *)
Record t := mk {
  date : string;
  customerName : string;
  items : list CartItem.t;
  subTotal : Qc;
  totalGst : Qc;
  grandTotal : Qc;
}.
End BillData.

Module Line.
(** [PurchaseLineItem]; the optional [productId] and [batchId] are
    [None] when the property is absent. *)
Record t := mk {
  isNewProduct : bool;
  productName : string;
  company : string;
  hsnCode : string;
  gst : Qc;
  composition : option string;
  productId : option string;
  batchId : option string;
  batchNumber : string;
  expiryDate : string;
  quantity : Z;
  mrp : Qc;
  purchasePrice : Qc;
}.

(** [finalItem.productId = pid; finalItem.batchId = bid;
    finalItem.isNewProduct = false] *)
Definition resolvedNew (l : t) (pid bid : string) : t :=
  mk false (productName l) (company l) (hsnCode l) (gst l) (composition l)
     (Some pid) (Some bid) (batchNumber l) (expiryDate l) (quantity l)
     (mrp l) (purchasePrice l).

(** [finalItem.batchId = bid] *)
Definition withBatchId (l : t) (bid : string) : t :=
  mk (isNewProduct l) (productName l) (company l) (hsnCode l) (gst l)
     (composition l) (productId l) (Some bid) (batchNumber l)
     (expiryDate l) (quantity l) (mrp l) (purchasePrice l).
End Line.

Module Purchase.
(** [Omit<Purchase, 'id'>]: the document as stored. *)
Record t := mk {
  invoiceNumber : string;
  invoiceDate : string;
  supplier : string;
  items : list Line.t;
  totalAmount : Qc;
}.

Definition withItems (p : t) (ls : list Line.t) : t :=
  mk (invoiceNumber p) (invoiceDate p) (supplier p) ls (totalAmount p).

Definition withTotalItems (p : t) (tot : Qc) (ls : list Line.t) : t :=
  mk (invoiceNumber p) (invoiceDate p) (supplier p) ls tot.
End Purchase.

(** JavaScript truthiness of an optional string: defined and not empty. *)
Definition truthy (o : option string) : option string :=
  match o with
  | Some s => if decide (s = EmptyString) then None else Some s
  | None => None
  end.

(** ** The entity store and Firestore write batches *)

Record Store := mkStore {
  products : gmap string Product.t;
  bills : gmap string Bill.t;
  purchases : gmap string Purchase.t;
  companies : gmap string string;
}.

Definition withProducts (s : Store) (ps : gmap string Product.t) : Store :=
  mkStore ps (bills s) (purchases s) (companies s).
Definition withBills (s : Store) (bs : gmap string Bill.t) : Store :=
  mkStore (products s) bs (purchases s) (companies s).
Definition withPurchases (s : Store) (ps : gmap string Purchase.t) : Store :=
  mkStore (products s) (bills s) ps (companies s).
Definition withCompanies (s : Store) (cs : gmap string string) : Store :=
  mkStore (products s) (bills s) (purchases s) cs.

Inductive Write :=
| SetProduct (pid : string) (p : Product.t)
| UpdateBatches (pid : string) (bs : list Batch.t)
| UnionBatch (pid : string) (b : Batch.t)
| SetBill (bid : string) (b : Bill.t)
| UpdateBill (bid : string) (b : Bill.t)
| DeleteBill (bid : string)
| SetPurchase (qid : string) (p : Purchase.t)
| UpdatePurchase (qid : string) (p : Purchase.t)
| DeletePurchase (qid : string)
| SetCompany (cid : string) (name : string).

(** [arrayUnion(b)]: append [b] unless an equal element is present. *)
Definition arrayUnion (bs : list Batch.t) (b : Batch.t) : list Batch.t :=
  if decide (b ∈ bs) then bs else bs ++ [b].

Definition applyWrite (s : Store) (w : Write) : option Store :=
  match w with
  | SetProduct pid p => Some (withProducts s (<[pid := p]> (products s)))
  | UpdateBatches pid bs =>
      match products s !! pid with
      | Some p =>
          Some (withProducts s (<[pid := Product.withBatches p bs]> (products s)))
      | None => None
      end
  | UnionBatch pid b =>
      match products s !! pid with
      | Some p =>
          Some (withProducts s
                  (<[pid := Product.withBatches p (arrayUnion (Product.batches p) b)]>
                     (products s)))
      | None => None
      end
  | SetBill bid b => Some (withBills s (<[bid := b]> (bills s)))
  | UpdateBill bid b =>
      match bills s !! bid with
      | Some _ => Some (withBills s (<[bid := b]> (bills s)))
      | None => None
      end
  | DeleteBill bid => Some (withBills s (delete bid (bills s)))
  | SetPurchase qid p => Some (withPurchases s (<[qid := p]> (purchases s)))
  | UpdatePurchase qid p =>
      match purchases s !! qid with
      | Some _ => Some (withPurchases s (<[qid := p]> (purchases s)))
      | None => None
      end
  | DeletePurchase qid => Some (withPurchases s (delete qid (purchases s)))
  | SetCompany cid name => Some (withCompanies s (<[cid := name]> (companies s)))
  end.

(** [fbBatch.commit()]: the writes in the order they were queued; [None]
    when the store rejects the batch, in which case nothing is written. *)
Fixpoint commit (ws : list Write) (s : Store) : option Store :=
  match ws with
  | [] => Some s
  | w :: ws' =>
      match applyWrite s w with
      | Some s' => commit ws' s'
      | None => None
      end
  end.

(** ** JavaScript [Map] with string keys

    Iteration follows insertion order, and [set] on a present key keeps the
    key's position. *)

Section JsMap.
Context {V : Type}.

Fixpoint jsGet (m : list (string * V)) (k : string) : option V :=
  match m with
  | [] => None
  | (k', v) :: r => if decide (k' = k) then Some v else jsGet r k
  end.

Fixpoint jsSet (m : list (string * V)) (k : string) (v : V)
    : list (string * V) :=
  match m with
  | [] => [(k, v)]
  | (k', x) :: r =>
      if decide (k' = k) then (k', v) :: r else (k', x) :: jsSet r k v
  end.
End JsMap.

(** ** Bill numbering ([handleGenerateBill], first half) *)

Definition isDigit (c : ascii) : bool :=
  let n := N_of_ascii c in ((48 <=? n) && (n <=? 57))%N.

Definition digitVal (c : ascii) : N := (N_of_ascii c - 48)%N.

(** [s.replace(/\D/g, '')] *)
Fixpoint stripNonDigits (s : string) : string :=
  match s with
  | EmptyString => EmptyString
  | String c r =>
      if isDigit c then String c (stripNonDigits r) else stripNonDigits r
  end.

(** Value of the leading run of decimal digits of [s] on top of [acc]. *)
Fixpoint parseDigits (s : string) (acc : N) : N :=
  match s with
  | EmptyString => acc
  | String c r =>
      if isDigit c then parseDigits r (acc * 10 + digitVal c)%N else acc
  end.

(** The integer a non-empty string of decimal digits writes; [None] for a
    string that does not start with a digit. *)
Definition digitsValue (s : string) : option N :=
  match s with
  | EmptyString => None
  | String c _ => if isDigit c then Some (parseDigits s 0%N) else None
  end.

(** A JavaScript number that holds a non-negative integer, given by that
    integer, or [Infinity]. *)
Inductive Number :=
| Finite (n : N)
| Infinity.

(** The double nearest to the integer [n], ties to the even significand:
    the 53 leading bits of [n] are kept and the rest is rounded; an
    integer that rounds to 2^1024 or more becomes [Infinity]. *)
Definition toNumber (n : N) : Number :=
  let bits := N.size n in
  if (bits <=? 53)%N then Finite n
  else
    let shift := (bits - 53)%N in
    let q := N.shiftr n shift in
    let r := (n - N.shiftl q shift)%N in
    let half := N.shiftl 1 (shift - 1) in
    let q' := if (half <? r)%N || ((r =? half)%N && N.odd q)
              then (q + 1)%N else q in
    let v := N.shiftl q' shift in
    if (1024 <? N.size v)%N then Infinity else Finite v.

(** [parseInt(s, 10)] on a string without leading blanks or sign (the
    argument is always the output of [stripNonDigits]): the double nearest
    to the integer the digits write; [None] is [NaN]. *)
Definition parseInt (s : string) : option Number :=
  toNumber <$> digitsValue s.

(** [a < b] *)
Definition numberLt (a b : Number) : bool :=
  match a, b with
  | Finite x, Finite y => (x <? y)%N
  | Finite _, Infinity => true
  | Infinity, _ => false
  end.

(** [a + 1]: the exact sum, rounded. *)
Definition plusOne (a : Number) : Number :=
  match a with
  | Finite n => toNumber (n + 1)
  | Infinity => Infinity
  end.

Definition digitChar (d : N) : ascii := ascii_of_N (48 + d)%N.

Fixpoint toStringAux (fuel : nat) (n : N) (acc : string) : string :=
  match fuel with
  | O => acc
  | S fuel' =>
      let acc' := String (digitChar (n mod 10)%N) acc in
      if (n / 10 =? 0)%N then acc' else toStringAux fuel' (n / 10)%N acc'
  end.

(** The decimal digits of a non-negative integer: [n.toString()] for an
    integer every digit of which the number holds. *)
Definition toString (n : N) : string :=
  toStringAux (S (N.to_nat (N.log2 n))) n EmptyString.

(** [m] is read as the double [v]. *)
Definition readsBack (v m : N) : bool :=
  match toNumber m with
  | Finite w => (w =? v)%N
  | Infinity => false
  end.

(** The multiple of [10 ^ e] that is read as the double [v], the nearer of
    the two next to [v] when both are, the one with the even quotient when
    they are equally near. *)
Definition shortestAt (v e : N) : option N :=
  let p := (10 ^ e)%N in
  let lo := (v / p * p)%N in
  let hi := (lo + p)%N in
  match readsBack v lo, readsBack v hi with
  | true, true =>
      if (v - lo <? hi - v)%N then Some lo
      else if (hi - v <? v - lo)%N then Some hi
      else if N.even (v / p) then Some lo else Some hi
  | true, false => Some lo
  | false, true => Some hi
  | false, false => None
  end.

Fixpoint shortestFrom (v : N) (e : nat) : N :=
  match shortestAt v (N.of_nat e) with
  | Some m => m
  | None =>
      match e with
      | O => v
      | S e' => shortestFrom v e'
      end
  end.

(** The integer with the fewest significant digits that is read as the
    double [v]; a double has at most 309 digits. *)
Definition shortest (v : N) : N := shortestFrom v 309.

Fixpoint dropTrailingZeros (s : string) : string :=
  match s with
  | EmptyString => EmptyString
  | String c r =>
      match dropTrailingZeros r with
      | EmptyString =>
          if Ascii.eqb c "0" then EmptyString else String c EmptyString
      | r' => String c r'
      end
  end.

(** [d.ddde+x], the notation of numbers from 1e21 on. *)
Definition exponential (m : N) : string :=
  let digits := toString m in
  let exponent :=
    String.append "e+" (toString (N.of_nat (String.length digits - 1))) in
  match dropTrailingZeros digits with
  | EmptyString => digits
  | String d EmptyString => String d exponent
  | String d rest => String d (String "." (String.append rest exponent))
  end.

(** [a.toString()]: the shortest digits that are read as the same double,
    followed by zeros below 1e21 and in exponent notation from there on. *)
Definition numberToString (a : Number) : string :=
  match a with
  | Infinity => "Infinity"
  | Finite v =>
      let m := shortest v in
      if (m <? 10 ^ 21)%N then toString m else exponential m
  end.

Fixpoint zeros (k : nat) : string :=
  match k with
  | O => EmptyString
  | S k' => String "0"%char (zeros k')
  end.

(** [s.padStart(w, '0')] *)
Definition padStart (w : nat) (s : string) : string :=
  String.append (zeros (w - String.length s)) s.

(** [Number.MAX_SAFE_INTEGER] *)
Definition maxSafeInteger : N := (2 ^ 53 - 1)%N.

(** The body of the [forEach] over the bills read from the store. *)
Definition maxStep (maxBillNum : Number) (bill : Bill.t) : Number :=
  if decide (Bill.billNumber bill = EmptyString) then maxBillNum
  else match parseInt (stripNonDigits (Bill.billNumber bill)) with
       | Some num => if numberLt maxBillNum num then num else maxBillNum
       | None => maxBillNum
       end.

Definition maxBillNum (existing : list Bill.t) : Number :=
  fold_left maxStep existing (Finite 0).

Definition newBillNumber (existing : list Bill.t) : string :=
  String "B"%char (padStart 4 (numberToString (plusOne (maxBillNum existing)))).

Definition allBills (s : Store) : list Bill.t := (map_to_list (bills s)).*2.

(** ** Sale transactions *)

Inductive Failure :=
| ProductNotFound (productId : string)
| NegativeStock
| WriteRejected.

(** [b.id === item.batchId ? { ...b, stock: b.stock - item.quantity } : b] *)
Definition sellBatch (item : CartItem.t) (b : Batch.t) : Batch.t :=
  if decide (Batch.id b = CartItem.batchId item)
  then Batch.withStock b (Batch.stock b - CartItem.quantity item)
  else b.

(** [b.id === item.batchId ? { ...b, stock: b.stock + item.quantity } : b] *)
Definition restockBatch (item : CartItem.t) (b : Batch.t) : Batch.t :=
  if decide (Batch.id b = CartItem.batchId item)
  then Batch.withStock b (Batch.stock b + CartItem.quantity item)
  else b.

(** One turn of a [for (const item of items)] loop that queues one product
    update per item whose product is in the snapshot. *)
Definition itemWrite (f : CartItem.t → Batch.t → Batch.t)
    (snapshot : gmap string Product.t) (item : CartItem.t) : list Write :=
  match snapshot !! CartItem.productId item with
  | Some product =>
      [UpdateBatches (CartItem.productId item)
         (fmap (f item) (Product.batches product))]
  | None => []
  end.

Definition stampBill (billData : BillData.t) (billNumber : string) : Bill.t :=
  Bill.mk billNumber (BillData.date billData) (BillData.customerName billData)
    (BillData.items billData) (BillData.subTotal billData)
    (BillData.totalGst billData) (BillData.grandTotal billData).

(** [handleGenerateBill]; [newBillRef] is the id Firestore picks for the new
    bill document.  The result is the store after the call and the returned
    bill ([None] for [null]). *)
Definition handleGenerateBill (s : Store) (newBillRef : string)
    (billData : BillData.t) : Store * option (string * Bill.t) :=
  let newBill := stampBill billData (newBillNumber (allBills s)) in
  let ws := SetBill newBillRef newBill
            :: flat_map (itemWrite sellBatch (products s)) (BillData.items billData) in
  match commit ws s with
  | Some s' => (s', Some (newBillRef, newBill))
  | None => (s, None)
  end.

(** The [stockChanges] map: keyed by batch id, in insertion order. *)
Definition StockChanges := list (string * (string * Z)).

Definition addChange (sign : Z) (m : StockChanges) (item : CartItem.t)
    : StockChanges :=
  let existing := default (CartItem.productId item, 0)
                          (jsGet m (CartItem.batchId item)) in
  jsSet m (CartItem.batchId item)
    (existing.1, existing.2 + CartItem.quantity item * sign).

Definition stockChanges (original updated : list CartItem.t) : StockChanges :=
  fold_left (addChange (-1)) updated (fold_left (addChange 1) original []).

(** [b.id === batchId ? { ...b, stock: b.stock + change } : b] *)
Definition adjustBatch (batchId : string) (change : Z) (b : Batch.t) : Batch.t :=
  if decide (Batch.id b = batchId)
  then Batch.withStock b (Batch.stock b + change)
  else b.

Definition anyNegative (bs : list Batch.t) : bool :=
  existsb (λ b, Batch.stock b <? 0) bs.

(** The loop over [stockChanges.entries()]; [ws] are the writes queued so
    far.  [inl] is an early [return null]. *)
Fixpoint updateBillLoop (snapshot : gmap string Product.t)
    (entries : StockChanges) (ws : list Write) : Failure + list Write :=
  match entries with
  | [] => inr ws
  | (batchId, (productId, change)) :: rest =>
      if decide (change = 0) then updateBillLoop snapshot rest ws
      else match snapshot !! productId with
           | None => inl (ProductNotFound productId)
           | Some product =>
               let newBatches :=
                 fmap (adjustBatch batchId change) (Product.batches product) in
               if anyNegative newBatches then inl NegativeStock
               else updateBillLoop snapshot rest
                      (ws ++ [UpdateBatches productId newBatches])
           end
  end.

(** [handleUpdateBill]; the result is the store after the call and either
    the reason for the [null] or the returned bill. *)
Definition handleUpdateBill (s : Store) (billId : string)
    (updatedBillData : Bill.t) (originalBill : Bill.t)
    : Store * (Failure + string * Bill.t) :=
  let changes := stockChanges (Bill.items originalBill) (Bill.items updatedBillData) in
  match updateBillLoop (products s) changes [] with
  | inl e => (s, inl e)
  | inr ws =>
      match commit (ws ++ [UpdateBill billId updatedBillData]) s with
      | Some s' => (s', inr (billId, updatedBillData))
      | None => (s, inl WriteRejected)
      end
  end.

(** [handleDeleteBill], the confirmation dialog answered with yes. *)
Definition handleDeleteBill (s : Store) (billId : string) (bill : Bill.t)
    : Store :=
  let ws := flat_map (itemWrite restockBatch (products s)) (Bill.items bill)
            ++ [DeleteBill billId] in
  match commit ws s with
  | Some s' => s'
  | None => s
  end.

(** ** Purchase transactions *)

(** Strings are sequences of 8-bit characters.  On a string of ASCII
    characters (codes below 128) [toLowerCase] and [trim] below are
    [String.prototype.toLowerCase] and [trim]: the letters A to Z are
    lowered, and blank, tab, line feed, vertical tab, form feed and carriage
    return are white space.  The statements that depend on them are about
    such strings. *)
Fixpoint asciiOnly (s : string) : Prop :=
  match s with
  | EmptyString => True
  | String c r => (N_of_ascii c < 128)%N ∧ asciiOnly r
  end.

Definition lowerChar (c : ascii) : ascii :=
  let n := N_of_ascii c in
  if ((65 <=? n) && (n <=? 90))%N then ascii_of_N (n + 32) else c.

Fixpoint toLowerCase (s : string) : string :=
  match s with
  | EmptyString => EmptyString
  | String c r => String (lowerChar c) (toLowerCase r)
  end.

Definition isSpace (c : ascii) : bool :=
  let n := N_of_ascii c in ((n =? 32) || ((9 <=? n) && (n <=? 13)))%N.

Fixpoint trimStart (s : string) : string :=
  match s with
  | EmptyString => EmptyString
  | String c r => if isSpace c then trimStart r else s
  end.

Fixpoint trimEnd (s : string) : string :=
  match s with
  | EmptyString => EmptyString
  | String c r =>
      match trimEnd r with
      | EmptyString => if isSpace c then EmptyString else String c EmptyString
      | r' => String c r'
      end
  end.

Definition trim (s : string) : string := trimEnd (trimStart s).

(** The first [forEach] of [handleAddPurchase]: the [newCompanies] set, in
    insertion order. *)
Definition companyStep (known : list string) (newCompanies : list string)
    (item : Line.t) : list string :=
  if Line.isNewProduct item then
    let companyName := trim (Line.company item) in
    if decide (companyName = EmptyString) then newCompanies
    else if existsb (λ c, bool_decide (toLowerCase c = toLowerCase companyName)) known
         then newCompanies
         else if decide (companyName ∈ newCompanies) then newCompanies
              else newCompanies ++ [companyName]
  else newCompanies.

Definition newCompanyNames (known : list string) (items : list Line.t)
    : list string :=
  fold_left (companyStep known) items [].

(** Identifiers come from outside the program: [Date.now()],
    [Math.random()] and Firestore's automatic document ids.  A handler
    receives them as a stream [fresh] and keeps the index of the next one. *)
Definition batchIdOf (token : string) : string := String.append "batch_" token.

Definition lineBatch (bid : string) (item : Line.t) : Batch.t :=
  Batch.mk bid (Line.batchNumber item) (Line.expiryDate item)
    (Line.quantity item) (Line.mrp item) (Line.purchasePrice item).

Definition lineProduct (bid : string) (item : Line.t) : Product.t :=
  Product.mk (Line.productName item) (Line.company item) (Line.hsnCode item)
    (Line.gst item) (Line.composition item) [lineBatch bid item].

(** The batch update of the "batch found" branch. *)
Definition receiveBatch (batchId : string) (item : Line.t) (b : Batch.t)
    : Batch.t :=
  if decide (Batch.id b = batchId)
  then Batch.mk (Batch.id b) (Batch.batchNumber b) (Line.expiryDate item)
         (Batch.stock b + Line.quantity item) (Line.mrp item)
         (Line.purchasePrice item)
  else b.

Definition findByNumber (bs : list Batch.t) (batchNumber : string)
    : option Batch.t :=
  find (λ b, bool_decide (Batch.batchNumber b = batchNumber)) bs.

(** Loop state of [handleAddPurchase]: next identifier, queued writes,
    [itemsWithIds]. *)
Definition AddState : Type := nat * list Write * list Line.t.

Definition addPurchaseStep (snapshot : gmap string Product.t)
    (fresh : nat → string) (st : AddState) (item : Line.t) : AddState :=
  let '(n, ws, itemsWithIds) := st in
  if Line.isNewProduct item then
    let newBatchId := batchIdOf (fresh n) in
    let newProductRef := fresh (S n) in
    (S (S n),
     ws ++ [SetProduct newProductRef (lineProduct newBatchId item)],
     itemsWithIds ++ [Line.resolvedNew item newProductRef newBatchId])
  else
    match truthy (Line.productId item) with
    | Some productId =>
        match snapshot !! productId with
        | None => (n, ws, itemsWithIds)
        | Some product =>
            match findByNumber (Product.batches product) (Line.batchNumber item) with
            | Some existingBatch =>
                (n,
                 ws ++ [UpdateBatches productId
                          (fmap (receiveBatch (Batch.id existingBatch) item)
                               (Product.batches product))],
                 itemsWithIds ++ [Line.withBatchId item (Batch.id existingBatch)])
            | None =>
                let newBatchId := batchIdOf (fresh n) in
                (S n,
                 ws ++ [UnionBatch productId (lineBatch newBatchId item)],
                 itemsWithIds ++ [Line.withBatchId item newBatchId])
            end
        end
    | None => (n, ws, itemsWithIds ++ [item])
    end.

(** [items.reduce((total, item) => total + item.purchasePrice * item.quantity, 0)] *)
Definition lineAmount (item : Line.t) : Qc :=
  (Line.purchasePrice item * Q2Qc (inject_Z (Line.quantity item)))%Qc.

Definition totalAmountOf (items : list Line.t) : Qc :=
  fold_left (λ total item, (total + lineAmount item)%Qc) items (Q2Qc 0).

Definition companyWrites (fresh : nat → string) (names : list string)
    : list Write :=
  imap (λ i name, SetCompany (fresh i) name) names.

(** The writes [handleAddPurchase] queues, and the purchase document among
    them; [newPurchaseRef] is the id Firestore picks for it. *)
Definition addPurchaseWrites (s : Store) (fresh : nat → string)
    (purchaseData : Purchase.t) : list Write * string * Purchase.t :=
  let names := newCompanyNames (map_to_list (companies s)).*2
                 (Purchase.items purchaseData) in
  let '(n, ws, itemsWithIds) :=
    fold_left (addPurchaseStep (products s) fresh)
      (Purchase.items purchaseData)
      (length names, companyWrites fresh names, []) in
  let totalAmount := totalAmountOf (Purchase.items purchaseData) in
  let saved := Purchase.withTotalItems purchaseData totalAmount itemsWithIds in
  (ws ++ [SetPurchase (fresh n) saved], fresh n, saved).

(** [handleAddPurchase]; [None] when the awaited commit rejects. *)
Definition handleAddPurchase (s : Store) (fresh : nat → string)
    (purchaseData : Purchase.t) : option Store :=
  commit (addPurchaseWrites s fresh purchaseData).1.1 s.

(** [productsToUpdate]: the in-memory copies being edited, by product id. *)
Definition Working := list (string * Product.t).

(** [getMutableProduct]: the copy already in the map, or a fresh deep copy
    of the snapshot's product, which enters the map. *)
Definition getMutableProduct (snapshot : gmap string Product.t)
    (m : Working) (productId : string) : Working * option Product.t :=
  match jsGet m productId with
  | Some p => (m, Some p)
  | None =>
      match snapshot !! productId with
      | Some p => (jsSet m productId p, Some p)
      | None => (m, None)
      end
  end.

Definition findIndexById (bs : list Batch.t) (batchId : string)
    : option (nat * Batch.t) :=
  list_find (λ b, Batch.id b = batchId) bs.

Definition findIndexByNumber (bs : list Batch.t) (batchNumber : string)
    : option (nat * Batch.t) :=
  list_find (λ b, Batch.batchNumber b = batchNumber) bs.

(** One turn of the revert stage. *)
Definition revertStep (snapshot : gmap string Product.t) (m : Working)
    (item : Line.t) : Working :=
  match truthy (Line.productId item), truthy (Line.batchId item) with
  | Some productId, Some batchId =>
      match getMutableProduct snapshot m productId with
      | (m', Some product) =>
          match findIndexById (Product.batches product) batchId with
          | Some (i, b) =>
              jsSet m' productId
                (Product.withBatches product
                   (<[i := Batch.withStock b (Batch.stock b - Line.quantity item)]>
                      (Product.batches product)))
          | None => m'
          end
      | (m', None) => m'
      end
  | _, _ => m
  end.

(** Loop state of the apply stage: next identifier, queued writes, the
    working copies, [updatedItemsWithIds]. *)
Definition ApplyState : Type := nat * list Write * Working * list Line.t.

Definition applyStep (snapshot : gmap string Product.t)
    (fresh : nat → string) (st : ApplyState) (item : Line.t) : ApplyState :=
  let '(n, ws, m, out) := st in
  if Line.isNewProduct item then
    let newBatchId := batchIdOf (fresh n) in
    let newProductRef := fresh (S n) in
    (S (S n),
     ws ++ [SetProduct newProductRef (lineProduct newBatchId item)],
     m,
     out ++ [Line.resolvedNew item newProductRef newBatchId])
  else
    match truthy (Line.productId item) with
    | Some productId =>
        match getMutableProduct snapshot m productId with
        | (m', None) => (n, ws, m', out)
        | (m', Some product) =>
            match findIndexByNumber (Product.batches product) (Line.batchNumber item) with
            | Some (i, b) =>
                (n, ws,
                 jsSet m' productId
                   (Product.withBatches product
                      (<[i := Batch.mk (Batch.id b) (Batch.batchNumber b)
                                 (Line.expiryDate item)
                                 (Batch.stock b + Line.quantity item)
                                 (Line.mrp item) (Line.purchasePrice item)]>
                         (Product.batches product))),
                 out ++ [Line.withBatchId item (Batch.id b)])
            | None =>
                let newBatchId := batchIdOf (fresh n) in
                (S n, ws,
                 jsSet m' productId
                   (Product.withBatches product
                      (Product.batches product ++ [lineBatch newBatchId item])),
                 out ++ [Line.withBatchId item newBatchId])
            end
        end
    | None => (n, ws, m, out ++ [item])
    end.

(** [if (b.stock < 0) b.stock = 0] *)
Definition clampBatch (b : Batch.t) : Batch.t :=
  if Batch.stock b <? 0 then Batch.withStock b 0 else b.

Definition commitStage (m : Working) : list Write :=
  fmap (λ '(productId, product),
         UpdateBatches productId (clampBatch <$> Product.batches product)) m.

Definition updatePurchaseWrites (s : Store) (fresh : nat → string)
    (purchaseId : string) (updatedPurchaseData originalPurchase : Purchase.t)
    : list Write :=
  let reverted :=
    fold_left (revertStep (products s)) (Purchase.items originalPurchase) [] in
  let '(_, ws, m, updatedItemsWithIds) :=
    fold_left (applyStep (products s) fresh)
      (Purchase.items updatedPurchaseData) (O, [], reverted, []) in
  ws ++ commitStage m
     ++ [UpdatePurchase purchaseId
           (Purchase.withItems updatedPurchaseData updatedItemsWithIds)].

(** [handleUpdatePurchase]; a rejected commit is caught and leaves the
    store as it was. *)
Definition handleUpdatePurchase (s : Store) (fresh : nat → string)
    (purchaseId : string) (updatedPurchaseData originalPurchase : Purchase.t)
    : Store :=
  match commit (updatePurchaseWrites s fresh purchaseId updatedPurchaseData
                  originalPurchase) s with
  | Some s' => s'
  | None => s
  end.

(** The batch update of [handleDeletePurchase]. *)
Definition returnBatch (batchId : string) (quantity : Z) (b : Batch.t)
    : Batch.t :=
  if decide (Batch.id b = batchId)
  then let newStock := Batch.stock b - quantity in
       Batch.withStock b (if newStock <? 0 then 0 else newStock)
  else b.

Definition deletePurchaseWrite (snapshot : gmap string Product.t)
    (item : Line.t) : list Write :=
  match truthy (Line.productId item), truthy (Line.batchId item) with
  | Some productId, Some batchId =>
      match snapshot !! productId with
      | Some product =>
          [UpdateBatches productId
             (fmap (returnBatch batchId (Line.quantity item))
                  (Product.batches product))]
      | None => []
      end
  | _, _ => []
  end.

(** [handleDeletePurchase], the confirmation dialog answered with yes; a
    purchase without id returns at once. *)
Definition handleDeletePurchase (s : Store) (purchaseId : string)
    (purchase : Purchase.t) : Store :=
  if decide (purchaseId = EmptyString) then s
  else
    let ws := flat_map (deletePurchaseWrite (products s)) (Purchase.items purchase)
              ++ [DeletePurchase purchaseId] in
    match commit ws s with
    | Some s' => s'
    | None => s
    end.

(** ** Auxiliary notions used by the properties *)

Definition batchesOk (bs : list Batch.t) : Prop :=
  Forall (λ b, 0 ≤ Batch.stock b) bs.

Definition stockOk (s : Store) : Prop :=
  ∀ pid p, products s !! pid = Some p → batchesOk (Product.batches p).

Definition writeOk (w : Write) : Prop :=
  match w with
  | SetProduct _ p => batchesOk (Product.batches p)
  | UpdateBatches _ bs => batchesOk bs
  | UnionBatch _ b => 0 ≤ Batch.stock b
  | _ => True
  end.

(** The user-level operations and what they do to the store. *)
Inductive Op :=
| GenerateBill (newBillRef : string) (billData : BillData.t)
| EditBill (billId : string) (updated original : Bill.t)
| RemoveBill (billId : string) (bill : Bill.t)
| AddPurchase (fresh : nat → string) (purchaseData : Purchase.t)
| EditPurchase (fresh : nat → string) (purchaseId : string)
    (updated original : Purchase.t)
| RemovePurchase (purchaseId : string) (purchase : Purchase.t).

Definition run (s : Store) (op : Op) : Store :=
  match op with
  | GenerateBill r d => (handleGenerateBill s r d).1
  | EditBill i u o => (handleUpdateBill s i u o).1
  | RemoveBill i b => handleDeleteBill s i b
  | AddPurchase f d => default s (handleAddPurchase s f d)
  | EditPurchase f i u o => handleUpdatePurchase s f i u o
  | RemovePurchase i p => handleDeletePurchase s i p
  end.

(** A cart line sells no more than the stock of the batch it names (the
    check of [updateCartItem]). *)
Definition withinStock (snapshot : gmap string Product.t) (item : CartItem.t)
    : Prop :=
  ∀ p b, snapshot !! CartItem.productId item = Some p →
         b ∈ Product.batches p → Batch.id b = CartItem.batchId item →
         CartItem.quantity item ≤ Batch.stock b.

Definition sane (s : Store) (op : Op) : Prop :=
  match op with
  | GenerateBill _ d => Forall (withinStock (products s)) (BillData.items d)
  | EditBill _ _ _ => True
  | RemoveBill _ b => Forall (λ item, 0 ≤ CartItem.quantity item) (Bill.items b)
  | AddPurchase _ d => Forall (λ item, 0 ≤ Line.quantity item) (Purchase.items d)
  | EditPurchase _ _ u _ =>
      Forall (λ item, 0 ≤ Line.quantity item) (Purchase.items u)
  | RemovePurchase _ _ => True
  end.

(** Stocks of a product's batches, in order; empty for an unknown product. *)
Definition stocksOf (s : Store) (productId : string) : list Z :=
  match products s !! productId with
  | Some p => Batch.stock <$> Product.batches p
  | None => []
  end.

(** ** Sample data for the concrete runs *)

Module Sample.
Definition rupees (n : Z) : Qc := Q2Qc (inject_Z n).

Definition batchX (stock : Z) : Batch.t :=
  Batch.mk "bX" "X-001" "2027-01" stock (rupees 10) (rupees 8).
Definition batchY (stock : Z) : Batch.t :=
  Batch.mk "bY" "Y-001" "2027-06" stock (rupees 20) (rupees 15).

Definition paracetamol (bs : list Batch.t) : Product.t :=
  Product.mk "Paracetamol" "Acme" "3004" (rupees 12) None bs.

(** A store whose only product is [p1]. *)
Definition shop (bs : list Batch.t) (bills : gmap string Bill.t)
    (purchases : gmap string Purchase.t) : Store :=
  mkStore {[ "p1" := paracetamol bs ]} bills purchases ∅.

Definition sale (batchId batchNumber : string) (quantity : Z) : CartItem.t :=
  CartItem.mk "p1" "Paracetamol" None batchId batchNumber "2027-01" "3004"
    quantity (rupees 10) (rupees 12) (rupees 10 * rupees quantity)%Qc.

Definition billOf (billNumber : string) (items : list CartItem.t) : Bill.t :=
  Bill.mk billNumber "2026-01-01" "Walk-in" items (rupees 0) (rupees 0) (rupees 0).

Definition cartOf (items : list CartItem.t) : BillData.t :=
  BillData.mk "2026-01-01" "Walk-in" items (rupees 0) (rupees 0) (rupees 0).

(** A purchase line on the existing product [p1]. *)
Definition line (productId batchId : option string) (batchNumber : string)
    (quantity : Z) : Line.t :=
  Line.mk false "Paracetamol" "Acme" "3004" (rupees 12) None productId
    batchId batchNumber "2028-01" quantity (rupees 11) (rupees 9).

Definition invoice (items : list Line.t) : Purchase.t :=
  Purchase.mk "INV-1" "2026-01-01" "Supplier" items (rupees 0).

(** Identifier stream: [n0], [n1], ... rendered in unary. *)
Definition fresh (n : nat) : string := String "n" (zeros n).
End Sample.

(** The last cart line that names a product: the one whose queued write
    ends up in the store. *)
Definition lastFor (productId : string) (items : list CartItem.t)
    : option CartItem.t :=
  last (filter (λ item, CartItem.productId item = productId) items).

(** Some non-zero entry of the change map, applied to its product of the
    snapshot, leaves that product with a batch below zero. *)
Definition wouldGoNegative (snapshot : gmap string Product.t)
    (entries : StockChanges) : Prop :=
  ∃ batchId productId change p,
    (batchId, (productId, change)) ∈ entries ∧ change ≠ 0
    ∧ snapshot !! productId = Some p
    ∧ anyNegative (adjustBatch batchId change <$> Product.batches p) = true.

(** Total quantity a list of cart lines holds of one batch. *)
Definition soldQty (batchId : string) (items : list CartItem.t) : Z :=
  foldr (λ item acc,
           if decide (CartItem.batchId item = batchId)
           then CartItem.quantity item + acc else acc) 0 items.

(** The change recorded for a batch, zero when the batch has no entry. *)
Definition changeOf (m : StockChanges) (batchId : string) : Z :=
  default 0 (snd <$> jsGet m batchId).

Module EditBug.
(** One product with batches X and Y at ten units each, after bill [b1]
    sold five of each; the edit brings both lines down to three. *)
Definition original : Bill.t :=
  Sample.billOf "B0001" [Sample.sale "bX" "X-001" 5; Sample.sale "bY" "Y-001" 5].
Definition updated : Bill.t :=
  Sample.billOf "B0001" [Sample.sale "bX" "X-001" 3; Sample.sale "bY" "Y-001" 3].
Definition before : Store :=
  Sample.shop [Sample.batchX 10; Sample.batchY 10] {[ "b1" := original ]} ∅.
Definition after : Store := (handleUpdateBill before "b1" updated original).1.
End EditBug.

Module AddBug.
(** One invoice with two lines on the same product: five units of the
    existing batch X-001 and seven of the existing batch Y-001. *)
Definition lineX : Line.t := Sample.line (Some "p1") None "X-001" 5.
Definition lineY : Line.t := Sample.line (Some "p1") None "Y-001" 7.
Definition before : Store :=
  Sample.shop [Sample.batchX 10; Sample.batchY 10] ∅ ∅.
Definition after : option Store :=
  handleAddPurchase before Sample.fresh (Sample.invoice [lineX; lineY]).
End AddBug.

(** The batches of a list that carry a batch number. *)
Definition carrying (batchNumber : string) (bs : list Batch.t) : list Batch.t :=
  filter (λ b, Batch.batchNumber b = batchNumber) bs.

(** Writes a store with the given products accepts whatever came before:
    creations, deletions, and product updates of a known product. *)
Definition accepted (known : gset string) (w : Write) : Prop :=
  match w with
  | UpdateBatches pid _ | UnionBatch pid _ => pid ∈ known
  | UpdateBill _ _ | UpdatePurchase _ _ => False
  | _ => True
  end.

(** The numeric suffix of a bill as the specification words it: the
    integer parsed from the bill number with the non-digits stripped. *)
Definition suffixOf (bill : Bill.t) : option N :=
  digitsValue (stripNonDigits (Bill.billNumber bill)).

(** The maximum of the suffixes over all bills, zero when there is none. *)
Definition maxSuffix (existing : list Bill.t) : N :=
  foldr (λ bill m, N.max (default 0%N (suffixOf bill)) m) 0%N existing.

(** The suffixes of the bills are all at most [bound]. *)
Definition suffixesWithin (bound : N) (existing : list Bill.t) : Prop :=
  ∀ b k, b ∈ existing → suffixOf b = Some k → (k ≤ bound)%N.

Fixpoint allDigits (s : string) : Prop :=
  match s with
  | EmptyString => True
  | String c r => isDigit c = true ∧ allDigits r
  end.

(** ** The cart of the billing screen ([Billing.tsx]) *)

(** The line [handleAddToCart] creates for a batch not yet in the cart;
    [productId] is the [id] of [product]. *)
Definition newCartItem (productId : string) (product : Product.t)
    (batch : Batch.t) : CartItem.t :=
  CartItem.mk productId (Product.name product) (Product.composition product)
    (Batch.id batch) (Batch.batchNumber batch) (Batch.expiryDate batch)
    (Product.hsnCode product) 1 (Batch.mrp batch) (Product.gst product)
    (Batch.mrp batch).

(** [{ ...item, quantity, total: item.mrp * quantity }] *)
Definition requantify (item : CartItem.t) (quantity : Z) : CartItem.t :=
  CartItem.mk (CartItem.productId item) (CartItem.productName item)
    (CartItem.composition item) (CartItem.batchId item)
    (CartItem.batchNumber item) (CartItem.expiryDate item)
    (CartItem.hsnCode item) quantity (CartItem.mrp item) (CartItem.gst item)
    (CartItem.mrp item * Q2Qc (inject_Z quantity))%Qc.

Definition updateCartItem (snapshot : gmap string Product.t)
    (cart : list CartItem.t) (batchId : string) (quantity : Z)
    : list CartItem.t :=
  (λ item,
     if decide (CartItem.batchId item = batchId) then
       match snapshot !! CartItem.productId item
             ≫= λ product, find (λ b, bool_decide (Batch.id b = batchId))
                             (Product.batches product) with
       | Some batch =>
           if (0 <? quantity) && (quantity <=? Batch.stock batch)
           then requantify item quantity else item
       | None => item
       end
     else item) <$> cart.

(** [handleAddToCart]; [expired] is the outcome of the date comparison
    [expiry < today]. *)
Definition handleAddToCart (snapshot : gmap string Product.t)
    (cart : list CartItem.t) (expired : bool) (productId : string)
    (product : Product.t) (batch : Batch.t) : list CartItem.t :=
  if expired then cart
  else
    match find (λ item, bool_decide (CartItem.productId item = productId
                                     ∧ CartItem.batchId item = Batch.id batch))
               cart with
    | Some existingItem =>
        if CartItem.quantity existingItem <? Batch.stock batch
        then updateCartItem snapshot cart (CartItem.batchId existingItem)
               (CartItem.quantity existingItem + 1)
        else cart
    | None => cart ++ [newCartItem productId product batch]
    end.

Definition removeFromCart (cart : list CartItem.t) (batchId : string)
    : list CartItem.t :=
  filter (λ item, CartItem.batchId item ≠ batchId) cart.

(** What the user can do to the cart, each action against the product
    snapshot of its moment. *)
Inductive CartEvent :=
| AddToCart (snapshot : gmap string Product.t) (expired : bool)
    (productId : string) (product : Product.t) (batch : Batch.t)
| SetQuantity (snapshot : gmap string Product.t) (batchId : string)
    (quantity : Z)
| RemoveLine (batchId : string).

Definition cartStep (cart : list CartItem.t) (ev : CartEvent) : list CartItem.t :=
  match ev with
  | AddToCart snapshot expired productId product batch =>
      handleAddToCart snapshot cart expired productId product batch
  | SetQuantity snapshot batchId quantity =>
      updateCartItem snapshot cart batchId quantity
  | RemoveLine batchId => removeFromCart cart batchId
  end.

Definition runCart (events : list CartEvent) (cart : list CartItem.t)
    : list CartItem.t :=
  fold_left cartStep events cart.

Definition hundred : Qc := Q2Qc (inject_Z 100).

(** [item.total / (1 + item.gst / 100)], in exact arithmetic.  At the rate
    -100 the divisor is zero and JavaScript yields [Infinity] or [NaN]; the
    statements about totals are about the other rates ([gstDefined]). *)
Definition basePrice (item : CartItem.t) : Qc :=
  (CartItem.total item / (1 + CartItem.gst item / hundred))%Qc.

(** The body of the [cart.forEach] of the totals memo. *)
Definition totalsStep (acc : Qc * Qc) (item : CartItem.t) : Qc * Qc :=
  let basePrice := basePrice item in
  ((acc.1 + basePrice)%Qc, (acc.2 + (CartItem.total item - basePrice))%Qc).

(** [{ subTotal, totalGst, grandTotal }] *)
Definition cartTotals (cart : list CartItem.t) : Qc * Qc * Qc :=
  let '(subTotal, totalGst) := fold_left totalsStep cart (Q2Qc 0, Q2Qc 0) in
  (subTotal, totalGst, (subTotal + totalGst)%Qc).

(** [customerName || 'Walk-in'] *)
Definition orWalkIn (customerName : string) : string :=
  if decide (customerName = EmptyString) then "Walk-in" else customerName.

(** What [handleSaveBill] hands to the application. *)
Inductive SaveRequest :=
| RequestGenerate (billData : BillData.t)
| RequestUpdate (billId : string) (billData : Bill.t) (original : Bill.t).

(** [handleSaveBill]; [editingBill] is the bill being edited, if any, and
    [now] the current time as an ISO string.  [None]: the cart is empty. *)
Definition handleSaveBill (editingBill : option (string * Bill.t))
    (cart : list CartItem.t) (customerName : string) (now : string)
    : option SaveRequest :=
  match cart with
  | [] => None
  | _ =>
      let '(subTotal, totalGst, grandTotal) := cartTotals cart in
      match editingBill with
      | Some (billId, editing) =>
          Some (RequestUpdate billId
                  (Bill.mk (Bill.billNumber editing) (Bill.date editing)
                     (orWalkIn customerName) cart subTotal totalGst grandTotal)
                  editing)
      | None =>
          Some (RequestGenerate
                  (BillData.mk now (orWalkIn customerName) cart subTotal
                     totalGst grandTotal))
      end
  end.

Definition savedItems (r : SaveRequest) : list CartItem.t :=
  match r with
  | RequestGenerate d => BillData.items d
  | RequestUpdate _ d _ => Bill.items d
  end.

Definition savedTotals (r : SaveRequest) : Qc * Qc * Qc :=
  match r with
  | RequestGenerate d =>
      (BillData.subTotal d, BillData.totalGst d, BillData.grandTotal d)
  | RequestUpdate _ d _ => (Bill.subTotal d, Bill.totalGst d, Bill.grandTotal d)
  end.

(** A cart line whose total is its price times its quantity. *)
Definition lineOk (item : CartItem.t) : Prop :=
  CartItem.total item
  = (CartItem.mrp item * Q2Qc (inject_Z (CartItem.quantity item)))%Qc.

(** The GST rate of the line is not -100 per cent, the one rate at which
    [1 + gst / 100] is zero and the division yields no number. *)
Definition gstDefined (item : CartItem.t) : Prop :=
  CartItem.gst item ≠ Q2Qc (inject_Z (-100)).

(** The sum of a list of amounts, as the specification writes it. *)
Definition sumQc (xs : list Qc) : Qc := foldr Qcplus (Q2Qc 0) xs.

Module CartRun.
Definition snapshot : gmap string Product.t :=
  {[ "p1" := Sample.paracetamol [Sample.batchX 10; Sample.batchY 10] ]}.

(** X is added, its quantity set to two, then Y is added. *)
Definition events : list CartEvent :=
  [AddToCart snapshot false "p1"
     (Sample.paracetamol [Sample.batchX 10; Sample.batchY 10])
     (Sample.batchX 10);
   SetQuantity snapshot "bX" 2;
   AddToCart snapshot false "p1"
     (Sample.paracetamol [Sample.batchX 10; Sample.batchY 10])
     (Sample.batchY 10)].
End CartRun.

(** ** The purchase edit as the specification words it

    Revert every resolved line of the original purchase on in-memory copies
    of the current products, resolve every line of the update against those
    copies, clamp, and commit once.  These definitions follow the text of
    the specification; [handleUpdatePurchase] above follows the code. *)

Module Staged.
(** The product an edit works on: its in-memory copy if it has one, the
    store's product otherwise. *)
Definition current (store copies : gmap string Product.t) (productId : string)
    : option Product.t :=
  match copies !! productId with
  | Some p => Some p
  | None => store !! productId
  end.

(** Subtract a quantity from the first batch with the given id. *)
Fixpoint subtractAt (batchId : string) (quantity : Z) (bs : list Batch.t)
    : list Batch.t :=
  match bs with
  | [] => []
  | b :: r =>
      if decide (Batch.id b = batchId)
      then Batch.withStock b (Batch.stock b - quantity) :: r
      else b :: subtractAt batchId quantity r
  end.

Definition revertLine (store copies : gmap string Product.t) (line : Line.t)
    : gmap string Product.t :=
  match truthy (Line.productId line), truthy (Line.batchId line) with
  | Some productId, Some batchId =>
      match current store copies productId with
      | Some p =>
          <[productId := Product.withBatches p
                           (subtractAt batchId (Line.quantity line)
                              (Product.batches p))]> copies
      | None => copies
      end
  | _, _ => copies
  end.

(** Add the line to the first batch with the line's batch number, taking
    the line's prices and expiry; the batches and the id of that batch. *)
Fixpoint receiveAt (line : Line.t) (bs : list Batch.t)
    : option (list Batch.t * string) :=
  match bs with
  | [] => None
  | b :: r =>
      if decide (Batch.batchNumber b = Line.batchNumber line)
      then Some (Batch.mk (Batch.id b) (Batch.batchNumber b)
                   (Line.expiryDate line) (Batch.stock b + Line.quantity line)
                   (Line.mrp line) (Line.purchasePrice line) :: r,
                 Batch.id b)
      else (λ '(r', i), (b :: r', i)) <$> receiveAt line r
  end.

(** Next identifier, products created, copies, resolved lines. *)
Definition State : Type :=
  nat * gmap string Product.t * gmap string Product.t * list Line.t.

Definition resolveLine (store : gmap string Product.t) (fresh : nat → string)
    (st : State) (line : Line.t) : State :=
  let '(n, created, copies, out) := st in
  if Line.isNewProduct line then
    (S (S n),
     <[fresh (S n) := lineProduct (batchIdOf (fresh n)) line]> created,
     copies,
     out ++ [Line.resolvedNew line (fresh (S n)) (batchIdOf (fresh n))])
  else
    match truthy (Line.productId line) with
    | Some productId =>
        match current store copies productId with
        | None => st
        | Some p =>
            match receiveAt line (Product.batches p) with
            | Some (bs, batchId) =>
                (n, created,
                 <[productId := Product.withBatches p bs]> copies,
                 out ++ [Line.withBatchId line batchId])
            | None =>
                (S n, created,
                 <[productId := Product.withBatches p
                                  (Product.batches p
                                     ++ [lineBatch (batchIdOf (fresh n)) line])]>
                   copies,
                 out ++ [Line.withBatchId line (batchIdOf (fresh n))])
            end
        end
    | None => (n, created, copies, out ++ [line])
    end.


End Staged.

(** The products a list of queued creations holds. *)
Definition createdBy (ws : list Write) : gmap string Product.t :=
  fold_left (λ created w,
               match w with
               | SetProduct k p => <[k := p]> created
               | _ => created
               end) ws ∅.


(** The working copies are copies of products of the snapshot that differ
    from them in their batches only, one per product. *)
Definition workingOk (snapshot : gmap string Product.t) (m : Working) : Prop :=
  NoDup m.*1
  ∧ ∀ k p, jsGet m k = Some p →
      ∃ p0, snapshot !! k = Some p0
            ∧ p = Product.withBatches p0 (Product.batches p).

Module EditRun.
(** Batch Y of [p1] was bought by purchase [q1], four units, and is edited
    to six. *)
Definition bought : Line.t := Sample.line (Some "p1") (Some "bY") "Y-001" 4.
Definition edited : Line.t := Sample.line (Some "p1") (Some "bY") "Y-001" 6.
Definition shop (stockY : Z) : Store :=
  Sample.shop [Sample.batchX 10; Sample.batchY stockY] ∅
    {[ "q1" := Sample.invoice [bought] ]}.
Definition after (stockY : Z) : Store :=
  handleUpdatePurchase (shop stockY) Sample.fresh "q1"
    (Sample.invoice [edited]) (Sample.invoice [bought]).
End EditRun.

(** The staged state an apply-stage loop state stands for. *)
Definition staged (st : ApplyState) : Staged.State :=
  let '(n, ws, m, out) := st in (n, createdBy ws, list_to_map m, out).

(** The writes queued by the apply stage create products under identifiers
    of the stream; the working copies are well formed. *)
Definition applyOk (snapshot : gmap string Product.t) (fresh : nat → string)
    (st : ApplyState) : Prop :=
  Forall (λ w, ∃ n p, w = SetProduct (fresh n) p) st.1.1.2
  ∧ workingOk snapshot st.1.2.

(** ** Inventory handlers ([App.tsx]) *)

Module BatchData.
(** [Omit<Batch, 'id'>]: what the inventory forms submit. *)
Record t := mk {
  batchNumber : string;
  expiryDate : string;
  stock : Z;
  mrp : Qc;
  purchasePrice : Qc;
}.

(** [{ ...batchData, id }] *)
Definition withId (d : t) (id : string) : Batch.t :=
  Batch.mk id (batchNumber d) (expiryDate d) (stock d) (mrp d) (purchasePrice d).
End BatchData.

(** [handleAddBatch]; [now] is [Date.now()] in decimal.  [None] when the
    awaited [updateDoc] rejects. *)
Definition handleAddBatch (s : Store) (now : string) (productId : string)
    (batchData : BatchData.t) : option Store :=
  commit [UnionBatch productId (BatchData.withId batchData (batchIdOf now))] s.

(** [handleAddProduct]; [productData] is read without its batches,
    [newCompanyRef] and [newProductRef] are the ids Firestore picks. *)
Definition handleAddProduct (s : Store) (now newCompanyRef newProductRef : string)
    (productData : Product.t) (firstBatchData : BatchData.t) : option Store :=
  let companyName := trim (Product.company productData) in
  let companyExists :=
    existsb (λ c, bool_decide (toLowerCase c = toLowerCase companyName))
            (map_to_list (companies s)).*2 in
  let companyWrite :=
    if decide (companyName = EmptyString) then []
    else if companyExists then []
         else [SetCompany newCompanyRef companyName] in
  commit (companyWrite
            ++ [SetProduct newProductRef
                  (Product.withBatches productData
                     [BatchData.withId firstBatchData (batchIdOf now)])]) s.

(** What [handleDeleteBatch] tells the user. *)
Inductive BatchDeletion :=
| BatchInBill
| BatchInPurchase
| BatchProductMissing
| BatchDeleted
| BatchDeleteFailed.

(** [bills.some(bill => bill.items.some(item => item.batchId === batchId))] *)
Definition isInBill (s : Store) (batchId : string) : bool :=
  existsb (λ bill,
             existsb (λ item, bool_decide (CartItem.batchId item = batchId))
                     (Bill.items bill))
          (allBills s).

(** [purchases.some(p => p.items.some(item => item.batchId === batchId))] *)
Definition isInPurchase (s : Store) (batchId : string) : bool :=
  existsb (λ purchase,
             existsb (λ item, bool_decide (Line.batchId item = Some batchId))
                     (Purchase.items purchase))
          (map_to_list (purchases s)).*2.

(** [handleDeleteBatch]. *)
Definition handleDeleteBatch (s : Store) (productId batchId : string)
    : Store * BatchDeletion :=
  if isInBill s batchId then (s, BatchInBill)
  else if isInPurchase s batchId then (s, BatchInPurchase)
  else
    match products s !! productId with
    | None => (s, BatchProductMissing)
    | Some productToUpdate =>
        let updatedBatches :=
          filter (λ b, Batch.id b ≠ batchId) (Product.batches productToUpdate) in
        match commit [UpdateBatches productId updatedBatches] s with
        | Some s' => (s', BatchDeleted)
        | None => (s, BatchDeleteFailed)
        end
    end.

(** ** Supplier payments ([App.tsx]) *)

Inductive PaymentMethod := Cash | BankTransfer | Cheque | OtherMethod.

Module Payment.
(** [Omit<Payment, 'id'>]: the document as stored. *)
Record t := mk {
  supplierName : string;
  date : string;
  voucherNumber : string;
  amount : Qc;
  method : PaymentMethod;
  remarks : option string;
}.

(** [{ ...paymentData, voucherNumber }] *)
Definition withVoucher (p : t) (v : string) : t :=
  mk (supplierName p) (date p) v (amount p) (method p) (remarks p).
End Payment.

(** [`PV-${(count + 1).toString().padStart(4, '0')}`] *)
Definition newVoucherNumber (count : nat) : string :=
  String.append "PV-" (padStart 4 (toString (N.of_nat count + 1)%N)).

(** [handleAddPayment] on the payments collection; [paymentData] is read
    without its voucher number and [docRef] is the id [addDoc] picks.  The
    collection after the call and the returned payment. *)
Definition handleAddPayment (payments : gmap string Payment.t) (docRef : string)
    (paymentData : Payment.t) : gmap string Payment.t * (string * Payment.t) :=
  let count := size payments in
  let newPaymentData :=
    Payment.withVoucher paymentData (newVoucherNumber count) in
  (<[docRef := newPaymentData]> payments, (docRef, newPaymentData)).

(** [handleDeletePayment], the confirmation dialog answered with yes. *)
Definition handleDeletePayment (payments : gmap string Payment.t)
    (paymentId : string) : gmap string Payment.t :=
  if decide (paymentId = EmptyString) then payments else delete paymentId payments.

(** ** The printed supplier ledger ([PrintableSupplierLedger.tsx]) *)

Module Transaction.
Record t := mk { particulars : string; debit : Qc; credit : Qc }.
End Transaction.

(** [transactions.reduce((sum, tx) => sum + tx.debit, 0)] *)
Definition totalDebit (transactions : list Transaction.t) : Qc :=
  fold_left (λ sum tx, (sum + Transaction.debit tx)%Qc) transactions (Q2Qc 0).

(** [transactions.reduce((sum, tx) => sum + tx.credit, 0)] *)
Definition totalCredit (transactions : list Transaction.t) : Qc :=
  fold_left (λ sum tx, (sum + Transaction.credit tx)%Qc) transactions (Q2Qc 0).

(** The balance column: [runningBalance = runningBalance + tx.debit -
    tx.credit] before each row is rendered; the rows' balances and the
    closing balance of the footer. *)
Fixpoint ledgerRows (runningBalance : Qc) (transactions : list Transaction.t)
    : list Qc * Qc :=
  match transactions with
  | [] => ([], runningBalance)
  | tx :: rest =>
      let runningBalance :=
        (runningBalance + Transaction.debit tx - Transaction.credit tx)%Qc in
      let '(rows, closing) := ledgerRows runningBalance rest in
      (runningBalance :: rows, closing)
  end.

(** The batches the last queued update of a product carries, if any. *)
Definition lastUpdate (productId : string) (ws : list Write)
    : option (list Batch.t) :=
  fold_left (λ acc w,
               match w with
               | UpdateBatches k bs => if decide (k = productId) then Some bs else acc
               | _ => acc
               end) ws None.

(** An update of the batches of a product the map holds. *)
Definition knownUpdate (known : gmap string Product.t) (w : Write) : Prop :=
  match w with
  | UpdateBatches k _ => is_Some (known !! k)
  | _ => False
  end.

(** The product and batch a purchase line is linked to, when both ids are
    present (the guard of the revert and delete loops). *)
Definition linkOf (item : Line.t) : option (string * string) :=
  match truthy (Line.productId item), truthy (Line.batchId item) with
  | Some productId, Some batchId => Some (productId, batchId)
  | _, _ => None
  end.

Module PaymentRun.
Definition payment (supplier : string) : Payment.t :=
  Payment.mk supplier "2026-01-01" "Auto" (Sample.rupees 100) Cash None.
Definition onRecord : gmap string Payment.t :=
  {[ "pay1" := Payment.withVoucher (payment "Acme") "PV-0001" ]}.
End PaymentRun.

(** A batch as [handleDeletePurchase] leaves it: the quantity taken off the
    batch with the given id, not below zero. *)
Definition takenBack (batchId : string) (quantity : Z) (b : Batch.t) : Batch.t :=
  if decide (Batch.id b = batchId)
  then Batch.withStock b (Z.max 0 (Batch.stock b - quantity))
  else b.


(** The company collection after a write. *)
Definition companiesAfter (cs : gmap string string) (w : Write)
    : gmap string string :=
  match w with
  | SetCompany cid name => <[cid := name]> cs
  | _ => cs
  end.

(** A write that creates no company. *)
Definition noCompany (w : Write) : Prop :=
  match w with
  | SetCompany _ _ => False
  | _ => True
  end.

(** A write to the product collection. *)
Definition productWrite (w : Write) : Prop :=
  match w with
  | SetProduct _ _ | UpdateBatches _ _ | UnionBatch _ _ => True
  | _ => False
  end.

(** What identifies a cart line for [handleAddToCart]. *)
Definition cartKey (item : CartItem.t) : string * string :=
  (CartItem.productId item, CartItem.batchId item).

(** Every line holds at least one unit and no two lines are on the same
    batch of the same product. *)
Definition cartOk (cart : list CartItem.t) : Prop :=
  Forall (λ item, 1 ≤ CartItem.quantity item) cart ∧ NoDup (cartKey <$> cart).

(** The last entry of the change map that has a non-zero change and
    belongs to the product: its batch id and change. *)
Fixpoint lastNonzero (productId : string) (entries : StockChanges)
    : option (string * Z) :=
  match entries with
  | [] => None
  | (batchId, (pid, change)) :: rest =>
      match lastNonzero productId rest with
      | Some found => Some found
      | None =>
          if decide (change = 0) then None
          else if decide (pid = productId) then Some (batchId, change)
               else None
      end
  end.

(** ** Substitutes ([Billing.tsx]) *)

(** [p.composition?.trim().toLowerCase()], [None] for a product without
    composition. *)
Definition normalComposition (p : Product.t) : option string :=
  (λ c, toLowerCase (trim c)) <$> Product.composition p.

(** [p.batches.some(b => b.stock > 0)] *)
Definition inStock (p : Product.t) : bool :=
  existsb (λ b, 0 <? Batch.stock b) (Product.batches p).

(** [handleFindSubstitutes] for the product stored under [productId];
    [None] is the alert for a product without composition details,
    otherwise the products offered as substitutes, by id. *)
Definition handleFindSubstitutes (snapshot : gmap string Product.t)
    (productId : string) (product : Product.t)
    : option (gmap string Product.t) :=
  match Product.composition product with
  | None => None
  | Some composition =>
      if decide (trim composition = EmptyString) then None
      else
        let compositionToFind := toLowerCase (trim composition) in
        Some (filter (λ '(k, p), k ≠ productId
                                 ∧ normalComposition p = Some compositionToFind
                                 ∧ inStock p = true) snapshot)
  end.

(** * Properties *)

(** ** Write batches *)

Lemma commit_app (ws1 ws2 : list Write) (s : Store) :
  commit (ws1 ++ ws2) s = commit ws1 s ≫= commit ws2.
Proof.
  revert s. induction ws1 as [|w ws1 IH]; intros s; simpl; [done|].
  destruct (applyWrite s w); simpl; [apply IH | done].
Qed.

Lemma commit_snoc (ws : list Write) (w : Write) (s : Store) :
  commit (ws ++ [w]) s = commit ws s ≫= λ s', applyWrite s' w.
Proof.
  rewrite commit_app. destruct (commit ws s) as [s'|]; simpl; [|done].
  by destruct (applyWrite s' w).
Qed.

(** ** Stock non-negativity *)

Lemma arrayUnion_ok (bs : list Batch.t) (b : Batch.t) :
  batchesOk bs → 0 ≤ Batch.stock b → batchesOk (arrayUnion bs b).
Proof.
  intros Hbs Hb. unfold arrayUnion. case_decide; [done|].
  apply Forall_app. split; [done|]. by constructor.
Qed.

Lemma applyWrite_stockOk (s s' : Store) (w : Write) :
  stockOk s → writeOk w → applyWrite s w = Some s' → stockOk s'.
Proof.
  intros Hs Hw Happ.
  destruct w as [pid p | pid bs | pid b | | | | | | |]; simpl in *;
    try (destruct (_ !! _) eqn:Hl; [|done]); simplify_eq; try exact Hs;
    intros k q; simpl; rewrite lookup_insert; case_decide; subst;
    intros Hq; simplify_eq; eauto; simpl.
  apply arrayUnion_ok; eauto.
Qed.

Lemma commit_stockOk (ws : list Write) (s s' : Store) :
  stockOk s → Forall writeOk ws → commit ws s = Some s' → stockOk s'.
Proof.
  revert s. induction ws as [|w ws IH]; intros s Hs Hall Hc; simpl in *.
  - by simplify_eq.
  - inversion Hall; subst.
    destruct (applyWrite s w) as [s1|] eqn:Hw; [|done].
    eauto using applyWrite_stockOk.
Qed.

Lemma itemWrites_ok (f : CartItem.t → Batch.t → Batch.t)
    (snapshot : gmap string Product.t) (items : list CartItem.t) :
  (∀ item p, item ∈ items → snapshot !! CartItem.productId item = Some p →
             batchesOk (f item <$> Product.batches p)) →
  Forall writeOk (flat_map (itemWrite f snapshot) items).
Proof.
  induction items as [|item items IH]; intros H; simpl; [constructor|].
  apply Forall_app. split.
  - unfold itemWrite. destruct (snapshot !! _) as [p|] eqn:Hp; [|constructor].
    constructor; [|constructor]. simpl. apply (H item p); [left|done].
  - apply IH. intros i p Hi. apply H. by right.
Qed.

Lemma anyNegative_false (bs : list Batch.t) :
  anyNegative bs = false → batchesOk bs.
Proof.
  unfold anyNegative, batchesOk. induction bs as [|b bs IH]; simpl; [constructor|].
  intros [Hb Hbs]%orb_false_iff. constructor; [lia|auto].
Qed.

Lemma anyNegative_true (bs : list Batch.t) :
  anyNegative bs = true ↔ ∃ b, b ∈ bs ∧ Batch.stock b < 0.
Proof.
  unfold anyNegative. rewrite existsb_exists. split.
  - intros (b & Hin & Hb). exists b. rewrite list_elem_of_In. split; [done|lia].
  - intros (b & Hin & Hb). exists b. rewrite <- list_elem_of_In. split; [done|lia].
Qed.

Lemma updateBillLoop_ok (snapshot : gmap string Product.t)
    (entries : StockChanges) (ws ws' : list Write) :
  Forall writeOk ws → updateBillLoop snapshot entries ws = inr ws' →
  Forall writeOk ws'.
Proof.
  revert ws. induction entries as [|[batchId [productId change]] rest IH];
    intros ws Hws Hloop; simpl in Hloop.
  - by simplify_eq.
  - case_decide; [eauto|].
    destruct (snapshot !! productId) as [p|]; [|done].
    destruct (anyNegative _) eqn:Hneg; [done|].
    eapply IH; [|exact Hloop]. apply Forall_app. split; [done|].
    constructor; [|constructor]. by apply anyNegative_false.
Qed.

Lemma clamp_ok (bs : list Batch.t) : batchesOk (clampBatch <$> bs).
Proof.
  apply Forall_fmap, Forall_true. intros b. simpl. unfold clampBatch.
  destruct (Batch.stock b <? 0) eqn:E; simpl; lia.
Qed.

Lemma commitStage_ok (m : Working) : Forall writeOk (commitStage m).
Proof.
  unfold commitStage. apply Forall_fmap, Forall_true.
  intros [pid p]. simpl. apply clamp_ok.
Qed.

Lemma addPurchaseStep_ok (snapshot : gmap string Product.t)
    (fresh : nat → string) (st : AddState) (item : Line.t) :
  (∀ pid p, snapshot !! pid = Some p → batchesOk (Product.batches p)) →
  0 ≤ Line.quantity item →
  Forall writeOk st.1.2 →
  Forall writeOk (addPurchaseStep snapshot fresh st item).1.2.
Proof.
  intros Hsnap Hq. destruct st as [[n ws] out]. simpl. intros Hws.
  unfold addPurchaseStep. destruct (Line.isNewProduct item); simpl.
  { apply Forall_app. split; [done|]. repeat constructor. exact Hq. }
  destruct (truthy _) as [pid|]; simpl; [|done].
  destruct (snapshot !! pid) as [p|] eqn:Hp; simpl; [|done].
  destruct (findByNumber _ _) as [b|]; simpl.
  - apply Forall_app. split; [done|]. constructor; [|constructor]. simpl.
    apply Forall_fmap. eapply Forall_impl; [exact (Hsnap _ _ Hp)|].
    intros x Hx. simpl in *. unfold receiveBatch. case_decide; simpl; lia.
  - apply Forall_app. split; [done|]. constructor; [|constructor]. exact Hq.
Qed.

Lemma addPurchaseFold_ok (snapshot : gmap string Product.t)
    (fresh : nat → string) (items : list Line.t) (st : AddState) :
  (∀ pid p, snapshot !! pid = Some p → batchesOk (Product.batches p)) →
  Forall (λ item, 0 ≤ Line.quantity item) items →
  Forall writeOk st.1.2 →
  Forall writeOk (fold_left (addPurchaseStep snapshot fresh) items st).1.2.
Proof.
  intros Hsnap. revert st. induction items as [|item items IH];
    intros st Hq Hws; simpl; [done|].
  inversion Hq; subst. apply IH; [done|]. by apply addPurchaseStep_ok.
Qed.

Lemma applyFold_ok (snapshot : gmap string Product.t)
    (fresh : nat → string) (items : list Line.t) (st : ApplyState) :
  Forall (λ item, 0 ≤ Line.quantity item) items →
  Forall writeOk st.1.1.2 →
  Forall writeOk (fold_left (applyStep snapshot fresh) items st).1.1.2.
Proof.
  revert st. induction items as [|item items IH]; intros st Hq Hws; simpl; [done|].
  inversion Hq; subst. apply IH; [done|].
  destruct st as [[[n ws] m] out]. simpl in *. unfold applyStep.
  destruct (Line.isNewProduct item); simpl.
  { apply Forall_app. split; [done|]. repeat constructor. done. }
  destruct (truthy _) as [pid|]; simpl; [|done].
  destruct (getMutableProduct snapshot m pid) as [m' [p|]]; simpl; [|done].
  by destruct (findIndexByNumber _ _) as [[i b]|]; simpl.
Qed.

Lemma companyWrites_ok (fresh : nat → string) (names : list string) :
  Forall writeOk (companyWrites fresh names).
Proof.
  unfold companyWrites. apply Forall_forall. intros w Hw.
  apply elem_of_lookup_imap in Hw as (i & name & -> & _). exact I.
Qed.

Lemma deletePurchaseWrites_ok (snapshot : gmap string Product.t)
    (items : list Line.t) :
  (∀ pid p, snapshot !! pid = Some p → batchesOk (Product.batches p)) →
  Forall writeOk (flat_map (deletePurchaseWrite snapshot) items).
Proof.
  intros Hsnap. induction items as [|item items IH]; simpl; [constructor|].
  apply Forall_app. split; [|done]. unfold deletePurchaseWrite.
  destruct (truthy (Line.productId item)) as [pid|]; [|constructor].
  destruct (truthy (Line.batchId item)) as [bid|]; [|constructor].
  destruct (snapshot !! pid) as [p|] eqn:Hp; [|constructor].
  constructor; [|constructor]. simpl.
  apply Forall_fmap. eapply Forall_impl; [exact (Hsnap _ _ Hp)|].
  intros b Hb. simpl in *. unfold returnBatch. case_decide; simpl; [|done].
  destruct (_ <? 0) eqn:E; lia.
Qed.

Lemma stockOk_stocksOf (s : Store) (pid : string) :
  stockOk s → Forall (λ z, 0 ≤ z) (stocksOf s pid).
Proof.
  intros Hs. unfold stocksOf. destruct (products s !! pid) as [p|] eqn:Hp;
    [|constructor].
  apply Forall_fmap. exact (Hs _ _ Hp).
Qed.

Lemma sellBatch_ok (snapshot : gmap string Product.t) (item : CartItem.t)
    (p : Product.t) :
  withinStock snapshot item → snapshot !! CartItem.productId item = Some p →
  batchesOk (Product.batches p) →
  batchesOk (sellBatch item <$> Product.batches p).
Proof.
  intros Hw Hp Hok. apply Forall_fmap, Forall_forall. intros b Hb. simpl.
  unfold sellBatch. case_decide as Hid; simpl.
  - specialize (Hw p b Hp Hb Hid). lia.
  - by eapply Forall_forall in Hok.
Qed.

Lemma restockBatch_ok (item : CartItem.t) (bs : list Batch.t) :
  0 ≤ CartItem.quantity item → batchesOk bs →
  batchesOk (restockBatch item <$> bs).
Proof.
  intros Hq Hok. apply Forall_fmap. eapply Forall_impl; [exact Hok|].
  intros b Hb. simpl in *. unfold restockBatch. case_decide; simpl; lia.
Qed.

(** C1, as amended.  Stock non-negativity is preserved by every operation
    whose quantities are sane: bill edits always (the handler checks),
    purchase edits and deletions always (the handlers clamp), bill deletions
    and purchase additions when their line quantities are not negative, and
    bill generation when no line sells more than the stock of its batch;
    [handleGenerateBill] itself performs no floor check. *)
Theorem stock_nonneg_preserved (s : Store) (op : Op) :
  stockOk s → sane s op → stockOk (run s op).
Proof.
  intros Hs Hsane. destruct op as [r d | i u o | i b | f d | f i u o | i p]; simpl in *.
  - unfold handleGenerateBill.
    destruct (commit _ s) as [s'|] eqn:Hc; simpl; [|done].
    eapply commit_stockOk; [exact Hs| |exact Hc].
    constructor; [exact I|]. apply itemWrites_ok.
    intros item p Hin Hp. eapply sellBatch_ok; eauto.
    by eapply Forall_forall in Hsane.
  - unfold handleUpdateBill.
    destruct (updateBillLoop _ _ _) as [e|ws] eqn:Hloop; simpl; [done|].
    destruct (commit _ s) as [s'|] eqn:Hc; simpl; [|done].
    eapply commit_stockOk; [exact Hs| |exact Hc].
    apply Forall_app. split; [|by repeat constructor].
    eapply updateBillLoop_ok; [|exact Hloop]. constructor.
  - unfold handleDeleteBill.
    destruct (commit _ s) as [s'|] eqn:Hc; simpl; [|done].
    eapply commit_stockOk; [exact Hs| |exact Hc].
    apply Forall_app. split; [|by repeat constructor].
    apply itemWrites_ok. intros item p Hin Hp.
    apply restockBatch_ok; [|by eauto].
    by eapply Forall_forall in Hsane.
  - unfold handleAddPurchase.
    destruct (commit _ s) as [s'|] eqn:Hc; simpl; [|done].
    eapply commit_stockOk; [exact Hs| |exact Hc].
    unfold addPurchaseWrites.
    pose proof (addPurchaseFold_ok (products s) f (Purchase.items d)
      (length (newCompanyNames (map_to_list (companies s)).*2 (Purchase.items d)),
       companyWrites f (newCompanyNames (map_to_list (companies s)).*2 (Purchase.items d)),
       []) Hs Hsane (companyWrites_ok _ _)) as Hfold.
    destruct (fold_left _ _ _) as [[n ws] out]. simpl in *.
    apply Forall_app. split; [done|by repeat constructor].
  - unfold handleUpdatePurchase.
    destruct (commit _ s) as [s'|] eqn:Hc; simpl; [|done].
    eapply commit_stockOk; [exact Hs| |exact Hc].
    unfold updatePurchaseWrites.
    pose proof (applyFold_ok (products s) f (Purchase.items u)
      (O, [], fold_left (revertStep (products s)) (Purchase.items o) [], [])
      Hsane (List.Forall_nil _)) as Hfold.
    destruct (fold_left (applyStep _ _) _ _) as [[[n ws] m] out]. simpl in *.
    apply Forall_app. split; [done|].
    apply Forall_app. split; [apply commitStage_ok|by repeat constructor].
  - unfold handleDeletePurchase. case_decide; [done|].
    destruct (commit _ s) as [s'|] eqn:Hc; simpl; [|done].
    eapply commit_stockOk; [exact Hs| |exact Hc].
    apply Forall_app. split; [|by repeat constructor].
    by apply deletePurchaseWrites_ok.
Qed.

Lemma sample_shop_ok (bs : list Batch.t) bills purchases :
  batchesOk bs → stockOk (Sample.shop bs bills purchases).
Proof.
  intros Hbs pid p. unfold Sample.shop. simpl.
  rewrite lookup_singleton. case_decide; [|done]. by intros [= <-].
Qed.

(** Deleting a bill of two units from a shop holding three. *)
Lemma stock_nonneg_preserved_witness :
  stockOk (run (Sample.shop [Sample.batchX 3] ∅ ∅)
             (RemoveBill "b1" (Sample.billOf "B0001" [Sample.sale "bX" "X-001" 2]))).
Proof.
  apply stock_nonneg_preserved.
  - apply sample_shop_ok. repeat constructor. simpl. lia.
  - simpl. repeat constructor. simpl. lia.
Defined.

(** C1, as stated, fails: selling five units of a batch holding three is
    committed and leaves the batch at minus two. *)
Lemma stock_nonneg_generate_counterexample :
  ¬ (∀ s op, stockOk s → stockOk (run s op)).
Proof.
  intros H.
  pose proof (H (Sample.shop [Sample.batchX 3] ∅ ∅)
                (GenerateBill "b1" (Sample.cartOf [Sample.sale "bX" "X-001" 5]))) as H1.
  apply (stockOk_stocksOf _ "p1") in H1.
  - vm_compute in H1. inversion H1 as [|? ? Hneg _]. by apply Hneg.
  - apply sample_shop_ok. repeat constructor. simpl. lia.
Qed.

(** ** What a loop of per-item product updates commits *)

Lemma lastFor_snoc (pid : string) (items : list CartItem.t) (item : CartItem.t) :
  lastFor pid (items ++ [item]) =
    if decide (CartItem.productId item = pid) then Some item
    else lastFor pid items.
Proof.
  unfold lastFor. rewrite filter_app. case_decide as Hd.
  - rewrite filter_cons_True by done. rewrite filter_nil. by rewrite last_snoc.
  - rewrite filter_cons_False by done. rewrite filter_nil. by rewrite app_nil_r.
Qed.

Lemma withBatches_twice (p : Product.t) (bs bs' : list Batch.t) :
  Product.withBatches (Product.withBatches p bs) bs' = Product.withBatches p bs'.
Proof. done. Qed.

Lemma withBatches_same (p : Product.t) :
  Product.withBatches p (Product.batches p) = p.
Proof. by destruct p. Qed.

Lemma commit_itemWrites (f : CartItem.t → Batch.t → Batch.t)
    (snapshot : gmap string Product.t) (items : list CartItem.t) (s : Store) :
  (∀ pid, is_Some (snapshot !! pid) → is_Some (products s !! pid)) →
  ∃ s', commit (flat_map (itemWrite f snapshot) items) s = Some s'
    ∧ bills s' = bills s ∧ purchases s' = purchases s
    ∧ companies s' = companies s
    ∧ ∀ pid, products s' !! pid =
        match snapshot !! pid, lastFor pid items with
        | Some p0, Some item =>
            (λ p, Product.withBatches p (f item <$> Product.batches p0))
              <$> products s !! pid
        | _, _ => products s !! pid
        end.
Proof.
  intros Hdom. induction items as [|item items IH] using rev_ind.
  - exists s. simpl. split_and!; try done. intros pid.
    unfold lastFor. simpl. by destruct (snapshot !! pid).
  - destruct IH as (s1 & Hc1 & Hb1 & Hq1 & Hco1 & Hp1).
    rewrite flat_map_app, commit_app, Hc1. simpl. rewrite app_nil_r.
    unfold itemWrite at 1.
    destruct (snapshot !! CartItem.productId item) as [p0|] eqn:Hsnap; simpl.
    + destruct (Hdom (CartItem.productId item)) as [p Hp]; [by eexists|].
      assert (∃ p1, products s1 !! CartItem.productId item = Some p1
                    ∧ ∀ bs, Product.withBatches p1 bs = Product.withBatches p bs)
        as (p1 & Hs1 & Hmeta).
      { rewrite Hp1, Hsnap, Hp. destruct (lastFor _ _); simpl; eauto. }
      rewrite Hs1. eexists. split; [done|]. simpl. split_and!; try done.
      intros pid. rewrite lastFor_snoc, lookup_insert.
      case_decide as Hd; subst.
      * rewrite Hsnap, Hp. simpl. by rewrite Hmeta.
      * apply Hp1.
    + exists s1. split; [done|]. split_and!; try done.
      intros pid. rewrite lastFor_snoc. case_decide as Hd; subst.
      * rewrite Hsnap. rewrite Hp1, Hsnap. done.
      * apply Hp1.
Qed.


(** ** Generate, then delete *)

Lemma generate_commits (s : Store) (newBillRef : string) (billData : BillData.t) :
  let newBill := stampBill billData (newBillNumber (allBills s)) in
  ∃ s', handleGenerateBill s newBillRef billData = (s', Some (newBillRef, newBill))
    ∧ bills s' = <[newBillRef := newBill]> (bills s)
    ∧ purchases s' = purchases s ∧ companies s' = companies s
    ∧ ∀ pid, products s' !! pid =
        match products s !! pid, lastFor pid (BillData.items billData) with
        | Some p0, Some item =>
            Some (Product.withBatches p0 (sellBatch item <$> Product.batches p0))
        | _, _ => products s !! pid
        end.
Proof.
  intros newBill. unfold handleGenerateBill. fold newBill. simpl.
  destruct (commit_itemWrites sellBatch (products s) (BillData.items billData)
              (withBills s (<[newBillRef := newBill]> (bills s))))
    as (s' & Hc & Hb & Hq & Hco & Hp); [done|].
  rewrite Hc. exists s'. split; [done|]. split_and!; try done.
  intros pid. rewrite Hp. simpl.
  by destruct (products s !! pid), (lastFor pid (BillData.items billData)).
Qed.


(** ** Bill edits: rejection before any write *)

Lemma updateBillLoop_inr (snapshot : gmap string Product.t)
    (entries : StockChanges) (ws ws' : list Write) :
  updateBillLoop snapshot entries ws = inr ws' →
  ∀ batchId productId change,
    (batchId, (productId, change)) ∈ entries → change ≠ 0 →
    ∃ p, snapshot !! productId = Some p
         ∧ anyNegative (adjustBatch batchId change <$> Product.batches p) = false.
Proof.
  revert ws. induction entries as [|[bid [pid ch]] rest IH];
    intros ws Hloop batchId productId change Hin Hne.
  - by apply elem_of_nil in Hin.
  - simpl in Hloop. apply elem_of_cons in Hin as [Heq|Hin].
    + injection Heq as -> -> ->. rewrite decide_False in Hloop by done.
      destruct (snapshot !! pid) as [p|]; [|done].
      destruct (anyNegative _) eqn:Hneg; [done|]. eauto.
    + case_decide; [by eapply IH|].
      destruct (snapshot !! pid) as [p|]; [|done].
      destruct (anyNegative _); [done|]. by eapply IH.
Qed.

Lemma updateBillLoop_inl (snapshot : gmap string Product.t)
    (entries : StockChanges) (ws : list Write) (e : Failure) :
  updateBillLoop snapshot entries ws = inl e → e ≠ WriteRejected.
Proof.
  revert ws. induction entries as [|[bid [pid ch]] rest IH]; intros ws Hloop;
    simpl in Hloop; [done|].
  case_decide; [by eapply IH|].
  destruct (snapshot !! pid) as [p|]; [|by simplify_eq].
  destruct (anyNegative _); [by simplify_eq|]. by eapply IH.
Qed.

(** C3.  If some net delta would leave a batch of its product below zero,
    the edit fails without attempting the commit and the store is left as
    it was; whatever the failure, the store is unchanged; and when the edit
    does return the updated bill, no delta would have gone negative, the
    bill document holds the update and no product holds a negative batch
    that was not there before. *)
Theorem edit_bill_rejects_negative (s : Store) (billId : string)
    (updated original : Bill.t) :
  let changes := stockChanges (Bill.items original) (Bill.items updated) in
  let r := handleUpdateBill s billId updated original in
  (wouldGoNegative (products s) changes →
     ∃ e, r = (s, inl e) ∧ e ≠ WriteRejected)
  ∧ (∀ e, r.2 = inl e → r.1 = s)
  ∧ (∀ b, r.2 = inr b →
       ¬ wouldGoNegative (products s) changes
       ∧ b = (billId, updated)
       ∧ bills r.1 !! billId = Some updated
       ∧ (stockOk s → stockOk r.1)).
Proof.
  intros changes r. subst r. unfold handleUpdateBill. fold changes.
  destruct (updateBillLoop (products s) changes []) as [e|ws] eqn:Hloop.
  - split_and!.
    + intros _. exists e. split; [done|]. by eapply updateBillLoop_inl.
    + done.
    + done.
  - assert (¬ wouldGoNegative (products s) changes) as Hnot.
    { intros (bid & pid & ch & p & Hin & Hne & Hp & Hneg).
      destruct (updateBillLoop_inr _ _ _ _ Hloop _ _ _ Hin Hne) as (p' & Hp' & Hok).
      congruence. }
    split_and!; [done| |].
    + by destruct (commit _ s).
    + destruct (commit _ s) as [s'|] eqn:Hc; simpl; [|done].
      intros b [= <-]. split_and!; try done.
      * rewrite commit_snoc in Hc.
        destruct (commit ws s) as [s1|]; simpl in Hc; [|done].
        destruct (bills s1 !! billId); simplify_eq. simpl.
        apply lookup_insert_eq.
      * intros Hs. eapply commit_stockOk; [exact Hs| |exact Hc].
        apply Forall_app. split; [|by repeat constructor].
        eapply updateBillLoop_ok; [|exact Hloop]. constructor.
Qed.

(** Five units were sold and five are left; raising the line to twenty
    units is refused and nothing is written. *)
Example edit_bill_refused :
  let shop := Sample.shop [Sample.batchX 5]
                {[ "b1" := Sample.billOf "B0001" [Sample.sale "bX" "X-001" 5] ]} ∅ in
  handleUpdateBill shop "b1"
    (Sample.billOf "B0001" [Sample.sale "bX" "X-001" 20])
    (Sample.billOf "B0001" [Sample.sale "bX" "X-001" 5])
  = (shop, inl NegativeStock).
Proof. vm_compute. reflexivity. Qed.

(** ** The change map of a bill edit *)

Section JsMapFacts.
Context {V : Type}.
Implicit Types (m : list (string * V)) (k : string) (v : V).

Lemma jsGet_jsSet m k v k' :
  jsGet (jsSet m k v) k' = if decide (k = k') then Some v else jsGet m k'.
Proof.
  induction m as [|[k0 x] r IH]; simpl.
  - by destruct (decide (k = k')).
  - destruct (decide (k0 = k)) as [->|Hne]; simpl.
    + by destruct (decide (k = k')).
    + rewrite IH. destruct (decide (k0 = k')) as [->|]; [|done].
      by rewrite decide_False.
Qed.

Lemma jsGet_list_to_map m k :
  jsGet m k = (list_to_map m : gmap string V) !! k.
Proof.
  induction m as [|[k0 x] r IH]; simpl; [done|].
  rewrite lookup_insert. by destruct (decide (k0 = k)).
Qed.

Lemma jsSet_list_to_map m k v :
  (list_to_map (jsSet m k v) : gmap string V) = <[k := v]> (list_to_map m).
Proof.
  induction m as [|[k0 x] r IH]; simpl; [done|].
  destruct (decide (k0 = k)) as [->|Hne]; simpl.
  - by rewrite insert_insert_eq.
  - rewrite IH. by apply insert_insert_ne.
Qed.

Lemma jsSet_keys m k v :
  (jsSet m k v).*1 =
    match jsGet m k with Some _ => m.*1 | None => m.*1 ++ [k] end.
Proof.
  induction m as [|[k0 x] r IH]; [done|]. simpl jsSet. simpl jsGet.
  destruct (decide (k0 = k)) as [->|Hne]; [done|].
  rewrite !fmap_cons, IH. simpl. by destruct (jsGet r k).
Qed.

Lemma jsGet_None m k : jsGet m k = None ↔ k ∉ m.*1.
Proof.
  induction m as [|[k0 x] r IH]; simpl.
  - split; [intros _; apply not_elem_of_nil|done].
  - rewrite not_elem_of_cons. destruct (decide (k0 = k)) as [->|Hne].
    + split; [done|]. by intros [? _].
    + rewrite IH. split; [intros ?; split; [congruence|done] | by intros [_ ?]].
Qed.
End JsMapFacts.

Lemma changeOf_addChange (sign : Z) (m : StockChanges) (item : CartItem.t)
    (batchId : string) :
  changeOf (addChange sign m item) batchId =
    if decide (CartItem.batchId item = batchId)
    then changeOf m batchId + CartItem.quantity item * sign
    else changeOf m batchId.
Proof.
  unfold changeOf, addChange. rewrite jsGet_jsSet.
  case_decide as Hd; [|done]. subst. simpl.
  by destruct (jsGet m (CartItem.batchId item)) as [[pid ch]|].
Qed.

Lemma changeOf_fold (sign : Z) (items : list CartItem.t) (m : StockChanges)
    (batchId : string) :
  changeOf (fold_left (addChange sign) items m) batchId =
    changeOf m batchId + sign * soldQty batchId items.
Proof.
  revert m. induction items as [|item items IH]; intros m; simpl; [lia|].
  rewrite IH, changeOf_addChange. case_decide; lia.
Qed.

(** The netting half of the edit agrees with the specification: one signed
    change per batch, the quantity of the original lines minus that of the
    updated ones. *)
Lemma stockChanges_net (original updated : list CartItem.t) (batchId : string) :
  changeOf (stockChanges original updated) batchId =
    soldQty batchId original - soldQty batchId updated.
Proof.
  unfold stockChanges. rewrite !changeOf_fold. unfold changeOf. simpl. lia.
Qed.

(** Entries whose net change is zero queue no write. *)
Lemma updateBillLoop_zero (snapshot : gmap string Product.t)
    (entries : StockChanges) (ws : list Write) :
  Forall (λ entry, entry.2.2 = 0) entries →
  updateBillLoop snapshot entries ws = inr ws.
Proof.
  induction entries as [|[bid [pid ch]] rest IH]; intros Hall; simpl; [done|].
  inversion Hall as [|? ? Hz Hrest]; subst. simpl in Hz.
  rewrite decide_True by done. by apply IH.
Qed.

(** A non-zero change whose product is missing stops the edit: nothing is
    written. *)
Lemma edit_bill_missing_product (s : Store) (billId : string)
    (updated original : Bill.t) (batchId productId : string) (change : Z) :
  (batchId, (productId, change))
    ∈ stockChanges (Bill.items original) (Bill.items updated) →
  change ≠ 0 → products s !! productId = None →
  ∃ e, handleUpdateBill s billId updated original = (s, inl e)
       ∧ e ≠ WriteRejected.
Proof.
  intros Hin Hne Hmiss. unfold handleUpdateBill.
  destruct (updateBillLoop _ _ _) as [e|ws] eqn:Hloop.
  - exists e. split; [done|]. by eapply updateBillLoop_inl.
  - destruct (updateBillLoop_inr _ _ _ _ Hloop _ _ _ Hin Hne) as (p & Hp & _).
    congruence.
Qed.

(** The reconciliation example of the specification: ten units, five sold
    by the bill, the bill edited down to three units: seven remain. *)
Example edit_five_to_three :
  stocksOf
    (handleUpdateBill
       (Sample.shop [Sample.batchX 5]
          {[ "b1" := Sample.billOf "B0001" [Sample.sale "bX" "X-001" 5] ]} ∅)
       "b1"
       (Sample.billOf "B0001" [Sample.sale "bX" "X-001" 3])
       (Sample.billOf "B0001" [Sample.sale "bX" "X-001" 5])).1
    "p1" = [7].
Proof. vm_compute. reflexivity. Qed.

(** C2 at its failing input.  Both batches have a net change of plus two
    and the edit commits, but the write queued for X is computed from the
    snapshot and then replaced by the one queued for Y, which is computed
    from the same snapshot: X keeps ten units where twelve are due. *)
Theorem edit_bill_loses_first_delta :
  stockChanges (Bill.items EditBug.original) (Bill.items EditBug.updated)
    = [("bX", ("p1", 2)); ("bY", ("p1", 2))]
  ∧ stocksOf EditBug.before "p1" = [10; 10]
  ∧ bills EditBug.after !! "b1" = Some EditBug.updated
  ∧ stocksOf EditBug.after "p1" = [10; 12].
Proof. vm_compute. repeat split; reflexivity. Qed.

(** ** Purchases: one line on an existing product *)

Lemma findByNumber_carrying (bs : list Batch.t) (n : string) :
  findByNumber bs n = head (carrying n bs).
Proof.
  unfold findByNumber, carrying. induction bs as [|b bs IH]; simpl; [done|].
  destruct (decide (Batch.batchNumber b = n)) as [Hd|Hd].
  - rewrite bool_decide_eq_true_2 by done. by rewrite filter_cons_True.
  - rewrite bool_decide_eq_false_2 by done. by rewrite filter_cons_False.
Qed.

Lemma carrying_fmap (f : Batch.t → Batch.t) (n : string) (bs : list Batch.t) :
  (∀ b, Batch.batchNumber (f b) = Batch.batchNumber b) →
  carrying n (f <$> bs) = f <$> carrying n bs.
Proof.
  intros Hf. unfold carrying. induction bs as [|b bs IH]; [done|].
  rewrite fmap_cons.
  destruct (decide (Batch.batchNumber b = n)) as [Hd|Hd].
  - rewrite !filter_cons_True by (by rewrite ?Hf). by rewrite fmap_cons, IH.
  - rewrite !filter_cons_False by (by rewrite ?Hf). done.
Qed.

Lemma receiveBatch_number (batchId : string) (item : Line.t) (b : Batch.t) :
  Batch.batchNumber (receiveBatch batchId item b) = Batch.batchNumber b.
Proof. unfold receiveBatch. by case_decide. Qed.

(** A store commits a purchase of a single line on a known product by
    writing that product: the batch update computed from the snapshot when
    the number is found, the [arrayUnion] of a new batch otherwise. *)
Lemma add_single_line (s : Store) (fresh : nat → string)
    (purchaseData : Purchase.t) (item : Line.t) (pid : string) (p : Product.t) :
  Purchase.items purchaseData = [item] →
  Line.isNewProduct item = false →
  truthy (Line.productId item) = Some pid →
  products s !! pid = Some p →
  ∃ s', handleAddPurchase s fresh purchaseData = Some s'
    ∧ products s' =
        <[pid := Product.withBatches p
                   match findByNumber (Product.batches p) (Line.batchNumber item) with
                   | Some existingBatch =>
                       receiveBatch (Batch.id existingBatch) item
                         <$> Product.batches p
                   | None =>
                       arrayUnion (Product.batches p)
                         (lineBatch (batchIdOf (fresh O)) item)
                   end]> (products s).
Proof.
  intros Hitems Hnew Hpid Hp.
  unfold handleAddPurchase, addPurchaseWrites. rewrite Hitems. simpl.
  unfold newCompanyNames, companyStep. simpl. rewrite Hnew. simpl.
  rewrite Hpid, Hp.
  destruct (findByNumber _ _) as [b|]; simpl; rewrite Hp; simpl; eauto.
Qed.

(** [handleAddPurchase] on a single line whose number names a batch of the
    product: the stock grows by the line's quantity, price and expiry are
    the line's, the id stays, and batches with another id are untouched. *)
Lemma add_single_line_existing_batch (s : Store) (fresh : nat → string)
    (purchaseData : Purchase.t) (item : Line.t) (pid : string) (p : Product.t)
    (existingBatch : Batch.t) :
  Purchase.items purchaseData = [item] →
  Line.isNewProduct item = false →
  truthy (Line.productId item) = Some pid →
  products s !! pid = Some p →
  findByNumber (Product.batches p) (Line.batchNumber item) = Some existingBatch →
  ∃ s' p', handleAddPurchase s fresh purchaseData = Some s'
    ∧ products s' !! pid = Some p'
    ∧ length (Product.batches p') = length (Product.batches p)
    ∧ ∀ i b, Product.batches p !! i = Some b →
        Product.batches p' !! i =
          Some (if decide (Batch.id b = Batch.id existingBatch)
                then Batch.mk (Batch.id b) (Batch.batchNumber b)
                       (Line.expiryDate item) (Batch.stock b + Line.quantity item)
                       (Line.mrp item) (Line.purchasePrice item)
                else b).
Proof.
  intros Hitems Hnew Hpid Hp Hfind.
  destruct (add_single_line s fresh purchaseData item pid p)
    as (s' & Hc & Hprod); try done.
  rewrite Hfind in Hprod. eexists _, _. split; [done|].
  rewrite Hprod, lookup_insert_eq. split; [done|]. simpl.
  split; [by rewrite length_fmap|].
  intros i b Hb. rewrite list_lookup_fmap, Hb. simpl. done.
Qed.

(** C7 at its failing input.  The invoice holds a line for X-001 and a line
    for Y-001 of the same product; the commit succeeds, but the write
    queued for the first line is replaced by the one queued for the second,
    both being computed from the snapshot: X-001 keeps ten units where
    fifteen are due. *)
Theorem add_purchase_loses_first_line :
  stocksOf AddBug.before "p1" = [10; 10]
  ∧ stocksOf (default AddBug.before AddBug.after) "p1" = [10; 17]
  ∧ is_Some AddBug.after.
Proof. vm_compute. repeat split. by eexists. Qed.





(** The same line twice inside one invoice: on an existing batch the
    quantity is added once, on a new batch number two batches appear. *)
Example one_invoice_existing_batch_twice :
  stocksOf
    (default AddBug.before
       (handleAddPurchase AddBug.before Sample.fresh
          (Sample.invoice [AddBug.lineX; AddBug.lineX])))
    "p1" = [15; 10].
Proof. vm_compute. reflexivity. Qed.

Example one_invoice_two_equal_lines :
  stocksOf
    (default (Sample.shop [Sample.batchX 10] ∅ ∅)
       (handleAddPurchase (Sample.shop [Sample.batchX 10] ∅ ∅) Sample.fresh
          (Sample.invoice [Sample.line (Some "p1") None "Z-9" 5;
                           Sample.line (Some "p1") None "Z-9" 5])))
    "p1" = [10; 5; 5].
Proof. vm_compute. reflexivity. Qed.

(** ** Purchases always commit *)

Lemma accepted_mono (k1 k2 : gset string) (w : Write) :
  k1 ⊆ k2 → accepted k1 w → accepted k2 w.
Proof. intros Hsub. destruct w; simpl; try done; by apply Hsub. Qed.

Lemma applyWrite_accepted (s : Store) (w : Write) :
  accepted (dom (products s)) w →
  ∃ s', applyWrite s w = Some s' ∧ dom (products s) ⊆ dom (products s').
Proof.
  destruct w as [pid p | pid bs | pid b | | | | | | |]; simpl; intros Hacc;
    try done; try (eexists; split; [done|]; simpl; done).
  - eexists; split; [done|]. simpl. rewrite dom_insert_L. apply union_subseteq_r.
  - apply elem_of_dom in Hacc as [p Hp]. rewrite Hp.
    eexists; split; [done|]. simpl. rewrite dom_insert_L. apply union_subseteq_r.
  - apply elem_of_dom in Hacc as [p Hp]. rewrite Hp.
    eexists; split; [done|]. simpl. rewrite dom_insert_L. apply union_subseteq_r.
Qed.

Lemma commit_accepted (ws : list Write) (s : Store) :
  Forall (accepted (dom (products s))) ws → is_Some (commit ws s).
Proof.
  revert s. induction ws as [|w ws IH]; intros s Hall; simpl; [by eexists|].
  inversion Hall as [|? ? Hw Hws]; subst.
  destruct (applyWrite_accepted s w Hw) as (s1 & -> & Hsub).
  apply IH. eapply Forall_impl; [exact Hws|].
  intros w'. by apply accepted_mono.
Qed.

Lemma addPurchaseStep_accepted (s : Store) (fresh : nat → string)
    (st : AddState) (item : Line.t) :
  Forall (accepted (dom (products s))) st.1.2 →
  Forall (accepted (dom (products s)))
    (addPurchaseStep (products s) fresh st item).1.2.
Proof.
  destruct st as [[n ws] out]. simpl. intros Hws. unfold addPurchaseStep.
  destruct (Line.isNewProduct item); simpl.
  { apply Forall_app. split; [done|]. by repeat constructor. }
  destruct (truthy _) as [pid|]; simpl; [|done].
  destruct (products s !! pid) as [p|] eqn:Hp; simpl; [|done].
  apply elem_of_dom_2 in Hp.
  destruct (findByNumber _ _) as [b|]; simpl;
    (apply Forall_app; split; [done|]; by repeat constructor).
Qed.

Lemma addPurchase_commits (s : Store) (fresh : nat → string)
    (purchaseData : Purchase.t) :
  is_Some (handleAddPurchase s fresh purchaseData).
Proof.
  unfold handleAddPurchase. apply commit_accepted. unfold addPurchaseWrites.
  set (names := newCompanyNames _ _).
  assert (∀ items st, Forall (accepted (dom (products s))) st.1.2 →
            Forall (accepted (dom (products s)))
              (fold_left (addPurchaseStep (products s) fresh) items st).1.2)
    as Hfold.
  { induction items as [|item items IH]; intros st Hst; simpl; [done|].
    apply IH. by apply addPurchaseStep_accepted. }
  specialize (Hfold (Purchase.items purchaseData)
                (length names, companyWrites fresh names, [])).
  destruct (fold_left _ _ _) as [[n ws] out]. simpl in *.
  apply Forall_app. split; [|by repeat constructor].
  apply Hfold. unfold companyWrites. apply Forall_forall. intros w Hw.
  by apply elem_of_lookup_imap in Hw as (i & name & -> & _).
Qed.

(** ** A purchase line whose product is unknown *)



Section UnknownProduct.
Variables (s : Store) (fresh : nat → string) (bad : Line.t) (pid : string).
Hypothesis Hold : Line.isNewProduct bad = false.
Hypothesis Hpid : truthy (Line.productId bad) = Some pid.
Hypothesis Hmiss : products s !! pid = None.




End UnknownProduct.



(** ** Bill numbering *)

Lemma string_app_cons (c : ascii) (s1 s2 : string) :
  String.append (String c s1) s2 = String c (String.append s1 s2).
Proof. reflexivity. Qed.

Lemma string_app_assoc (s1 s2 s3 : string) :
  String.append (String.append s1 s2) s3 = String.append s1 (String.append s2 s3).
Proof.
  induction s1 as [|c s1 IH]; [done|]. rewrite !string_app_cons. by rewrite IH.
Qed.

Lemma digitChar_spec (d : N) :
  (d < 10)%N → isDigit (digitChar d) = true ∧ digitVal (digitChar d) = d.
Proof.
  intros Hd.
  assert (d = 0 ∨ d = 1 ∨ d = 2 ∨ d = 3 ∨ d = 4 ∨ d = 5 ∨ d = 6 ∨ d = 7
          ∨ d = 8 ∨ d = 9)%N as Hcases by lia.
  repeat (destruct Hcases as [->|Hcases]; [by vm_compute|]).
  subst. by vm_compute.
Qed.

Lemma allDigits_app (s1 s2 : string) :
  allDigits s1 → allDigits s2 → allDigits (String.append s1 s2).
Proof.
  induction s1 as [|c s1 IH]; [done|]. rewrite string_app_cons. simpl.
  intros [? ?] ?. auto.
Qed.

Lemma allDigits_zeros (k : nat) : allDigits (zeros k).
Proof. induction k as [|k IH]; simpl; [done|]. by split. Qed.

Lemma stripNonDigits_digits (s : string) :
  allDigits s → stripNonDigits s = s.
Proof.
  induction s as [|c s IH]; simpl; [done|]. intros [-> Hs]. by rewrite IH.
Qed.

Lemma parseDigits_app (s1 s2 : string) (acc : N) :
  allDigits s1 →
  parseDigits (String.append s1 s2) acc = parseDigits s2 (parseDigits s1 acc).
Proof.
  revert acc. induction s1 as [|c s1 IH]; intros acc; [done|].
  rewrite string_app_cons. simpl. intros [-> Hs]. by apply IH.
Qed.

Lemma parseDigits_zeros (k : nat) : parseDigits (zeros k) 0%N = 0%N.
Proof. induction k as [|k IH]; simpl; [done|]. exact IH. Qed.

Lemma toStringAux_app (fuel : nat) (n : N) (acc : string) :
  toStringAux fuel n acc = String.append (toStringAux fuel n EmptyString) acc.
Proof.
  revert n acc. induction fuel as [|fuel IH]; intros n acc; simpl; [done|].
  destruct (n / 10 =? 0)%N; [done|].
  rewrite IH, (IH _ (String _ EmptyString)). by rewrite string_app_assoc.
Qed.

Lemma toStringAux_spec (fuel : nat) (n : N) :
  (0 < fuel)%nat → (n < 2 ^ N.of_nat fuel)%N →
  allDigits (toStringAux fuel n EmptyString)
  ∧ toStringAux fuel n EmptyString ≠ EmptyString
  ∧ parseDigits (toStringAux fuel n EmptyString) 0%N = n.
Proof.
  revert n. induction fuel as [|fuel IH]; intros n Hpos Hn; [lia|].
  simpl toStringAux.
  assert (n mod 10 < 10)%N as Hmod by (apply N.mod_lt; lia).
  destruct (digitChar_spec _ Hmod) as [Hdig Hval].
  destruct (n / 10 =? 0)%N eqn:Hdiv.
  - apply N.eqb_eq in Hdiv. simpl. rewrite Hdig, Hval. split_and!; try done.
    pose proof (N.div_mod n 10). lia.
  - apply N.eqb_neq in Hdiv.
    assert (2 ^ N.of_nat (S fuel) = 2 * 2 ^ N.of_nat fuel)%N as Hpow.
    { rewrite Nat2N.inj_succ. apply N.pow_succ_r'. }
    assert (n / 10 < 2 ^ N.of_nat fuel)%N as Hlt.
    { apply N.Div0.div_lt_upper_bound. lia. }
    assert (0 < fuel)%nat as Hfuel.
    { destruct fuel; [|lia]. change (2 ^ N.of_nat 0)%N with 1%N in Hlt.
      clear -Hdiv Hlt. pose proof (N.le_0_l (n / 10)). lia. }
    destruct (IH (n / 10)%N Hfuel Hlt) as (Hall & Hne & Hparse).
    rewrite toStringAux_app. split_and!.
    + apply allDigits_app; [done|]. by split.
    + destruct (toStringAux fuel (n / 10) EmptyString); [done|]. done.
    + rewrite parseDigits_app by done. rewrite Hparse. simpl.
      rewrite Hdig, Hval. pose proof (N.div_mod n 10). lia.
Qed.

Lemma toString_spec (n : N) :
  allDigits (toString n) ∧ toString n ≠ EmptyString
  ∧ parseDigits (toString n) 0%N = n.
Proof.
  unfold toString. apply toStringAux_spec; [lia|].
  rewrite Nat2N.inj_succ, N2Nat.id.
  destruct (N.eq_dec n 0%N) as [->|Hn]; [by vm_compute|].
  apply N.log2_spec. lia.
Qed.

Lemma digitsValue_digits (s : string) :
  allDigits s → s ≠ EmptyString → digitsValue s = Some (parseDigits s 0%N).
Proof. destruct s as [|c s]; [done|]. simpl. by intros [-> _] _. Qed.

(** Reading back a bill number the allocator formats gives the number. *)
Lemma suffix_of_formatted (n : N) :
  digitsValue (stripNonDigits (String "B"%char (padStart 4 (toString n))))
  = Some n.
Proof.
  destruct (toString_spec n) as (Hall & Hne & Hparse).
  assert (allDigits (padStart 4 (toString n))) as Hpad.
  { unfold padStart. apply allDigits_app; [apply allDigits_zeros|done]. }
  change (stripNonDigits (String "B"%char ?s)) with (stripNonDigits s).
  rewrite stripNonDigits_digits by done.
  rewrite digitsValue_digits; [| done |].
  - unfold padStart. rewrite parseDigits_app by apply allDigits_zeros.
    by rewrite parseDigits_zeros, Hparse.
  - unfold padStart. destruct (zeros _); simpl; [done|done].
Qed.

(** *** Integers below 2^53 are held, compared and printed exactly *)

Lemma toNumber_exact (n : N) : (n < 2 ^ 53)%N → toNumber n = Finite n.
Proof.
  intros Hn. unfold toNumber.
  assert (N.size n ≤ 53)%N as Hsize.
  { destruct (decide (n = 0%N)) as [->|Hne]; [simpl; lia|].
    rewrite N.size_log2 by done.
    apply N.le_succ_l, N.log2_lt_pow2; lia. }
  apply N.leb_le in Hsize. by rewrite Hsize.
Qed.

Lemma toNumber_large (n w : N) :
  (2 ^ 53 ≤ n)%N → toNumber n = Finite w → (2 ^ 53 ≤ w)%N.
Proof.
  intros Hn. unfold toNumber.
  assert (0 < n)%N as Hpos.
  { pose proof (N.pow_nonzero 2 53). lia. }
  assert (53 ≤ N.log2 n)%N as Hlog by (by apply N.log2_le_pow2).
  rewrite N.size_log2 by lia.
  destruct (N.leb_spec (N.succ (N.log2 n)) 53) as [Hle|Hgt]; [lia|].
  set (shift := (N.succ (N.log2 n) - 53)%N).
  set (q := N.shiftr n shift).
  destruct (N.ltb _ (N.size _)); [done|]. intros [= <-].
  assert (2 ^ 52 ≤ q)%N as Hq.
  { subst q. rewrite N.shiftr_div_pow2.
    apply N.div_le_lower_bound; [apply N.pow_nonzero; lia|].
    rewrite <- N.pow_add_r.
    replace (shift + 52)%N with (N.log2 n) by (subst shift; lia).
    apply N.log2_spec. lia. }
  rewrite N.shiftl_mul_pow2.
  assert (2 ^ 1 ≤ 2 ^ shift)%N as Hs.
  { apply N.pow_le_mono_r; [lia|]. subst shift. lia. }
  change (2 ^ 53)%N with (2 ^ 52 * 2 ^ 1)%N.
  apply N.mul_le_mono; [|done].
  destruct (_ || _); lia.
Qed.

Lemma readsBack_exact (v m : N) :
  (v < 2 ^ 53)%N → readsBack v m = true → m = v.
Proof.
  intros Hv. unfold readsBack.
  destruct (N.lt_ge_cases m (2 ^ 53)) as [Hm|Hm].
  - rewrite toNumber_exact by done. by intros ?%N.eqb_eq.
  - destruct (toNumber m) as [w|] eqn:Hw; [|done].
    apply toNumber_large in Hw; [|done]. intros ?%N.eqb_eq. lia.
Qed.

Lemma shortestAt_exact (v e m : N) :
  (v < 2 ^ 53)%N → shortestAt v e = Some m → m = v.
Proof.
  intros Hv. unfold shortestAt.
  destruct (readsBack v (v / 10 ^ e * 10 ^ e)) eqn:Hlo;
    destruct (readsBack v (v / 10 ^ e * 10 ^ e + 10 ^ e)) eqn:Hhi;
    try apply (readsBack_exact _ _ Hv) in Hlo;
    try apply (readsBack_exact _ _ Hv) in Hhi;
    repeat case_match; intros; simplify_eq; done.
Qed.

Lemma shortest_exact (v : N) : (v < 2 ^ 53)%N → shortest v = v.
Proof.
  intros Hv. unfold shortest. generalize 309%nat as e.
  induction e as [|e IH]; simpl;
    destruct (shortestAt v _) as [m|] eqn:Hm; try done;
    by apply shortestAt_exact in Hm.
Qed.

Lemma numberToString_exact (v : N) :
  (v ≤ 2 ^ 53)%N → numberToString (Finite v) = toString v.
Proof.
  intros Hv. destruct (decide (v = 2 ^ 53)%N) as [->|Hne].
  { vm_compute. reflexivity. }
  unfold numberToString. rewrite shortest_exact by lia.
  destruct (N.ltb_spec v (10 ^ 21)) as [|Hge]; [done|].
  assert (2 ^ 53 < 10 ^ 21)%N by done. lia.
Qed.

Lemma toNumber_safe (n : N) : (n ≤ 2 ^ 53)%N → toNumber n = Finite n.
Proof.
  intros Hn. destruct (decide (n = 2 ^ 53)%N) as [->|Hne].
  - vm_compute. reflexivity.
  - apply toNumber_exact. lia.
Qed.

Lemma maxStep_exact (mx : N) (bill : Bill.t) :
  (∀ k, suffixOf bill = Some k → (k < 2 ^ 53)%N) →
  maxStep (Finite mx) bill = Finite (N.max (default 0%N (suffixOf bill)) mx).
Proof.
  intros Hk. unfold maxStep, parseInt. fold (suffixOf bill).
  case_decide as He.
  - unfold suffixOf. rewrite He. simpl. f_equal. lia.
  - destruct (suffixOf bill) as [num|]; simpl; [|f_equal; lia].
    rewrite toNumber_exact by by apply Hk. simpl.
    destruct (mx <? num)%N eqn:Hlt;
      [apply N.ltb_lt in Hlt | apply N.ltb_ge in Hlt]; f_equal; lia.
Qed.

Lemma maxSuffix_bound (existing : list Bill.t) (bill : Bill.t) (k : N) :
  bill ∈ existing → suffixOf bill = Some k → (k ≤ maxSuffix existing)%N.
Proof.
  induction existing as [|b existing IH]; intros Hin Hk; simpl.
  - by apply elem_of_nil in Hin.
  - apply elem_of_cons in Hin as [<-|Hin].
    + rewrite Hk. simpl. lia.
    + specialize (IH Hin Hk). lia.
Qed.

Lemma maxSuffix_within (bound : N) (existing : list Bill.t) :
  suffixesWithin bound existing → (maxSuffix existing ≤ bound)%N.
Proof.
  induction existing as [|b existing IH]; intros Hall; simpl; [lia|].
  assert (maxSuffix existing ≤ bound)%N as Hrest.
  { apply IH. intros b' k Hin. apply Hall. by right. }
  destruct (suffixOf b) as [k|] eqn:Hk; simpl; [|lia].
  pose proof (Hall b k (list_elem_of_here _ _) Hk). lia.
Qed.

Lemma maxBillNum_from (existing : list Bill.t) (mx : N) :
  suffixesWithin maxSafeInteger existing →
  fold_left maxStep existing (Finite mx)
  = Finite (N.max mx (maxSuffix existing)).
Proof.
  revert mx. induction existing as [|bill existing IH]; intros mx Hall; simpl.
  - f_equal. lia.
  - rewrite maxStep_exact.
    + rewrite IH; [f_equal; lia|]. intros b k Hin. apply Hall. by right.
    + intros k Hk. pose proof (Hall bill k (list_elem_of_here _ _) Hk) as Hle.
      unfold maxSafeInteger in Hle. lia.
Qed.

(** While every suffix is at most [Number.MAX_SAFE_INTEGER], the number
    the code computes in doubles is the exact one. *)
Lemma newBillNumber_exact (existing : list Bill.t) :
  suffixesWithin maxSafeInteger existing →
  newBillNumber existing
  = String "B"%char (padStart 4 (toString (maxSuffix existing + 1)%N)).
Proof.
  intros Hall. unfold newBillNumber, maxBillNum.
  pose proof (maxSuffix_within _ _ Hall) as Hmax.
  unfold maxSafeInteger in Hmax.
  rewrite maxBillNum_from by done.
  rewrite N.max_r by lia. simpl plusOne.
  rewrite toNumber_safe by lia. by rewrite numberToString_exact by lia.
Qed.

(** C8, as amended.  While the numeric suffix of every bill of the store is
    at most [Number.MAX_SAFE_INTEGER], the bill a generate returns is numbered
    ['B'] followed by the maximum numeric suffix over the bills of the store
    plus one, padded with zeros to four digits; read back, that number is
    the maximum plus one, so it exceeds the suffix of every existing bill,
    whatever gaps deleted bills left. *)
Theorem bill_number_next (s : Store) (newBillRef : string)
    (billData : BillData.t) :
  suffixesWithin maxSafeInteger (allBills s) →
  ∃ s' bill,
    handleGenerateBill s newBillRef billData = (s', Some (newBillRef, bill))
    ∧ Bill.billNumber bill
      = String "B"%char (padStart 4 (toString (maxSuffix (allBills s) + 1)%N))
    ∧ suffixOf bill = Some (maxSuffix (allBills s) + 1)%N
    ∧ ∀ b k, b ∈ allBills s → suffixOf b = Some k →
             (k < maxSuffix (allBills s) + 1)%N.
Proof.
  intros Hsafe.
  destruct (generate_commits s newBillRef billData) as (s' & Hgen & _).
  eexists _, _. split; [exact Hgen|]. simpl.
  rewrite newBillNumber_exact by done. split_and!; [done| |].
  - unfold suffixOf. simpl. apply suffix_of_formatted.
  - intros b k Hin Hk. pose proof (maxSuffix_bound _ _ _ Hin Hk). lia.
Qed.

(** Bills 1 and 7 exist, 2 to 6 were deleted: the next one is 8. *)
Lemma bill_number_next_witness :
  ∃ s' bill,
    handleGenerateBill
      (Sample.shop [Sample.batchX 10]
         {[ "a" := Sample.billOf "B0007" []; "b" := Sample.billOf "B0001" [] ]} ∅)
      "c" (Sample.cartOf [Sample.sale "bX" "X-001" 2])
    = (s', Some ("c", bill))
    ∧ Bill.billNumber bill = "B0008".
Proof.
  destruct (bill_number_next
              (Sample.shop [Sample.batchX 10]
                 {[ "a" := Sample.billOf "B0007" [];
                    "b" := Sample.billOf "B0001" [] ]} ∅)
              "c" (Sample.cartOf [Sample.sale "bX" "X-001" 2]))
    as (s' & bill & Hgen & Hnumber & _).
  - intros b k Hin Hk. vm_compute in Hin.
    apply elem_of_cons in Hin as [->|Hin];
      [|apply elem_of_cons in Hin as [->|Hin]; [|by apply elem_of_nil in Hin]];
      vm_compute in Hk; injection Hk as <-; vm_compute; discriminate.
  - exists s', bill. split; [exact Hgen|]. rewrite Hnumber. reflexivity.
Defined.

(** C8, as stated, fails: JavaScript numbers are doubles.  With the bill
    [B9007199254740993] in the store, the suffix parses to 2^53, adding one
    gives 2^53 again, and the new bill is numbered [B9007199254740992]:
    not the maximum plus one, and below the bill it follows. *)
Lemma bill_number_next_counterexample :
  ¬ (∀ (s : Store) (newBillRef : string) (billData : BillData.t),
       ∃ s' bill,
         handleGenerateBill s newBillRef billData
         = (s', Some (newBillRef, bill))
         ∧ suffixOf bill = Some (maxSuffix (allBills s) + 1)%N).
Proof.
  intros H.
  destruct (H (Sample.shop [Sample.batchX 10]
                 {[ "a" := Sample.billOf "B9007199254740993" [] ]} ∅)
              "b" (Sample.cartOf [Sample.sale "bX" "X-001" 2]))
    as (s' & bill & Hgen & Hsuffix).
  destruct (generate_commits
              (Sample.shop [Sample.batchX 10]
                 {[ "a" := Sample.billOf "B9007199254740993" [] ]} ∅)
              "b" (Sample.cartOf [Sample.sale "bX" "X-001" 2]))
    as (s1 & Hgen1 & _).
  rewrite Hgen1 in Hgen. injection Hgen as _ <-.
  vm_compute in Hsuffix. discriminate Hsuffix.
Qed.

Example first_bill_number : newBillNumber [] = "B0001".
Proof. vm_compute. reflexivity. Qed.

Example bill_number_after_gap :
  newBillNumber [Sample.billOf "B0007" []; Sample.billOf "B0001" []] = "B0008".
Proof. vm_compute. reflexivity. Qed.

Example bill_number_five_digits :
  newBillNumber [Sample.billOf "B9999" []; Sample.billOf "INV-12345" []] = "B12346".
Proof. vm_compute. reflexivity. Qed.

Example bill_number_rounded :
  newBillNumber [Sample.billOf "B9007199254740993" []] = "B9007199254740992".
Proof. vm_compute. reflexivity. Qed.

(** ** Cart and bill arithmetic *)

Lemma newCartItem_ok (productId : string) (product : Product.t) (batch : Batch.t) :
  lineOk (newCartItem productId product batch).
Proof. unfold lineOk. simpl. symmetry. apply Qcmult_1_r. Qed.

Lemma updateCartItem_ok (snapshot : gmap string Product.t)
    (cart : list CartItem.t) (batchId : string) (quantity : Z) :
  Forall lineOk cart → Forall lineOk (updateCartItem snapshot cart batchId quantity).
Proof.
  intros Hcart. unfold updateCartItem. apply Forall_fmap.
  eapply Forall_impl; [exact Hcart|]. intros item Hitem. simpl.
  case_decide; [|done].
  destruct (_ ≫= _) as [batch|]; [|done].
  by destruct (_ && _).
Qed.

Lemma cartStep_ok (cart : list CartItem.t) (ev : CartEvent) :
  Forall lineOk cart → Forall lineOk (cartStep cart ev).
Proof.
  intros Hcart. destruct ev as [snap expired pid product batch | snap bid q | bid];
    simpl.
  - unfold handleAddToCart. destruct expired; [done|].
    destruct (find _ cart) as [existing|].
    + destruct (_ <? _); [by apply updateCartItem_ok | done].
    + apply Forall_app. split; [done|].
      constructor; [apply newCartItem_ok | constructor].
  - by apply updateCartItem_ok.
  - unfold removeFromCart. apply Forall_forall.
    intros item [_ Hin]%list_elem_of_filter. by eapply Forall_forall in Hcart.
Qed.

Lemma runCart_ok (events : list CartEvent) (cart : list CartItem.t) :
  Forall lineOk cart → Forall lineOk (runCart events cart).
Proof.
  unfold runCart. revert cart.
  induction events as [|ev events IH]; intros cart Hcart; simpl; [done|].
  by apply IH, cartStep_ok.
Qed.

Lemma totals_from (cart : list CartItem.t) (acc : Qc * Qc) :
  fold_left totalsStep cart acc
  = ((acc.1 + sumQc (basePrice <$> cart))%Qc,
     (acc.2 + sumQc ((λ item, CartItem.total item - basePrice item)%Qc <$> cart))%Qc).
Proof.
  revert acc. induction cart as [|item cart IH]; intros [a b]; simpl.
  - by rewrite !Qcplus_0_r.
  - rewrite IH. simpl. by rewrite !Qcplus_assoc.
Qed.

Lemma cartTotals_spec (cart : list CartItem.t) :
  cartTotals cart
  = (sumQc (basePrice <$> cart),
     sumQc ((λ item, CartItem.total item - basePrice item)%Qc <$> cart),
     (sumQc (basePrice <$> cart)
      + sumQc ((λ item, CartItem.total item - basePrice item)%Qc <$> cart))%Qc).
Proof.
  unfold cartTotals. rewrite totals_from. simpl. by rewrite !Qcplus_0_l.
Qed.

(** C9.  Whatever the user did to the cart, starting from the empty cart or
    from the lines of a bill under edit whose totals are price times
    quantity, the bill the save hands over has for each line a total of
    [mrp * quantity], for [subTotal] the sum over the lines of
    [total / (1 + gst / 100)], for [totalGst] the sum over the lines of
    [total - total / (1 + gst / 100)], and for [grandTotal] the sum of the
    two.  Arithmetic is exact, and no line has the GST rate -100, at which
    the quotient is undefined. *)
Theorem saved_bill_arithmetic (events : list CartEvent)
    (init : list CartItem.t) (editingBill : option (string * Bill.t))
    (customerName now : string) (r : SaveRequest) :
  Forall lineOk init →
  Forall gstDefined (runCart events init) →
  handleSaveBill editingBill (runCart events init) customerName now = Some r →
  Forall (λ item,
            CartItem.total item
            = (CartItem.mrp item * Q2Qc (inject_Z (CartItem.quantity item)))%Qc)
         (savedItems r)
  ∧ ∃ subTotal totalGst grandTotal,
      savedTotals r = (subTotal, totalGst, grandTotal)
      ∧ subTotal
        = sumQc ((λ item,
                    CartItem.total item
                    / (1 + CartItem.gst item / Q2Qc (inject_Z 100)))%Qc
                   <$> savedItems r)
      ∧ totalGst
        = sumQc ((λ item,
                    CartItem.total item
                    - CartItem.total item
                      / (1 + CartItem.gst item / Q2Qc (inject_Z 100)))%Qc
                   <$> savedItems r)
      ∧ grandTotal = (subTotal + totalGst)%Qc.
Proof.
  intros Hinit _ Hsave. pose proof (runCart_ok events init Hinit) as Hcart.
  unfold handleSaveBill in Hsave.
  destruct (runCart events init) as [|item cart] eqn:Hrun; [done|].
  rewrite cartTotals_spec in Hsave.
  destruct editingBill as [[billId editing]|]; simplify_eq; simpl;
    (split; [done|]); eexists _, _, _; by split_and!.
Qed.

(** Two units of one batch and one of another, from the empty cart. *)
Lemma saved_bill_arithmetic_witness :
  match handleSaveBill None (runCart CartRun.events []) "" "2026-01-01" with
  | Some r =>
      savedItems r
      = [Sample.sale "bX" "X-001" 2;
         CartItem.mk "p1" "Paracetamol" None "bY" "Y-001" "2027-06" "3004" 1
           (Sample.rupees 20) (Sample.rupees 12) (Sample.rupees 20)]
      ∧ ∃ subTotal totalGst grandTotal,
          savedTotals r = (subTotal, totalGst, grandTotal)
          ∧ subTotal
            = sumQc ((λ item,
                        CartItem.total item
                        / (1 + CartItem.gst item / Q2Qc (inject_Z 100)))%Qc
                       <$> savedItems r)
          ∧ totalGst
            = sumQc ((λ item,
                        CartItem.total item
                        - CartItem.total item
                          / (1 + CartItem.gst item / Q2Qc (inject_Z 100)))%Qc
                       <$> savedItems r)
          ∧ grandTotal = (subTotal + totalGst)%Qc
  | None => False
  end.
Proof.
  destruct (handleSaveBill None (runCart CartRun.events []) "" "2026-01-01")
    as [r|] eqn:Hsave.
  - assert (Forall gstDefined (runCart CartRun.events [])) as Hgst.
    { vm_compute. repeat constructor; discriminate. }
    destruct (saved_bill_arithmetic CartRun.events [] None "" "2026-01-01" r
                (List.Forall_nil _) Hgst Hsave) as [_ Htotals].
    split; [|exact Htotals].
    vm_compute in Hsave. injection Hsave as <-. reflexivity.
  - vm_compute in Hsave. discriminate Hsave.
Defined.

Example cart_run_quantities :
  CartItem.quantity <$> runCart CartRun.events [] = [2; 1].
Proof. vm_compute. reflexivity. Qed.

(** ** Purchase edits: the handler against the staged description *)

Lemma revert_batches (batchId : string) (quantity : Z) (bs : list Batch.t) :
  match findIndexById bs batchId with
  | Some (i, b) => <[i := Batch.withStock b (Batch.stock b - quantity)]> bs
  | None => bs
  end = Staged.subtractAt batchId quantity bs.
Proof.
  unfold findIndexById. induction bs as [|b r IH]; [done|]. simpl.
  case_decide; [done|].
  destruct (list_find _ r) as [[i x]|]; simpl in *; by rewrite <- IH.
Qed.

Lemma apply_batches (line : Line.t) (bs : list Batch.t) :
  match findIndexByNumber bs (Line.batchNumber line) with
  | Some (i, b) =>
      Some (<[i := Batch.mk (Batch.id b) (Batch.batchNumber b)
                     (Line.expiryDate line) (Batch.stock b + Line.quantity line)
                     (Line.mrp line) (Line.purchasePrice line)]> bs,
            Batch.id b)
  | None => None
  end = Staged.receiveAt line bs.
Proof.
  unfold findIndexByNumber. induction bs as [|b r IH]; [done|]. simpl.
  case_decide; [done|]. rewrite <- IH.
  by destruct (list_find _ r) as [[i x]|].
Qed.

Lemma workingOk_nil (snapshot : gmap string Product.t) : workingOk snapshot [].
Proof. split; [constructor|]. intros k p. by simpl. Qed.

Lemma workingOk_jsSet (snapshot : gmap string Product.t) (m : Working)
    (k : string) (p0 : Product.t) (bs : list Batch.t) :
  workingOk snapshot m → snapshot !! k = Some p0 →
  workingOk snapshot (jsSet m k (Product.withBatches p0 bs)).
Proof.
  intros [Hnd Hcopies] Hk. split.
  - rewrite jsSet_keys. destruct (jsGet m k) eqn:Hget; [done|].
    apply NoDup_app. split_and!; [done| |apply NoDup_singleton].
    intros x Hx ->%list_elem_of_singleton. by apply jsGet_None in Hget.
  - intros k' p'. rewrite jsGet_jsSet. case_decide as Hd.
    + intros [= <-]. subst. by exists p0.
    + apply Hcopies.
Qed.

Lemma getMutableProduct_spec (snapshot : gmap string Product.t) (m : Working)
    (productId : string) :
  ∃ m', getMutableProduct snapshot m productId
        = (m', Staged.current snapshot (list_to_map m) productId)
    ∧ (list_to_map m' : gmap string Product.t)
      = match Staged.current snapshot (list_to_map m) productId with
        | Some p => <[productId := p]> (list_to_map m)
        | None => list_to_map m
        end
    ∧ (workingOk snapshot m → workingOk snapshot m')
    ∧ (workingOk snapshot m →
       ∀ p, Staged.current snapshot (list_to_map m) productId = Some p →
            ∃ p0, snapshot !! productId = Some p0
                  ∧ p = Product.withBatches p0 (Product.batches p)).
Proof.
  unfold getMutableProduct, Staged.current. rewrite <- jsGet_list_to_map.
  destruct (jsGet m productId) as [p|] eqn:Hget.
  - exists m. split_and!; try done.
    + symmetry. apply insert_id. by rewrite <- jsGet_list_to_map.
    + intros [_ Hcopies] p' [= <-]. by apply Hcopies.
  - destruct (snapshot !! productId) as [p|] eqn:Hsnap.
    + exists (jsSet m productId p). split_and!; try done.
      * apply jsSet_list_to_map.
      * intros Hok. rewrite <- (withBatches_same p).
        by apply workingOk_jsSet.
      * intros _ p' [= <-]. exists p. by rewrite withBatches_same.
    + by exists m.
Qed.

Lemma revertStep_spec (snapshot : gmap string Product.t) (m : Working)
    (item : Line.t) :
  (list_to_map (revertStep snapshot m item) : gmap string Product.t)
  = Staged.revertLine snapshot (list_to_map m) item
  ∧ (workingOk snapshot m → workingOk snapshot (revertStep snapshot m item)).
Proof.
  unfold revertStep, Staged.revertLine.
  destruct (truthy (Line.productId item)) as [pid|]; [|done].
  destruct (truthy (Line.batchId item)) as [bid|]; [|done].
  destruct (getMutableProduct_spec snapshot m pid) as (m' & -> & Hmap & Hok & Hmeta).
  destruct (Staged.current snapshot (list_to_map m) pid) as [p|] eqn:Hcur; [|done].
  rewrite <- revert_batches.
  destruct (findIndexById (Product.batches p) bid) as [[i b]|].
  - split.
    + rewrite jsSet_list_to_map, Hmap. apply insert_insert_eq.
    + intros Hm. destruct (Hmeta Hm p eq_refl) as (p0 & Hp0 & ->). simpl.
      rewrite withBatches_twice. apply workingOk_jsSet; auto.
  - split; [|done]. by rewrite Hmap, withBatches_same.
Qed.

Lemma revertFold_spec (snapshot : gmap string Product.t) (items : list Line.t)
    (m : Working) :
  workingOk snapshot m →
  (list_to_map (fold_left (revertStep snapshot) items m) : gmap string Product.t)
  = fold_left (Staged.revertLine snapshot) items (list_to_map m)
  ∧ workingOk snapshot (fold_left (revertStep snapshot) items m).
Proof.
  revert m. induction items as [|item items IH]; intros m Hm; simpl; [done|].
  destruct (revertStep_spec snapshot m item) as [Hmap Hok].
  rewrite <- Hmap. by apply IH, Hok.
Qed.

Lemma createdBy_snoc (ws : list Write) (k : string) (p : Product.t) :
  createdBy (ws ++ [SetProduct k p]) = <[k := p]> (createdBy ws).
Proof. unfold createdBy. by rewrite fold_left_app. Qed.

Lemma applyStep_spec (snapshot : gmap string Product.t) (fresh : nat → string)
    (st : ApplyState) (item : Line.t) :
  applyOk snapshot fresh st →
  staged (applyStep snapshot fresh st item)
  = Staged.resolveLine snapshot fresh (staged st) item
  ∧ applyOk snapshot fresh (applyStep snapshot fresh st item).
Proof.
  destruct st as [[[n ws] m] out]. intros [Hws Hm]. simpl in Hws, Hm.
  unfold applyStep, Staged.resolveLine, staged.
  destruct (Line.isNewProduct item).
  { rewrite createdBy_snoc. split; [done|]. split; [|done]. simpl.
    apply Forall_app. split; [done|]. constructor; [|constructor]. eauto. }
  destruct (truthy (Line.productId item)) as [pid|]; [|done].
  destruct (getMutableProduct_spec snapshot m pid) as (m' & -> & Hmap & Hok & Hmeta).
  destruct (Staged.current snapshot (list_to_map m) pid) as [p|] eqn:Hcur.
  - destruct (Hmeta Hm p eq_refl) as (p0 & Hp0 & Hp).
    rewrite <- apply_batches.
    destruct (findIndexByNumber _ _) as [[i b]|].
    + split.
      * rewrite jsSet_list_to_map, Hmap. by rewrite insert_insert_eq.
      * split; [done|]. simpl. rewrite Hp, withBatches_twice.
        apply workingOk_jsSet; auto.
    + split.
      * rewrite jsSet_list_to_map, Hmap. by rewrite insert_insert_eq.
      * split; [done|]. simpl. rewrite Hp at 1. rewrite withBatches_twice.
        apply workingOk_jsSet; auto.
  - rewrite Hmap. split; [done|]. split; [done|]. simpl. auto.
Qed.

Lemma applyFold_spec (snapshot : gmap string Product.t) (fresh : nat → string)
    (items : list Line.t) (st : ApplyState) :
  applyOk snapshot fresh st →
  staged (fold_left (applyStep snapshot fresh) items st)
  = fold_left (Staged.resolveLine snapshot fresh) items (staged st)
  ∧ applyOk snapshot fresh (fold_left (applyStep snapshot fresh) items st).
Proof.
  revert st. induction items as [|item items IH]; intros st Hst; simpl; [done|].
  destruct (applyStep_spec snapshot fresh st item Hst) as [Heq Hok].
  rewrite <- Heq. by apply IH.
Qed.











Example purchase_edit_four_to_six : stocksOf (EditRun.after 4) "p1" = [10; 6].
Proof. vm_compute. reflexivity. Qed.

(** Three of the four units were sold in the meantime: the edit works on
    the one unit left, not on the stock at the time of the purchase. *)
Example purchase_edit_after_sales : stocksOf (EditRun.after 1) "p1" = [10; 3].
Proof. vm_compute. reflexivity. Qed.

(** * Further properties of the handlers *)

(** ** Deleting a batch *)





(** X2.  A batch no bill and no purchase refers to is deleted from its
    product: afterwards the product holds no batch with that id and keeps
    every other batch, in order; no other document changes. *)
Theorem delete_batch_removes (s : Store) (productId batchId : string)
    (p : Product.t) :
  isInBill s batchId = false →
  isInPurchase s batchId = false →
  products s !! productId = Some p →
  ∃ s' p', handleDeleteBatch s productId batchId = (s', BatchDeleted)
    ∧ products s' = <[productId := p']> (products s)
    ∧ bills s' = bills s ∧ purchases s' = purchases s
    ∧ companies s' = companies s
    ∧ p' = Product.withBatches p (Product.batches p')
    ∧ Forall (λ b, Batch.id b ≠ batchId) (Product.batches p')
    ∧ sublist (Product.batches p') (Product.batches p)
    ∧ ∀ b, b ∈ Product.batches p → Batch.id b ≠ batchId →
           b ∈ Product.batches p'.
Proof.
  intros Hbill Hpur Hp. unfold handleDeleteBatch. rewrite Hbill, Hpur, Hp.
  simpl. rewrite Hp. eexists _, _. split; [done|]. simpl.
  split_and!; try done.
  - apply Forall_forall. by intros b [? _]%list_elem_of_filter.
  - apply sublist_filter.
  - intros b Hb Hid. by apply list_elem_of_filter.
Qed.

Lemma delete_batch_removes_witness :
  ∃ s' p', handleDeleteBatch AddBug.before "p1" "bX" = (s', BatchDeleted)
    ∧ products s' = <[ "p1" := p' ]> (products AddBug.before)
    ∧ Forall (λ b, Batch.id b ≠ "bX") (Product.batches p').
Proof.
  destruct (delete_batch_removes AddBug.before "p1" "bX"
              (Sample.paracetamol [Sample.batchX 10; Sample.batchY 10])
              eq_refl eq_refl eq_refl)
    as (s' & p' & H1 & H2 & _ & _ & _ & _ & H3 & _).
  by exists s', p'.
Defined.

(** ** Adding a batch or a product by hand *)

(** X3.  [handleAddBatch] rejects for a product the store does not hold.
    For a known product none of whose batches has the new id, the product
    afterwards holds its former batches, unchanged and in order, followed
    by the new batch with the submitted stock; the batch number is not
    looked at, so a number the product already uses is accepted. *)
Theorem add_batch_appends (s : Store) (now productId : string)
    (batchData : BatchData.t) :
  (products s !! productId = None →
   handleAddBatch s now productId batchData = None)
  ∧ ∀ p, products s !! productId = Some p →
         Forall (λ b, Batch.id b ≠ batchIdOf now) (Product.batches p) →
         ∃ s', handleAddBatch s now productId batchData = Some s'
           ∧ products s'
             = <[productId :=
                   Product.withBatches p
                     (Product.batches p
                        ++ [BatchData.withId batchData (batchIdOf now)])]>
                 (products s)
           ∧ bills s' = bills s ∧ purchases s' = purchases s
           ∧ companies s' = companies s.
Proof.
  unfold handleAddBatch. simpl. split.
  - by intros ->.
  - intros p Hp Hfresh. rewrite Hp. eexists. split; [done|]. simpl.
    split_and!; try done. unfold arrayUnion. rewrite decide_False; [done|].
    intros Hin. eapply Forall_forall in Hfresh; [|exact Hin]. by apply Hfresh.
Qed.

(** X4.  For a product the form submits with a composition and a company
    name of ASCII characters, the known company names being ASCII too,
    [handleAddProduct] commits.  The new product is stored under the new
    id with exactly one batch, the submitted one; every other product,
    every bill and every purchase is untouched.  No company is created when
    the trimmed company name is empty or equals a known company up to
    letter case; otherwise exactly the trimmed name is stored as a new
    company. *)
Theorem add_product_creates (s : Store) (now newCompanyRef newProductRef : string)
    (productData : Product.t) (firstBatchData : BatchData.t) :
  is_Some (Product.composition productData) →
  asciiOnly (Product.company productData) →
  (∀ companyId c, companies s !! companyId = Some c → asciiOnly c) →
  ∃ s', handleAddProduct s now newCompanyRef newProductRef productData
          firstBatchData = Some s'
    ∧ products s'
      = <[newProductRef :=
            Product.mk (Product.name productData) (Product.company productData)
              (Product.hsnCode productData) (Product.gst productData)
              (Product.composition productData)
              [Batch.mk (batchIdOf now) (BatchData.batchNumber firstBatchData)
                 (BatchData.expiryDate firstBatchData)
                 (BatchData.stock firstBatchData) (BatchData.mrp firstBatchData)
                 (BatchData.purchasePrice firstBatchData)]]> (products s)
    ∧ bills s' = bills s ∧ purchases s' = purchases s
    ∧ (trim (Product.company productData) = EmptyString
       ∨ (∃ companyId c, companies s !! companyId = Some c
                         ∧ toLowerCase c
                           = toLowerCase (trim (Product.company productData))) →
       companies s' = companies s)
    ∧ (trim (Product.company productData) ≠ EmptyString →
       (∀ companyId c, companies s !! companyId = Some c →
                       toLowerCase c
                       ≠ toLowerCase (trim (Product.company productData))) →
       companies s'
       = <[newCompanyRef := trim (Product.company productData)]> (companies s)).
Proof.
  intros _ _ _. unfold handleAddProduct.
  set (name := trim (Product.company productData)).
  set (known := (map_to_list (companies s)).*2).
  assert (existsb (λ c, bool_decide (toLowerCase c = toLowerCase name)) known = true
          ↔ ∃ companyId c, companies s !! companyId = Some c
                           ∧ toLowerCase c = toLowerCase name) as Hknown.
  { rewrite existsb_exists. subst known. split.
    - intros (c & Hc & Heq). apply bool_decide_eq_true in Heq.
      apply list_elem_of_In, list_elem_of_fmap in Hc as ([k c'] & -> & Hin).
      apply elem_of_map_to_list in Hin. by exists k, c'.
    - intros (k & c & Hc & Heq). exists c. split.
      + apply list_elem_of_In, list_elem_of_fmap. exists (k, c).
        split; [done|]. by apply elem_of_map_to_list.
      + by apply bool_decide_eq_true. }
  destruct (decide (name = EmptyString)) as [Hempty|Hname].
  - simpl. eexists. split; [done|]. simpl. split_and!; try done.
  - destruct (existsb _ known) eqn:Hex.
    + simpl. eexists. split; [done|]. simpl. split_and!; try done.
      intros _ Hnone. destruct Hknown as [Hk _].
      destruct (Hk eq_refl) as (k & c & Hc & Heq). by destruct (Hnone k c Hc).
    + simpl. eexists. split; [done|]. simpl. split_and!; try done.
      intros [Hempty|Hmatch]; [done|]. by apply Hknown in Hmatch.
Qed.

(** A product of the unknown company Zen in a shop that knows Acme: Zen is
    created, trimmed. *)
Lemma add_product_creates_witness :
  ∃ s',
    handleAddProduct
      (mkStore ∅ ∅ ∅ {[ "c1" := "Acme" ]}) "1700000000000" "c2" "p9"
      (Product.mk "Ibuprofen" " Zen " "3004" (Sample.rupees 12)
         (Some "Ibuprofen 400mg") [])
      (BatchData.mk "I-1" "2028-01" 8 (Sample.rupees 30) (Sample.rupees 20))
    = Some s'
    ∧ stocksOf s' "p9" = [8]
    ∧ companies s' = {[ "c2" := "Zen"; "c1" := "Acme" ]}.
Proof.
  destruct (add_product_creates
              (mkStore ∅ ∅ ∅ {[ "c1" := "Acme" ]}) "1700000000000" "c2" "p9"
              (Product.mk "Ibuprofen" " Zen " "3004" (Sample.rupees 12)
                 (Some "Ibuprofen 400mg") [])
              (BatchData.mk "I-1" "2028-01" 8 (Sample.rupees 30)
                 (Sample.rupees 20)))
    as (s' & Hadd & Hprod & _ & _ & _ & Hnew).
  - by eexists.
  - simpl. repeat split; reflexivity.
  - intros cid c Hc. simpl in Hc. apply lookup_singleton_Some in Hc as [_ <-].
    simpl. repeat split; reflexivity.
  - exists s'. split; [exact Hadd|]. split.
    + unfold stocksOf. rewrite Hprod, lookup_insert_eq. reflexivity.
    + rewrite Hnew; [reflexivity|discriminate|].
      intros cid c Hc. simpl in Hc.
      apply lookup_singleton_Some in Hc as [_ <-]. discriminate.
Defined.

(** ** Voucher numbers *)

Lemma padded_number_digits (n : N) :
  allDigits (padStart 4 (toString n))
  ∧ parseDigits (padStart 4 (toString n)) 0%N = n.
Proof.
  destruct (toString_spec n) as (Hall & _ & Hparse). unfold padStart. split.
  - apply allDigits_app; [apply allDigits_zeros|done].
  - rewrite parseDigits_app by apply allDigits_zeros.
    by rewrite parseDigits_zeros.
Qed.

(** X5.  The voucher number of a new payment is determined by the number of
    payments on record and by nothing else: two collections get the same
    voucher number exactly when they hold the same number of payments. *)
Theorem voucher_number_by_count (count1 count2 : nat) :
  newVoucherNumber count1 = newVoucherNumber count2 ↔ count1 = count2.
Proof.
  split; [|by intros ->]. unfold newVoucherNumber. intros Heq.
  apply (inj (String.app "PV-")) in Heq.
  destruct (padded_number_digits (N.of_nat count1 + 1)) as [_ H1].
  destruct (padded_number_digits (N.of_nat count2 + 1)) as [_ H2].
  rewrite Heq in H1. rewrite H1 in H2. lia.
Qed.

(** X6.  Voucher numbers repeat after a deletion.  Record a payment, delete
    any earlier payment, record another payment: the second payment gets
    the voucher number of the first, and both are on record. *)
Theorem voucher_number_repeats (payments : gmap string Payment.t)
    (ref1 ref2 victim : string) (data1 data2 old : Payment.t) :
  payments !! ref1 = None →
  payments !! victim = Some old →
  victim ≠ EmptyString →
  ref2 ≠ ref1 →
  let '(payments1, (_, first)) := handleAddPayment payments ref1 data1 in
  let payments2 := handleDeletePayment payments1 victim in
  let '(payments3, (_, second)) := handleAddPayment payments2 ref2 data2 in
  Payment.voucherNumber second = Payment.voucherNumber first
  ∧ payments3 !! ref1 = Some first
  ∧ payments3 !! ref2 = Some second.
Proof.
  intros Hfresh Hold Hvictim Hne. unfold handleAddPayment, handleDeletePayment.
  rewrite decide_False by done.
  assert (victim ≠ ref1) as Hvr by congruence.
  split_and!.
  - simpl. f_equal.
    rewrite map_size_delete, lookup_insert_ne, Hold by done.
    rewrite map_size_insert_None by done. done.
  - rewrite lookup_insert_ne by done. rewrite lookup_delete_ne by done.
    apply lookup_insert_eq.
  - apply lookup_insert_eq.
Qed.

(** ** The printed supplier ledger *)

Lemma sum_debit_from (transactions : list Transaction.t) (acc : Qc) :
  fold_left (λ sum tx, (sum + Transaction.debit tx)%Qc) transactions acc
  = (acc + totalDebit transactions)%Qc.
Proof.
  unfold totalDebit. revert acc.
  induction transactions as [|tx rest IH]; intros acc; simpl.
  - by rewrite Qcplus_0_r.
  - rewrite IH, (IH (Q2Qc 0 + _)%Qc), Qcplus_0_l. by rewrite Qcplus_assoc.
Qed.

Lemma sum_credit_from (transactions : list Transaction.t) (acc : Qc) :
  fold_left (λ sum tx, (sum + Transaction.credit tx)%Qc) transactions acc
  = (acc + totalCredit transactions)%Qc.
Proof.
  unfold totalCredit. revert acc.
  induction transactions as [|tx rest IH]; intros acc; simpl.
  - by rewrite Qcplus_0_r.
  - rewrite IH, (IH (Q2Qc 0 + _)%Qc), Qcplus_0_l. by rewrite Qcplus_assoc.
Qed.

(** X7.  In exact arithmetic the printed ledger is consistent: it has one balance row per
    transaction, and the closing balance of its footer is the opening
    balance plus the total of the debit column minus the total of the
    credit column. *)
Theorem ledger_closing_balance (openingBalance : Qc)
    (transactions : list Transaction.t) :
  length (ledgerRows openingBalance transactions).1 = length transactions
  ∧ (ledgerRows openingBalance transactions).2
    = (openingBalance + totalDebit transactions - totalCredit transactions)%Qc.
Proof.
  revert openingBalance.
  induction transactions as [|tx rest IH]; intros opening; simpl.
  - split; [done|]. unfold totalDebit, totalCredit. simpl. ring.
  - destruct (IH (opening + Transaction.debit tx - Transaction.credit tx)%Qc)
      as [Hlen Hclose].
    destruct (ledgerRows _ rest) as [rows closing]. simpl in *.
    split; [by rewrite Hlen|]. rewrite Hclose.
    unfold totalDebit, totalCredit. simpl.
    rewrite !sum_debit_from, !sum_credit_from. ring.
Qed.

Lemma voucher_number_repeats_witness :
  let '(payments1, (_, first)) :=
    handleAddPayment PaymentRun.onRecord "pay2" (PaymentRun.payment "Acme") in
  let payments2 := handleDeletePayment payments1 "pay1" in
  let '(payments3, (_, second)) :=
    handleAddPayment payments2 "pay3" (PaymentRun.payment "Zen") in
  Payment.voucherNumber second = Payment.voucherNumber first
  ∧ payments3 !! "pay2" = Some first
  ∧ payments3 !! "pay3" = Some second.
Proof.
  refine (voucher_number_repeats PaymentRun.onRecord "pay2" "pay3" "pay1"
            (PaymentRun.payment "Acme") (PaymentRun.payment "Zen")
            (Payment.withVoucher (PaymentRun.payment "Acme") "PV-0001")
            eq_refl eq_refl _ _); discriminate.
Defined.

(** ** What a batch of product updates commits *)

Lemma lastUpdate_snoc (pid : string) (ws : list Write) (w : Write) :
  lastUpdate pid (ws ++ [w]) =
    match w with
    | UpdateBatches k bs => if decide (k = pid) then Some bs else lastUpdate pid ws
    | _ => lastUpdate pid ws
    end.
Proof. unfold lastUpdate. by rewrite fold_left_app. Qed.

Lemma lastUpdate_app_none (pid : string) (ws1 ws2 : list Write) :
  lastUpdate pid ws2 = None → lastUpdate pid (ws1 ++ ws2) = lastUpdate pid ws1.
Proof.
  induction ws2 as [|w ws2 IH] using rev_ind; intros Hnone.
  - by rewrite app_nil_r.
  - rewrite app_assoc, lastUpdate_snoc. rewrite lastUpdate_snoc in Hnone.
    destruct w; auto. case_decide; [done|auto].
Qed.

Lemma commit_knownUpdates (ws : list Write) (s : Store) :
  Forall (knownUpdate (products s)) ws →
  ∃ s', commit ws s = Some s'
    ∧ bills s' = bills s ∧ purchases s' = purchases s
    ∧ companies s' = companies s
    ∧ ∀ pid, products s' !! pid =
        match lastUpdate pid ws with
        | Some bs => (λ p, Product.withBatches p bs) <$> products s !! pid
        | None => products s !! pid
        end.
Proof.
  induction ws as [|w ws IH] using rev_ind; intros Hall.
  - exists s. by split_and!.
  - apply Forall_app in Hall as [Hws Hw].
    destruct (IH Hws) as (s1 & Hc1 & Hb1 & Hq1 & Hco1 & Hp1).
    inversion Hw as [|? ? Hk _]; subst.
    destruct w as [| k bs | | | | | | | |]; try done. simpl in Hk.
    destruct Hk as [p Hp].
    assert (∃ p1, products s1 !! k = Some p1
                  ∧ ∀ bs', Product.withBatches p1 bs' = Product.withBatches p bs')
      as (p1 & Hs1 & Hmeta).
    { rewrite Hp1, Hp. destruct (lastUpdate k ws); simpl; eauto. }
    rewrite commit_snoc, Hc1. simpl. rewrite Hs1.
    eexists. split; [done|]. simpl. split_and!; try done.
    intros pid. rewrite lastUpdate_snoc, lookup_insert.
    case_decide as Hd; subst.
    + rewrite Hp. simpl. by rewrite Hmeta.
    + apply Hp1.
Qed.

Lemma itemWrites_known (f : CartItem.t → Batch.t → Batch.t)
    (snapshot : gmap string Product.t) (items : list CartItem.t) :
  Forall (knownUpdate snapshot) (flat_map (itemWrite f snapshot) items).
Proof.
  induction items as [|item items IH]; simpl; [constructor|].
  apply Forall_app. split; [|done]. unfold itemWrite.
  destruct (snapshot !! CartItem.productId item) eqn:Hp; [|constructor].
  constructor; [|constructor]. simpl. by eexists.
Qed.

Lemma itemWrites_unnamed (f : CartItem.t → Batch.t → Batch.t)
    (snapshot : gmap string Product.t) (items : list CartItem.t) (pid : string) :
  Forall (λ item, CartItem.productId item ≠ pid) items →
  lastUpdate pid (flat_map (itemWrite f snapshot) items) = None.
Proof.
  induction items as [|item items IH] using rev_ind; intros Hall; [done|].
  apply Forall_app in Hall as [Hitems Hitem].
  inversion Hitem as [|? ? Hne _]; subst.
  rewrite flat_map_app. simpl. rewrite app_nil_r. unfold itemWrite at 2.
  destruct (snapshot !! CartItem.productId item).
  - rewrite lastUpdate_snoc, decide_False by done. auto.
  - rewrite app_nil_r. auto.
Qed.

Lemma itemWrites_last (f : CartItem.t → Batch.t → Batch.t)
    (snapshot : gmap string Product.t) (before after : list CartItem.t)
    (item : CartItem.t) (p : Product.t) :
  snapshot !! CartItem.productId item = Some p →
  Forall (λ later, CartItem.productId later ≠ CartItem.productId item) after →
  lastUpdate (CartItem.productId item)
    (flat_map (itemWrite f snapshot) (before ++ item :: after))
  = Some (f item <$> Product.batches p).
Proof.
  intros Hp Hafter.
  change (before ++ item :: after) with (before ++ [item] ++ after).
  rewrite app_assoc, flat_map_app.
  rewrite lastUpdate_app_none by by apply itemWrites_unnamed.
  rewrite flat_map_app. simpl. rewrite app_nil_r. unfold itemWrite at 2.
  rewrite Hp, lastUpdate_snoc. by rewrite decide_True.
Qed.

(** ** The effect of generating and of deleting a bill *)

(** X8.  A generate stores the bill, with the cart as its items, under the
    new id and touches no purchase and no company.  A product no cart line
    names is left as it is.  A product the cart names ends with the
    subtraction of the last line that names it, computed from the stock
    before the generate: the quantities of earlier lines on the same
    product are not subtracted. *)
Theorem generate_bill_effect (s : Store) (newBillRef : string)
    (billData : BillData.t) :
  ∃ s' bill,
    handleGenerateBill s newBillRef billData = (s', Some (newBillRef, bill))
    ∧ Bill.items bill = BillData.items billData
    ∧ bills s' = <[newBillRef := bill]> (bills s)
    ∧ purchases s' = purchases s ∧ companies s' = companies s
    ∧ (∀ pid, Forall (λ item, CartItem.productId item ≠ pid)
                (BillData.items billData) →
              products s' !! pid = products s !! pid)
    ∧ (∀ before item after p,
         BillData.items billData = before ++ item :: after →
         Forall (λ later, CartItem.productId later ≠ CartItem.productId item)
                after →
         products s !! CartItem.productId item = Some p →
         products s' !! CartItem.productId item
         = Some (Product.withBatches p (sellBatch item <$> Product.batches p))).
Proof.
  unfold handleGenerateBill. simpl.
  set (bill := stampBill billData (newBillNumber (allBills s))).
  destruct (commit_knownUpdates
              (flat_map (itemWrite sellBatch (products s)) (BillData.items billData))
              (withBills s (<[newBillRef := bill]> (bills s))))
    as (s' & Hc & Hb & Hq & Hco & Hp); [apply itemWrites_known|].
  rewrite Hc. exists s', bill. split_and!; try done.
  - intros pid Hun. rewrite Hp. by rewrite itemWrites_unnamed.
  - intros before item after p Hitems Hafter Hprod.
    rewrite Hp, Hitems. erewrite itemWrites_last by done. simpl.
    by rewrite Hprod.
Qed.

(** X9.  A bill deletion always commits and removes the bill document,
    also when products of the bill are gone.  A product no line of the
    bill names is left as it is; a product the bill names ends with the
    quantity of the last line that names it added back, and of that line
    only. *)
Theorem delete_bill_effect (s : Store) (billId : string) (bill : Bill.t) :
  let s' := handleDeleteBill s billId bill in
  bills s' = delete billId (bills s)
  ∧ purchases s' = purchases s ∧ companies s' = companies s
  ∧ (∀ pid, Forall (λ item, CartItem.productId item ≠ pid) (Bill.items bill) →
            products s' !! pid = products s !! pid)
  ∧ (∀ before item after p,
       Bill.items bill = before ++ item :: after →
       Forall (λ later, CartItem.productId later ≠ CartItem.productId item)
              after →
       products s !! CartItem.productId item = Some p →
       products s' !! CartItem.productId item
       = Some (Product.withBatches p (restockBatch item <$> Product.batches p))).
Proof.
  unfold handleDeleteBill. rewrite commit_snoc.
  destruct (commit_knownUpdates
              (flat_map (itemWrite restockBatch (products s)) (Bill.items bill)) s)
    as (s1 & Hc & Hb & Hq & Hco & Hp); [apply itemWrites_known|].
  rewrite Hc. simpl. split_and!; try done.
  - by rewrite Hb.
  - intros pid Hun. rewrite Hp. by rewrite itemWrites_unnamed.
  - intros before item after p Hitems Hafter Hprod.
    rewrite Hp, Hitems. erewrite itemWrites_last by done. simpl.
    by rewrite Hprod.
Qed.

(** ** Deleting a purchase *)

Lemma returnBatch_takenBack (batchId : string) (quantity : Z) (b : Batch.t) :
  returnBatch batchId quantity b = takenBack batchId quantity b.
Proof.
  unfold returnBatch, takenBack. case_decide; [|done]. f_equal.
  destruct (_ <? 0) eqn:E; [apply Z.ltb_lt in E | apply Z.ltb_ge in E]; lia.
Qed.

Lemma deletePurchaseWrites_known (snapshot : gmap string Product.t)
    (items : list Line.t) :
  Forall (knownUpdate snapshot) (flat_map (deletePurchaseWrite snapshot) items).
Proof.
  induction items as [|item items IH]; simpl; [constructor|].
  apply Forall_app. split; [|done]. unfold deletePurchaseWrite.
  destruct (truthy (Line.productId item)) as [pid|]; [|constructor].
  destruct (truthy (Line.batchId item)) as [bid|]; [|constructor].
  destruct (snapshot !! pid) eqn:Hp; [|constructor].
  constructor; [|constructor]. simpl. by eexists.
Qed.

Lemma deletePurchaseWrite_unlinked (snapshot : gmap string Product.t)
    (item : Line.t) (pid : string) :
  fst <$> linkOf item ≠ Some pid →
  lastUpdate pid (deletePurchaseWrite snapshot item) = None.
Proof.
  unfold linkOf, deletePurchaseWrite.
  destruct (truthy (Line.productId item)) as [k|]; [|done].
  destruct (truthy (Line.batchId item)) as [bid|]; [|done]. simpl.
  intros Hne. destruct (snapshot !! k); [|done].
  unfold lastUpdate. simpl. rewrite decide_False; [done|]. congruence.
Qed.

Lemma deletePurchaseWrites_unlinked (snapshot : gmap string Product.t)
    (items : list Line.t) (pid : string) :
  Forall (λ item, fst <$> linkOf item ≠ Some pid) items →
  lastUpdate pid (flat_map (deletePurchaseWrite snapshot) items) = None.
Proof.
  induction items as [|item items IH] using rev_ind; intros Hall; [done|].
  apply Forall_app in Hall as [Hitems Hitem].
  inversion Hitem as [|? ? Hne _]; subst.
  rewrite flat_map_app. simpl. rewrite app_nil_r.
  rewrite lastUpdate_app_none; [auto|].
  by apply deletePurchaseWrite_unlinked.
Qed.

Lemma deletePurchaseWrites_last (snapshot : gmap string Product.t)
    (before after : list Line.t) (item : Line.t) (pid bid : string)
    (p : Product.t) :
  linkOf item = Some (pid, bid) →
  snapshot !! pid = Some p →
  Forall (λ later, fst <$> linkOf later ≠ Some pid) after →
  lastUpdate pid (flat_map (deletePurchaseWrite snapshot) (before ++ item :: after))
  = Some (takenBack bid (Line.quantity item) <$> Product.batches p).
Proof.
  intros Hlink Hp Hafter.
  change (before ++ item :: after) with (before ++ [item] ++ after).
  rewrite app_assoc, flat_map_app.
  rewrite lastUpdate_app_none by by apply deletePurchaseWrites_unlinked.
  rewrite flat_map_app. simpl. rewrite app_nil_r.
  unfold deletePurchaseWrite at 2. unfold linkOf in Hlink.
  destruct (truthy (Line.productId item)) as [k|]; [|done].
  destruct (truthy (Line.batchId item)) as [b|]; [|done].
  injection Hlink as -> ->. rewrite Hp, lastUpdate_snoc, decide_True by done.
  f_equal. apply list_fmap_ext. intros i x _. apply returnBatch_takenBack.
Qed.

(** X10.  A purchase without id is not deleted at all.  Otherwise the
    deletion always commits and removes the purchase document; lines that
    lack a product id or a batch id, or whose product is gone, change
    nothing.  A product no line is linked to is left as it is; a product
    the purchase is linked to ends with the quantity of the last such line
    taken off that line's batch, never below zero, and the earlier lines
    on that product are not taken off. *)
Theorem delete_purchase_effect (s : Store) (purchaseId : string)
    (purchase : Purchase.t) :
  let s' := handleDeletePurchase s purchaseId purchase in
  (purchaseId = EmptyString → s' = s)
  ∧ (purchaseId ≠ EmptyString →
     purchases s' = delete purchaseId (purchases s)
     ∧ bills s' = bills s ∧ companies s' = companies s
     ∧ (∀ pid, Forall (λ item, fst <$> linkOf item ≠ Some pid)
                 (Purchase.items purchase) →
               products s' !! pid = products s !! pid)
     ∧ (∀ before item after pid bid p,
          Purchase.items purchase = before ++ item :: after →
          linkOf item = Some (pid, bid) →
          Forall (λ later, fst <$> linkOf later ≠ Some pid) after →
          products s !! pid = Some p →
          products s' !! pid
          = Some (Product.withBatches p
                    (takenBack bid (Line.quantity item) <$> Product.batches p)))).
Proof.
  unfold handleDeletePurchase. split.
  - intros ->. by rewrite decide_True.
  - intros Hid. rewrite decide_False by done. rewrite commit_snoc.
    destruct (commit_knownUpdates
                (flat_map (deletePurchaseWrite (products s)) (Purchase.items purchase)) s)
      as (s1 & Hc & Hb & Hq & Hco & Hp); [apply deletePurchaseWrites_known|].
    rewrite Hc. simpl. split_and!; try done.
    + by rewrite Hq.
    + intros pid Hun. rewrite Hp. by rewrite deletePurchaseWrites_unlinked.
    + intros before item after pid bid p Hitems Hlink Hafter Hprod.
      rewrite Hp, Hitems. erewrite deletePurchaseWrites_last by done.
      by rewrite Hprod.
Qed.

(** ** A purchase saved and then deleted *)

Lemma add_single_line_saved (s : Store) (fresh : nat → string)
    (purchaseData : Purchase.t) (item : Line.t) (pid : string) (p : Product.t) :
  Purchase.items purchaseData = [item] →
  Line.isNewProduct item = false →
  truthy (Line.productId item) = Some pid →
  products s !! pid = Some p →
  ∃ s', handleAddPurchase s fresh purchaseData = Some s'
    ∧ bills s' = bills s
    ∧ match findByNumber (Product.batches p) (Line.batchNumber item) with
      | Some existingBatch =>
          products s'
          = <[pid := Product.withBatches p
                       (receiveBatch (Batch.id existingBatch) item
                          <$> Product.batches p)]> (products s)
          ∧ purchases s'
            = <[fresh O :=
                  Purchase.withTotalItems purchaseData (totalAmountOf [item])
                    [Line.withBatchId item (Batch.id existingBatch)]]>
                (purchases s)
      | None =>
          products s'
          = <[pid := Product.withBatches p
                       (arrayUnion (Product.batches p)
                          (lineBatch (batchIdOf (fresh O)) item))]> (products s)
          ∧ purchases s'
            = <[fresh 1%nat :=
                  Purchase.withTotalItems purchaseData (totalAmountOf [item])
                    [Line.withBatchId item (batchIdOf (fresh O))]]>
                (purchases s)
      end.
Proof.
  intros Hitems Hnew Hpid Hp.
  unfold handleAddPurchase, addPurchaseWrites. rewrite Hitems. simpl.
  unfold newCompanyNames, companyStep. simpl. rewrite Hnew. simpl.
  rewrite Hpid, Hp.
  destruct (findByNumber _ _) as [b|]; simpl; rewrite Hp; simpl; eauto.
Qed.





(** X12.  Saving a one-line purchase that creates a new batch of an
    existing product and deleting the saved purchase straight away does
    not remove the batch: the product keeps its former batches and the new
    batch stays behind with stock zero. *)
Theorem purchase_add_delete_new_batch (s : Store) (fresh : nat → string)
    (purchaseData : Purchase.t) (item : Line.t) (pid : string) (p : Product.t) :
  Purchase.items purchaseData = [item] →
  Line.isNewProduct item = false →
  truthy (Line.productId item) = Some pid →
  products s !! pid = Some p →
  findByNumber (Product.batches p) (Line.batchNumber item) = None →
  Forall (λ b, Batch.id b ≠ batchIdOf (fresh O)) (Product.batches p) →
  fresh 1%nat ≠ EmptyString →
  purchases s !! fresh 1%nat = None →
  ∃ s1 saved,
    handleAddPurchase s fresh purchaseData = Some s1
    ∧ purchases s1 !! fresh 1%nat = Some saved
    ∧ let s2 := handleDeletePurchase s1 (fresh 1%nat) saved in
      purchases s2 = purchases s
      ∧ products s2
        = <[pid := Product.withBatches p
                     (Product.batches p
                        ++ [Batch.withStock
                              (lineBatch (batchIdOf (fresh O)) item) 0])]>
            (products s).
Proof.
  intros Hitems Hnew Hpid Hp Hfind Hids Href Hfresh.
  destruct (add_single_line_saved s fresh purchaseData item pid p)
    as (s1 & Hadd & _ & Hs1); try done.
  rewrite Hfind in Hs1. destruct Hs1 as [Hprod Hpur].
  assert (arrayUnion (Product.batches p) (lineBatch (batchIdOf (fresh O)) item)
          = Product.batches p ++ [lineBatch (batchIdOf (fresh O)) item]) as Hunion.
  { unfold arrayUnion. rewrite decide_False; [done|]. intros Hin.
    eapply Forall_forall in Hids; [|exact Hin]. by apply Hids. }
  rewrite Hunion in Hprod.
  exists s1. eexists. split; [done|]. split.
  { rewrite Hpur. apply lookup_insert_eq. }
  assert (products s1 !! pid
          = Some (Product.withBatches p
                    (Product.batches p ++ [lineBatch (batchIdOf (fresh O)) item])))
    as Hl.
  { rewrite Hprod. apply lookup_insert_eq. }
  simpl. unfold handleDeletePurchase. rewrite decide_False by done. simpl.
  unfold deletePurchaseWrite. simpl. rewrite Hpid. unfold batchIdOf at 1. simpl.
  rewrite Hl. simpl. rewrite Hl. simpl.
  split.
  - rewrite Hpur. by apply delete_insert_id.
  - rewrite Hprod, insert_insert_eq. f_equal. f_equal.
    rewrite fmap_app. f_equal.
    + rewrite <- (list_fmap_id (Product.batches p)) at 2.
      apply list_fmap_ext. intros i b Hb. simpl.
      apply list_elem_of_lookup_2 in Hb.
      eapply Forall_forall in Hids; [|exact Hb]. simpl in Hids.
      unfold returnBatch. by rewrite decide_False.
    + simpl. unfold returnBatch. rewrite decide_True by done. simpl.
      unfold Batch.withStock. simpl. f_equal. f_equal.
      destruct (_ <? 0) eqn:E; [done|]. apply Z.ltb_ge in E. lia.
Qed.

Lemma purchase_add_delete_new_batch_witness :
  ∃ s1 saved,
    handleAddPurchase AddBug.before Sample.fresh
      (Sample.invoice [Sample.line (Some "p1") None "Z-9" 5]) = Some s1
    ∧ purchases s1 !! Sample.fresh 1%nat = Some saved
    ∧ stocksOf (handleDeletePurchase s1 (Sample.fresh 1%nat) saved) "p1"
      = [10; 10; 0].
Proof.
  destruct (purchase_add_delete_new_batch AddBug.before Sample.fresh
              (Sample.invoice [Sample.line (Some "p1") None "Z-9" 5])
              (Sample.line (Some "p1") None "Z-9" 5) "p1"
              (Sample.paracetamol [Sample.batchX 10; Sample.batchY 10])
              eq_refl eq_refl eq_refl eq_refl eq_refl
              ltac:(repeat constructor; discriminate) ltac:(discriminate) eq_refl)
    as (s1 & saved & H1 & H2 & _ & H3).
  exists s1, saved. split_and!; [exact H1 | exact H2 |].
  unfold stocksOf. rewrite H3. reflexivity.
Defined.

(** ** Bill numbers over several operations *)

Lemma maxSuffix_perm (l1 l2 : list Bill.t) :
  l1 ≡ₚ l2 → maxSuffix l1 = maxSuffix l2.
Proof. induction 1; simpl; lia. Qed.

Lemma suffix_of_new (cart : BillData.t) (existing : list Bill.t) :
  suffixesWithin maxSafeInteger existing →
  suffixOf (stampBill cart (newBillNumber existing))
  = Some (maxSuffix existing + 1)%N.
Proof.
  intros Hsafe. unfold suffixOf, stampBill. simpl Bill.billNumber.
  rewrite newBillNumber_exact by done. apply suffix_of_formatted.
Qed.

Lemma deleteBill_bills (s : Store) (billId : string) (bill : Bill.t) :
  bills (handleDeleteBill s billId bill) = delete billId (bills s).
Proof.
  unfold handleDeleteBill. rewrite commit_snoc.
  destruct (commit_knownUpdates
              (flat_map (itemWrite restockBatch (products s)) (Bill.items bill)) s)
    as (s1 & Hc & Hb & _); [apply itemWrites_known|].
  rewrite Hc. simpl. by rewrite Hb.
Qed.

(** X13.  Bill numbers are not a counter.  When the bill generated last is
    deleted, the next bill generated gets the very same bill number. *)
Theorem bill_number_reused_after_delete (s : Store)
    (ref1 ref2 : string) (cart1 cart2 : BillData.t) :
  bills s !! ref1 = None →
  ∃ s1 bill1 s3 bill2,
    handleGenerateBill s ref1 cart1 = (s1, Some (ref1, bill1))
    ∧ handleGenerateBill (handleDeleteBill s1 ref1 bill1) ref2 cart2
      = (s3, Some (ref2, bill2))
    ∧ Bill.billNumber bill2 = Bill.billNumber bill1.
Proof.
  intros Hfresh.
  destruct (generate_commits s ref1 cart1) as (s1 & Hgen1 & Hb1 & _).
  destruct (generate_commits (handleDeleteBill s1 ref1
                                (stampBill cart1 (newBillNumber (allBills s))))
              ref2 cart2) as (s3 & Hgen2 & _).
  eexists _, _, _, _. split; [exact Hgen1|]. split; [exact Hgen2|]. simpl.
  unfold allBills. rewrite deleteBill_bills, Hb1.
  by rewrite delete_insert_id.
Qed.

Lemma bill_number_reused_after_delete_witness :
  ∃ s1 bill1 s3 bill2,
    handleGenerateBill AddBug.before "b1"
      (Sample.cartOf [Sample.sale "bX" "X-001" 2]) = (s1, Some ("b1", bill1))
    ∧ handleGenerateBill (handleDeleteBill s1 "b1" bill1) "b2"
        (Sample.cartOf [Sample.sale "bY" "Y-001" 1]) = (s3, Some ("b2", bill2))
    ∧ Bill.billNumber bill2 = Bill.billNumber bill1.
Proof.
  apply bill_number_reused_after_delete. reflexivity.
Defined.

(** X14.  Two bills generated one after the other, the first under an id
    not in use, get consecutive numbers as long as the numbers stay within
    [Number.MAX_SAFE_INTEGER]: the numeric suffix of the second is that of
    the first plus one. *)
Theorem bill_numbers_consecutive (s : Store) (ref1 ref2 : string)
    (cart1 cart2 : BillData.t) :
  bills s !! ref1 = None →
  suffixesWithin (maxSafeInteger - 1) (allBills s) →
  ∃ s1 bill1 s2 bill2 k,
    handleGenerateBill s ref1 cart1 = (s1, Some (ref1, bill1))
    ∧ handleGenerateBill s1 ref2 cart2 = (s2, Some (ref2, bill2))
    ∧ suffixOf bill1 = Some k
    ∧ suffixOf bill2 = Some (k + 1)%N.
Proof.
  intros Hfresh Hwithin.
  destruct (generate_commits s ref1 cart1) as (s1 & Hgen1 & Hb1 & _).
  destruct (generate_commits s1 ref2 cart2) as (s2 & Hgen2 & _).
  eexists _, _, _, _, _. split; [exact Hgen1|]. split; [exact Hgen2|].
  pose proof (maxSuffix_within _ _ Hwithin) as Hmax.
  unfold maxSafeInteger in Hmax.
  assert (suffixesWithin maxSafeInteger (allBills s)) as Hsafe.
  { intros b k Hin Hk. pose proof (Hwithin b k Hin Hk) as Hle.
    unfold maxSafeInteger in *. lia. }
  assert (allBills s1
          ≡ₚ stampBill cart1 (newBillNumber (allBills s)) :: allBills s) as Hperm.
  { unfold allBills. rewrite Hb1. by rewrite (map_to_list_insert _ _ _ Hfresh). }
  assert (suffixesWithin maxSafeInteger (allBills s1)) as Hsafe1.
  { intros b k Hin Hk. rewrite Hperm in Hin.
    apply elem_of_cons in Hin as [->|Hin]; [|by eapply Hsafe].
    rewrite suffix_of_new in Hk by done. injection Hk as <-.
    unfold maxSafeInteger. lia. }
  rewrite !suffix_of_new by done. split; [done|]. do 2 f_equal.
  rewrite (maxSuffix_perm _ _ Hperm). simpl.
  rewrite suffix_of_new by done. simpl. lia.
Qed.

Lemma bill_numbers_consecutive_witness :
  ∃ s1 bill1 s2 bill2 k,
    handleGenerateBill AddBug.before "b1"
      (Sample.cartOf [Sample.sale "bX" "X-001" 2]) = (s1, Some ("b1", bill1))
    ∧ handleGenerateBill s1 "b2"
        (Sample.cartOf [Sample.sale "bY" "Y-001" 1]) = (s2, Some ("b2", bill2))
    ∧ suffixOf bill1 = Some k
    ∧ suffixOf bill2 = Some (k + 1)%N.
Proof.
  apply bill_numbers_consecutive; [reflexivity|].
  intros b k Hin. vm_compute in Hin. by apply elem_of_nil in Hin.
Defined.

(** ** Edits of documents the store does not hold *)

Lemma commit_productWrites (ws : list Write) (s s' : Store) :
  Forall productWrite ws → commit ws s = Some s' →
  bills s' = bills s ∧ purchases s' = purchases s.
Proof.
  revert s. induction ws as [|w ws IH]; intros s Hall Hc; simpl in Hc.
  - by simplify_eq.
  - inversion Hall as [|? ? Hw Hws]; subst.
    destruct (applyWrite s w) as [s1|] eqn:Hw1; [|done].
    destruct (IH s1 Hws Hc) as [Hb Hq]. rewrite Hb, Hq.
    destruct w; try done; simpl in Hw1;
      try (destruct (products s !! _); [|done]); by simplify_eq.
Qed.

Lemma updateBillLoop_productWrites (snapshot : gmap string Product.t)
    (entries : StockChanges) (ws ws' : list Write) :
  Forall productWrite ws → updateBillLoop snapshot entries ws = inr ws' →
  Forall productWrite ws'.
Proof.
  revert ws. induction entries as [|[bid [pid ch]] rest IH]; intros ws Hws Hloop;
    simpl in Hloop; [by simplify_eq|].
  case_decide; [by eapply IH|].
  destruct (snapshot !! pid) as [p|]; [|done].
  destruct (anyNegative _); [done|].
  eapply IH; [|exact Hloop]. apply Forall_app. split; [done|].
  by repeat constructor.
Qed.

(** X15.  Editing a bill whose document is not in the store fails and
    leaves the store as it was, also when every stock check passes: the
    product updates queued before the bill update are not applied. *)
Theorem edit_unknown_bill (s : Store) (billId : string)
    (updated original : Bill.t) :
  bills s !! billId = None →
  ∃ e, handleUpdateBill s billId updated original = (s, inl e).
Proof.
  intros Hmiss. unfold handleUpdateBill.
  destruct (updateBillLoop _ _ _) as [e|ws] eqn:Hloop; [eauto|].
  rewrite commit_snoc. destruct (commit ws s) as [s1|] eqn:Hc; simpl; [|eauto].
  destruct (commit_productWrites ws s s1) as [Hb _]; [|done|].
  { eapply updateBillLoop_productWrites; [|exact Hloop]. constructor. }
  rewrite Hb, Hmiss. eauto.
Qed.

Lemma edit_unknown_bill_witness :
  ∃ e, handleUpdateBill AddBug.before "b1" EditBug.updated EditBug.original
       = (AddBug.before, inl e).
Proof. apply edit_unknown_bill. reflexivity. Defined.

(** X16.  Editing a purchase whose document is not in the store changes
    nothing: no product is updated or created. *)
Theorem edit_unknown_purchase (s : Store) (fresh : nat → string)
    (purchaseId : string) (updated original : Purchase.t) :
  purchases s !! purchaseId = None →
  handleUpdatePurchase s fresh purchaseId updated original = s.
Proof.
  intros Hmiss. unfold handleUpdatePurchase, updatePurchaseWrites.
  destruct (applyFold_spec (products s) fresh (Purchase.items updated)
              (O, [], fold_left (revertStep (products s))
                        (Purchase.items original) [], []))
    as [_ [Hws _]].
  { split; [constructor|]. simpl.
    apply revertFold_spec, workingOk_nil. }
  destruct (fold_left (applyStep _ _) _ _) as [[[n ws] m] out]. simpl in *.
  rewrite app_assoc, commit_snoc.
  destruct (commit (ws ++ commitStage m) s) as [s1|] eqn:Hc; simpl; [|done].
  destruct (commit_productWrites (ws ++ commitStage m) s s1) as [_ Hq];
    [|exact Hc|].
  - apply Forall_app. split.
    + eapply Forall_impl; [exact Hws|]. by intros w (k & p & ->).
    + unfold commitStage. apply Forall_fmap, Forall_true. by intros [k p].
  - by rewrite Hq, Hmiss.
Qed.

Lemma edit_unknown_purchase_witness :
  handleUpdatePurchase AddBug.before Sample.fresh "q1"
    (Sample.invoice [EditRun.edited]) (Sample.invoice [EditRun.bought])
  = AddBug.before.
Proof. apply edit_unknown_purchase. reflexivity. Defined.

(** ** Bill edits that change no quantity *)

Lemma addChange_keys (sign : Z) (m : StockChanges) (item : CartItem.t) :
  NoDup m.*1 → NoDup (addChange sign m item).*1.
Proof.
  intros Hnd. unfold addChange. rewrite jsSet_keys.
  destruct (jsGet m (CartItem.batchId item)) eqn:Hget; [done|].
  apply NoDup_app. split_and!; [done| |apply NoDup_singleton].
  intros x Hx ->%list_elem_of_singleton. by apply jsGet_None in Hget.
Qed.

Lemma stockChanges_keys (original updated : list CartItem.t) :
  NoDup (stockChanges original updated).*1.
Proof.
  unfold stockChanges.
  assert (∀ sign items m, NoDup m.*1 →
            NoDup (fold_left (addChange sign) items m).*1) as Hfold.
  { intros sign items. induction items as [|item items IH]; intros m Hm; simpl;
      [done|]. by apply IH, addChange_keys. }
  apply Hfold, Hfold. constructor.
Qed.

Lemma jsGet_elem_of {V : Type} (m : list (string * V)) (k : string) (v : V) :
  NoDup m.*1 → (k, v) ∈ m → jsGet m k = Some v.
Proof.
  induction m as [|[k0 x] r IH]; intros Hnd Hin.
  - by apply elem_of_nil in Hin.
  - rewrite fmap_cons in Hnd. apply NoDup_cons in Hnd as [Hk Hnd]. simpl in *.
    apply elem_of_cons in Hin as [Heq|Hin].
    + injection Heq as -> ->. by rewrite decide_True.
    + rewrite decide_False; [auto|]. intros ->. apply Hk.
      apply list_elem_of_fmap. by exists (k, v).
Qed.

(** X17.  A bill edit that sells the same quantity of every batch as the
    original (only the customer, the order of the lines or the prices
    differ) writes no product: the products are left untouched, whether or
    not they still exist, and the bill document is replaced. *)
Theorem edit_bill_same_quantities (s : Store) (billId : string)
    (updated original : Bill.t) :
  (∀ batchId, soldQty batchId (Bill.items original)
              = soldQty batchId (Bill.items updated)) →
  is_Some (bills s !! billId) →
  handleUpdateBill s billId updated original
  = (withBills s (<[billId := updated]> (bills s)), inr (billId, updated)).
Proof.
  intros Hsame [old Hold]. unfold handleUpdateBill.
  rewrite updateBillLoop_zero.
  - simpl. by rewrite Hold.
  - apply Forall_forall. intros [bid [pid ch]] Hin. simpl.
    pose proof (stockChanges_net (Bill.items original) (Bill.items updated) bid)
      as Hnet.
    unfold changeOf in Hnet.
    rewrite (jsGet_elem_of _ _ _ (stockChanges_keys _ _) Hin) in Hnet.
    simpl in Hnet. rewrite Hsame in Hnet. lia.
Qed.

Lemma edit_bill_same_quantities_witness :
  handleUpdateBill EditBug.before "b1"
    (Sample.billOf "B0001"
       [Sample.sale "bY" "Y-001" 5; Sample.sale "bX" "X-001" 5])
    EditBug.original
  = (withBills EditBug.before
       (<[ "b1" := Sample.billOf "B0001"
                     [Sample.sale "bY" "Y-001" 5; Sample.sale "bX" "X-001" 5] ]>
          (bills EditBug.before)),
     inr ("b1", Sample.billOf "B0001"
                  [Sample.sale "bY" "Y-001" 5; Sample.sale "bX" "X-001" 5])).
Proof.
  apply edit_bill_same_quantities.
  - intros batchId. simpl.
    destruct (decide ("bX" = batchId)), (decide ("bY" = batchId)); lia.
  - eexists. reflexivity.
Defined.

(** ** The cart *)

Lemma updateCartItem_keys (snapshot : gmap string Product.t)
    (cart : list CartItem.t) (batchId : string) (quantity : Z) :
  cartKey <$> updateCartItem snapshot cart batchId quantity = cartKey <$> cart.
Proof.
  unfold updateCartItem. rewrite <- list_fmap_compose. apply list_fmap_ext.
  intros i item _. simpl. case_decide; [|done].
  destruct (_ ≫= _); [|done]. by destruct (_ && _).
Qed.

Lemma updateCartItem_positive (snapshot : gmap string Product.t)
    (cart : list CartItem.t) (batchId : string) (quantity : Z) :
  Forall (λ item, 1 ≤ CartItem.quantity item) cart →
  Forall (λ item, 1 ≤ CartItem.quantity item)
         (updateCartItem snapshot cart batchId quantity).
Proof.
  intros Hcart. unfold updateCartItem. apply Forall_fmap.
  eapply Forall_impl; [exact Hcart|]. intros item Hitem. simpl in *.
  case_decide; [|done]. destruct (_ ≫= _); [|done].
  destruct (0 <? quantity) eqn:Hq; simpl; [|done].
  destruct (_ <=? _); [|done]. simpl. apply Z.ltb_lt in Hq. lia.
Qed.

Lemma cartStep_cartOk (cart : list CartItem.t) (ev : CartEvent) :
  cartOk cart → cartOk (cartStep cart ev).
Proof.
  intros [Hpos Hnd].
  destruct ev as [snap expired pid product batch | snap bid q | bid]; simpl.
  - unfold handleAddToCart. destruct expired; [done|].
    destruct (find _ cart) as [existing|] eqn:Hfind.
    + destruct (_ <? _); [|done]. split.
      * by apply updateCartItem_positive.
      * by rewrite updateCartItem_keys.
    + split.
      * apply Forall_app. split; [done|]. repeat constructor. simpl. lia.
      * rewrite fmap_app. apply NoDup_app. split_and!; [done| |apply NoDup_singleton].
        intros key Hkey ->%list_elem_of_singleton.
        apply list_elem_of_fmap in Hkey as (item & Hk & Hin).
        apply list_elem_of_In in Hin.
        eapply find_none in Hfind; [|exact Hin].
        apply bool_decide_eq_false in Hfind. apply Hfind.
        unfold cartKey in Hk. simpl in Hk. by injection Hk as <- <-.
  - split; [by apply updateCartItem_positive | by rewrite updateCartItem_keys].
  - unfold removeFromCart. split.
    + apply Forall_forall. intros item [_ Hin]%list_elem_of_filter.
      by eapply Forall_forall in Hpos.
    + eapply sublist_NoDup; [exact Hnd|]. apply fmap_sublist, sublist_filter.
Qed.

(** X18.  Whatever the user does to a cart that starts empty, or starts
    from lines with at least one unit each on distinct batches, every line
    keeps at least one unit and no two lines are on the same batch of the
    same product. *)
Theorem cart_lines_distinct_positive (events : list CartEvent)
    (init : list CartItem.t) :
  cartOk init → cartOk (runCart events init).
Proof.
  unfold runCart. revert init.
  induction events as [|ev events IH]; intros init Hinit; simpl; [done|].
  by apply IH, cartStep_cartOk.
Qed.

Lemma cart_lines_distinct_positive_witness :
  cartOk (runCart CartRun.events []).
Proof.
  apply cart_lines_distinct_positive. split; constructor.
Defined.

(** X19.  Setting a quantity never changes the number or the order of the
    lines, and a line it changes is a line of the given batch that now
    holds the requested quantity, which is at least one and at most the
    stock the snapshot shows for a batch with that id of the line's
    product.  A quantity of zero or less changes nothing. *)
Theorem set_quantity_within_stock (snapshot : gmap string Product.t)
    (cart : list CartItem.t) (batchId : string) (quantity : Z) :
  Forall2 (λ old new,
             new = old
             ∨ (CartItem.batchId old = batchId
                ∧ new = requantify old quantity
                ∧ 1 ≤ quantity
                ∧ ∃ p b, snapshot !! CartItem.productId old = Some p
                         ∧ b ∈ Product.batches p
                         ∧ Batch.id b = batchId
                         ∧ quantity ≤ Batch.stock b))
          cart (updateCartItem snapshot cart batchId quantity)
  ∧ (quantity ≤ 0 → updateCartItem snapshot cart batchId quantity = cart).
Proof.
  unfold updateCartItem. split.
  - apply Forall2_fmap_r, Forall_Forall2_diag, Forall_forall.
    intros item _. simpl. case_decide as Hbid; [|by left].
    destruct (snapshot !! CartItem.productId item) as [p|] eqn:Hp; simpl;
      [|by left].
    destruct (find _ (Product.batches p)) as [b|] eqn:Hfind; [|by left].
    destruct (0 <? quantity) eqn:Hq; simpl; [|by left].
    destruct (quantity <=? Batch.stock b) eqn:Hs; [|by left].
    right. apply find_some in Hfind as [Hin Hid].
    apply bool_decide_eq_true in Hid. apply list_elem_of_In in Hin.
    apply Z.ltb_lt in Hq. apply Z.leb_le in Hs.
    split_and!; [done|done|lia|]. by exists p, b.
  - intros Hq. rewrite <- (list_fmap_id cart) at 2. apply list_fmap_ext.
    intros i item _. simpl. case_decide; [|done]. destruct (_ ≫= _); [|done].
    destruct (0 <? quantity) eqn:E; [|done]. apply Z.ltb_lt in E. lia.
Qed.

Lemma sumQc_plus {A : Type} (f g : A → Qc) (l : list A) :
  (sumQc (f <$> l) + sumQc (g <$> l))%Qc = sumQc ((λ x, f x + g x)%Qc <$> l).
Proof.
  unfold sumQc. induction l as [|x l IH].
  - simpl. by rewrite Qcplus_0_l.
  - rewrite !fmap_cons. cbn [foldr]. rewrite <- IH. ring.
Qed.

(** X20.  In exact arithmetic the grand total of a cart is the sum of the
    totals of its lines, whatever the GST rates other than -100 per cent,
    at which the base price is undefined; for lines whose total is price
    times quantity it is the sum of price times quantity. *)
Theorem grand_total_is_sum_of_lines (cart : list CartItem.t) :
  Forall gstDefined cart →
  (cartTotals cart).2 = sumQc (CartItem.total <$> cart)
  ∧ (Forall lineOk cart →
     (cartTotals cart).2
     = sumQc ((λ item, CartItem.mrp item
                       * Q2Qc (inject_Z (CartItem.quantity item)))%Qc <$> cart)).
Proof.
  intros _.
  assert ((cartTotals cart).2 = sumQc (CartItem.total <$> cart)) as Htotal.
  { rewrite cartTotals_spec. simpl. rewrite sumQc_plus. f_equal.
    apply list_fmap_ext. intros i item _. simpl. ring. }
  split; [done|]. intros Hok. rewrite Htotal. f_equal.
  apply list_fmap_ext. intros i item Hin. simpl.
  apply list_elem_of_lookup_2 in Hin. by eapply Forall_forall in Hok.
Qed.

(** Two units at 10 and one unit at 20, GST 12 per cent: 40. *)
Lemma grand_total_is_sum_of_lines_witness :
  (cartTotals (runCart CartRun.events [])).2 = Sample.rupees 40.
Proof.
  assert (Forall gstDefined (runCart CartRun.events [])) as Hgst.
  { vm_compute. repeat constructor; discriminate. }
  destruct (grand_total_is_sum_of_lines (runCart CartRun.events []) Hgst)
    as [Hsum _].
  rewrite Hsum. apply Qc_is_canon. reflexivity.
Defined.

(** ** Bill edits that commit *)

Lemma updateBillLoop_known (snapshot : gmap string Product.t)
    (entries : StockChanges) (ws ws' : list Write) :
  Forall (knownUpdate snapshot) ws → updateBillLoop snapshot entries ws = inr ws' →
  Forall (knownUpdate snapshot) ws'.
Proof.
  revert ws. induction entries as [|[bid [pid ch]] rest IH]; intros ws Hws Hloop;
    simpl in Hloop; [by simplify_eq|].
  case_decide; [by eapply IH|].
  destruct (snapshot !! pid) as [p|] eqn:Hp; [|done].
  destruct (anyNegative _); [done|].
  eapply IH; [|exact Hloop]. apply Forall_app. split; [done|].
  constructor; [|constructor]. simpl. by eexists.
Qed.

Lemma updateBillLoop_last (snapshot : gmap string Product.t)
    (entries : StockChanges) (ws ws' : list Write) (productId : string) :
  updateBillLoop snapshot entries ws = inr ws' →
  lastUpdate productId ws' =
    match lastNonzero productId entries with
    | Some (batchId, change) =>
        (λ p, adjustBatch batchId change <$> Product.batches p)
          <$> snapshot !! productId
    | None => lastUpdate productId ws
    end.
Proof.
  revert ws. induction entries as [|[bid [pid ch]] rest IH]; intros ws Hloop;
    simpl in Hloop; [by simplify_eq|]. simpl.
  destruct (decide (ch = 0)) as [Hz|Hnz].
  - rewrite (IH _ Hloop). by destruct (lastNonzero productId rest) as [[? ?]|].
  - destruct (snapshot !! pid) as [p|] eqn:Hp; [|done].
    destruct (anyNegative _); [done|].
    rewrite (IH _ Hloop).
    destruct (lastNonzero productId rest) as [[? ?]|]; [done|].
    rewrite lastUpdate_snoc. case_decide; [|done]. subst. by rewrite Hp.
Qed.

Lemma lastNonzero_elem_of (productId : string) (entries : StockChanges)
    (batchId : string) (change : Z) :
  lastNonzero productId entries = Some (batchId, change) →
  (batchId, (productId, change)) ∈ entries ∧ change ≠ 0.
Proof.
  induction entries as [|[bid [pid ch]] rest IH]; simpl; [done|].
  destruct (lastNonzero productId rest) as [found|].
  - intros [= ->]. destruct (IH eq_refl) as [Hin Hne]. split; [by right|done].
  - case_decide; [done|]. case_decide; [|done]. intros [= -> ->]. subst.
    split; [by left|done].
Qed.

Lemma lastNonzero_none (productId : string) (entries : StockChanges) :
  (∀ batchId change, (batchId, (productId, change)) ∈ entries → change = 0) →
  lastNonzero productId entries = None.
Proof.
  intros Hzero. destruct (lastNonzero productId entries) as [[bid ch]|] eqn:Hl;
    [|done].
  apply lastNonzero_elem_of in Hl as [Hin Hne]. by destruct (Hne (Hzero _ _ Hin)).
Qed.

Lemma lastNonzero_single (productId : string) (entries : StockChanges)
    (batchId : string) (change : Z) :
  NoDup entries.*1 →
  (batchId, (productId, change)) ∈ entries → change ≠ 0 →
  (∀ b c, (b, (productId, c)) ∈ entries → c ≠ 0 → b = batchId) →
  lastNonzero productId entries = Some (batchId, change).
Proof.
  intros Hnd Hin Hne Honly.
  destruct (lastNonzero productId entries) as [[b c]|] eqn:Hl.
  - apply lastNonzero_elem_of in Hl as [Hin' Hne'].
    pose proof (Honly _ _ Hin' Hne') as ->.
    pose proof (jsGet_elem_of _ _ _ Hnd Hin) as H1.
    pose proof (jsGet_elem_of _ _ _ Hnd Hin') as H2.
    congruence.
  - exfalso. clear Hnd Honly. induction entries as [|[bid [pid ch]] rest IH];
      [by apply elem_of_nil in Hin|].
    simpl in Hl. destruct (lastNonzero productId rest) as [found|] eqn:Hr; [done|].
    apply elem_of_cons in Hin as [Heq|Hin]; [|by apply IH].
    injection Heq as <- <- <-.
    rewrite decide_False in Hl by done. by rewrite decide_True in Hl.
Qed.

(** X21.  When a bill edit returns the updated bill, the bill document is
    replaced and every product none of whose batches has a non-zero net
    change is left as it is.  A product exactly one of whose batches has a
    non-zero net change ends with that batch's stock changed by the
    quantity of the original lines minus the quantity of the updated lines,
    and with its other batches as they were. *)
Theorem edit_bill_effect (s s' : Store) (billId : string)
    (updated original : Bill.t) (r : string * Bill.t) :
  handleUpdateBill s billId updated original = (s', inr r) →
  let changes := stockChanges (Bill.items original) (Bill.items updated) in
  bills s' = <[billId := updated]> (bills s)
  ∧ purchases s' = purchases s
  ∧ (∀ pid, (∀ batchId change, (batchId, (pid, change)) ∈ changes → change = 0) →
            products s' !! pid = products s !! pid)
  ∧ (∀ pid batchId change,
       (batchId, (pid, change)) ∈ changes → change ≠ 0 →
       (∀ b c, (b, (pid, c)) ∈ changes → c ≠ 0 → b = batchId) →
       ∃ p, products s !! pid = Some p
            ∧ products s' !! pid
              = Some (Product.withBatches p
                        (adjustBatch batchId
                           (soldQty batchId (Bill.items original)
                            - soldQty batchId (Bill.items updated))
                           <$> Product.batches p))).
Proof.
  intros Hrun changes. unfold handleUpdateBill in Hrun. cbv zeta in Hrun.
  fold changes in Hrun.
  destruct (updateBillLoop (products s) changes []) as [e|ws] eqn:Hloop; [done|].
  rewrite commit_snoc in Hrun.
  destruct (commit_knownUpdates ws s) as (s1 & Hc & Hb & Hq & _ & Hp).
  { eapply updateBillLoop_known; [|exact Hloop]. constructor. }
  rewrite Hc in Hrun. simpl in Hrun.
  destruct (bills s1 !! billId); [|done]. injection Hrun as <- _. simpl.
  split_and!; [by rewrite Hb | done | |].
  - intros pid Hzero. rewrite Hp, (updateBillLoop_last _ _ _ _ pid Hloop).
    by rewrite lastNonzero_none.
  - intros pid bid ch Hin Hne Honly.
    destruct (updateBillLoop_inr _ _ _ _ Hloop _ _ _ Hin Hne) as (p & Hprod & _).
    exists p. split; [done|].
    rewrite Hp, (updateBillLoop_last _ _ _ _ pid Hloop).
    rewrite (lastNonzero_single pid changes bid ch); try done;
      [|apply stockChanges_keys].
    rewrite Hprod. simpl. do 3 f_equal.
    pose proof (stockChanges_net (Bill.items original) (Bill.items updated) bid)
      as Hnet.
    unfold changeOf in Hnet.
    pose proof (jsGet_elem_of _ _ _ (stockChanges_keys _ _) Hin) as Hget.
    subst changes. rewrite Hget in Hnet. simpl in Hnet. by rewrite Hnet.
Qed.

Lemma edit_bill_effect_witness :
  bills (handleUpdateBill
           (Sample.shop [Sample.batchX 5]
              {[ "b1" := Sample.billOf "B0001" [Sample.sale "bX" "X-001" 5] ]} ∅)
           "b1" (Sample.billOf "B0001" [Sample.sale "bX" "X-001" 3])
           (Sample.billOf "B0001" [Sample.sale "bX" "X-001" 5])).1
  = <[ "b1" := Sample.billOf "B0001" [Sample.sale "bX" "X-001" 3] ]>
      {[ "b1" := Sample.billOf "B0001" [Sample.sale "bX" "X-001" 5] ]}.
Proof.
  refine (proj1 (edit_bill_effect
                   (Sample.shop [Sample.batchX 5]
                      {[ "b1" := Sample.billOf "B0001" [Sample.sale "bX" "X-001" 5] ]} ∅)
                   _ "b1" (Sample.billOf "B0001" [Sample.sale "bX" "X-001" 3])
                   (Sample.billOf "B0001" [Sample.sale "bX" "X-001" 5])
                   ("b1", Sample.billOf "B0001" [Sample.sale "bX" "X-001" 3]) _)).
  vm_compute. reflexivity.
Defined.

(** ** Companies and products created by a purchase *)

Lemma companyStep_spec (known names : list string) (item : Line.t) :
  let name := trim (Line.company item) in
  let wanted := Line.isNewProduct item = true ∧ name ≠ EmptyString
                ∧ Forall (λ c, toLowerCase c ≠ toLowerCase name) known in
  (wanted → name ∈ names → companyStep known names item = names)
  ∧ (wanted → name ∉ names → companyStep known names item = names ++ [name])
  ∧ (¬ wanted → companyStep known names item = names).
Proof.
  intros name wanted. subst wanted. unfold companyStep. fold name.
  assert (existsb (λ c, bool_decide (toLowerCase c = toLowerCase name)) known = false
          ↔ Forall (λ c, toLowerCase c ≠ toLowerCase name) known) as Hknown.
  { rewrite Forall_forall. split.
    - intros Hex c Hc Heq.
      assert (existsb (λ c, bool_decide (toLowerCase c = toLowerCase name)) known
              = true) as Htrue; [|congruence].
      apply existsb_exists. exists c. split; [by apply list_elem_of_In|].
      by apply bool_decide_eq_true.
    - intros Hall. destruct (existsb _ known) eqn:Hex; [|done].
      apply existsb_exists in Hex as (c & Hc & Heq).
      apply bool_decide_eq_true in Heq. apply list_elem_of_In in Hc.
      by destruct (Hall c Hc). }
  destruct (Line.isNewProduct item).
  - destruct (decide (name = EmptyString)) as [He|He].
    + split_and!; [by intros (_ & ? & _) | by intros (_ & ? & _) | done].
    + destruct (existsb _ known) eqn:Hex.
      * split_and!; try done; intros (_ & _ & Hall); apply Hknown in Hall;
          congruence.
      * destruct Hknown as [Hk _]. specialize (Hk eq_refl).
        split_and!.
        -- intros _ Hin. by rewrite decide_True.
        -- intros _ Hin. by rewrite decide_False.
        -- intros Hnot. destruct Hnot. by split_and!.
  - split_and!; [by intros [? _] | by intros [? _] | done].
Qed.

Lemma newCompanyNames_spec (known : list string) (items : list Line.t) :
  NoDup (newCompanyNames known items)
  ∧ ∀ name, name ∈ newCompanyNames known items ↔
      name ≠ EmptyString
      ∧ Forall (λ c, toLowerCase c ≠ toLowerCase name) known
      ∧ ∃ item, item ∈ items ∧ Line.isNewProduct item = true
                ∧ trim (Line.company item) = name.
Proof.
  unfold newCompanyNames.
  assert (∀ names,
            NoDup names →
            NoDup (fold_left (companyStep known) items names)
            ∧ ∀ name, name ∈ fold_left (companyStep known) items names ↔
                name ∈ names
                ∨ (name ≠ EmptyString
                   ∧ Forall (λ c, toLowerCase c ≠ toLowerCase name) known
                   ∧ ∃ item, item ∈ items ∧ Line.isNewProduct item = true
                             ∧ trim (Line.company item) = name)) as Hgen.
  { induction items as [|item items IH]; intros names Hnd; simpl.
    - split; [done|]. intros name. split; [by left|].
      intros [?|(_ & _ & item & Hin & _)]; [done|]. by apply elem_of_nil in Hin.
    - destruct (companyStep_spec known names item) as (Hin & Hout & Hskip).
      set (nm := trim (Line.company item)) in *.
      destruct (decide (Line.isNewProduct item = true ∧ nm ≠ EmptyString
                        ∧ Forall (λ c, toLowerCase c ≠ toLowerCase nm) known))
        as [Hw|Hw].
      + destruct (decide (nm ∈ names)) as [Hmem|Hmem].
        * rewrite (Hin Hw Hmem). destruct (IH names Hnd) as [Hnd' Hiff].
          split; [done|]. intros name. rewrite Hiff. split.
          -- intros [?|(? & ? & it & Hit & ? & ?)]; [by left|right].
             split_and!; try done. exists it. split; [by right|done].
          -- intros [?|(? & ? & it & Hit & Hnew & Htrim)]; [by left|].
             apply elem_of_cons in Hit as [->|Hit].
             ++ left. by rewrite <- Htrim.
             ++ right. split_and!; try done. by exists it.
        * rewrite (Hout Hw Hmem).
          destruct (IH (names ++ [nm])) as [Hnd' Hiff].
          { apply NoDup_app. split_and!; [done| |apply NoDup_singleton].
            by intros x Hx ->%list_elem_of_singleton. }
          split; [done|]. intros name. rewrite Hiff, elem_of_app,
            list_elem_of_singleton. split.
          -- intros [[?| ->]|(? & ? & it & Hit & ? & ?)].
             ++ by left.
             ++ right. destruct Hw as (? & ? & ?). split_and!; try done.
                exists item. split; [by left|done].
             ++ right. split_and!; try done. exists it. split; [by right|done].
          -- intros [?|(? & ? & it & Hit & Hnew & Htrim)]; [by left; left|].
             apply elem_of_cons in Hit as [->|Hit].
             ++ left. right. done.
             ++ right. split_and!; try done. by exists it.
      + rewrite (Hskip Hw). destruct (IH names Hnd) as [Hnd' Hiff].
        split; [done|]. intros name. rewrite Hiff. split.
        * intros [?|(? & ? & it & Hit & ? & ?)]; [by left|right].
          split_and!; try done. exists it. split; [by right|done].
        * intros [?|(Hne & Hall & it & Hit & Hnew & Htrim)]; [by left|].
          apply elem_of_cons in Hit as [->|Hit].
          -- destruct Hw. subst nm. rewrite Htrim. by split_and!.
          -- right. split_and!; try done. by exists it. }
  destruct (Hgen [] (NoDup_nil_2 (A:=string))) as [Hnd Hiff]. split; [done|].
  intros name. rewrite Hiff. split; [|by right].
  intros [Hin|?]; [by apply elem_of_nil in Hin|done].
Qed.

Lemma commit_companies (ws : list Write) (s s' : Store) :
  commit ws s = Some s' →
  companies s' = fold_left companiesAfter ws (companies s).
Proof.
  revert s. induction ws as [|w ws IH]; intros s Hc; simpl in Hc.
  - by simplify_eq.
  - destruct (applyWrite s w) as [s1|] eqn:Hw; [|done].
    rewrite (IH _ Hc). simpl. f_equal.
    destruct w; simpl in Hw; repeat case_match; by simplify_eq.
Qed.

Lemma companiesAfter_noCompany (ws : list Write) (cs : gmap string string) :
  Forall noCompany ws → fold_left companiesAfter ws cs = cs.
Proof.
  induction 1 as [|w ws Hw _ IH]; simpl; [done|].
  rewrite <- IH at 2. f_equal. by destruct w.
Qed.

Lemma addPurchaseFold_writes (snapshot : gmap string Product.t)
    (fresh : nat → string) (items : list Line.t) (st : AddState) :
  ∃ extra,
    (fold_left (addPurchaseStep snapshot fresh) items st).1.2 = st.1.2 ++ extra
    ∧ Forall noCompany extra.
Proof.
  revert st. induction items as [|item items IH]; intros st; simpl.
  - exists []. by rewrite app_nil_r.
  - destruct (IH (addPurchaseStep snapshot fresh st item)) as (extra & -> & Hx).
    assert (∃ one, (addPurchaseStep snapshot fresh st item).1.2 = st.1.2 ++ one
                   ∧ Forall noCompany one) as (one & -> & Hone).
    { destruct st as [[n ws] out]. unfold addPurchaseStep. simpl.
      destruct (Line.isNewProduct item); simpl.
      { eexists. split; [done|]. by repeat constructor. }
      destruct (truthy _) as [pid|]; simpl;
        [|exists []; by rewrite app_nil_r].
      destruct (snapshot !! pid) as [p|]; simpl;
        [|exists []; by rewrite app_nil_r].
      destruct (findByNumber _ _); simpl;
        (eexists; split; [done|]; by repeat constructor). }
    exists (one ++ extra). rewrite app_assoc. split; [done|].
    by apply Forall_app.
Qed.

Lemma companyWrites_snoc (fresh : nat → string) (names : list string)
    (name : string) :
  companyWrites fresh (names ++ [name])
  = companyWrites fresh names ++ [SetCompany (fresh (length names)) name].
Proof.
  unfold companyWrites. rewrite imap_app. simpl. by rewrite Nat.add_0_r.
Qed.

Lemma companyWrites_fold (fresh : nat → string) (names : list string)
    (cs : gmap string string) :
  (∀ cid, (∀ i, (i < length names)%nat → fresh i ≠ cid) →
          fold_left companiesAfter (companyWrites fresh names) cs !! cid
          = cs !! cid)
  ∧ ((∀ i j, fresh i = fresh j → i = j) →
     ∀ i name, names !! i = Some name →
               fold_left companiesAfter (companyWrites fresh names) cs !! fresh i
               = Some name).
Proof.
  induction names as [|name names [IHout IHin]] using rev_ind.
  - split; [done|]. intros _ i name Hi. by rewrite lookup_nil in Hi.
  - rewrite companyWrites_snoc, fold_left_app. simpl. split.
    + intros cid Hcid. rewrite lookup_insert_ne.
      * apply IHout. intros i Hi. apply Hcid. rewrite length_app. simpl. lia.
      * apply Hcid. rewrite length_app. simpl. lia.
    + intros Hinj i nm Hi.
      destruct (decide (i = length names)) as [->|Hne].
      * rewrite lookup_insert_eq.
        rewrite lookup_app_r, Nat.sub_diag in Hi by lia. by simplify_eq.
      * rewrite lookup_insert_ne by (intros Heq; by apply Hinj in Heq).
        apply IHin; [done|]. rewrite lookup_app_l in Hi; [done|].
        apply lookup_lt_Some in Hi. rewrite length_app in Hi. simpl in Hi. lia.
Qed.

(** X22.  The companies a purchase creates.  For lines as the form builds
    them (each with a composition) whose company names, like the known
    ones, are ASCII, the purchase commits and creates one company document
    per name of a list without repetition that holds exactly the trimmed
    company names of the new-product lines that are not empty and equal no
    known company up to letter case; the other company documents are as
    they were. *)
Theorem new_companies_of_purchase (s : Store) (fresh : nat → string)
    (purchaseData : Purchase.t) :
  Forall (λ item, is_Some (Line.composition item) ∧ asciiOnly (Line.company item))
         (Purchase.items purchaseData) →
  (∀ companyId c, companies s !! companyId = Some c → asciiOnly c) →
  (∀ i j, fresh i = fresh j → i = j) →
  ∃ s' names,
    handleAddPurchase s fresh purchaseData = Some s'
    ∧ NoDup names
    ∧ (∀ name, name ∈ names ↔
         name ≠ EmptyString
         ∧ (∀ companyId c, companies s !! companyId = Some c →
                           toLowerCase c ≠ toLowerCase name)
         ∧ ∃ item, item ∈ Purchase.items purchaseData
                   ∧ Line.isNewProduct item = true
                   ∧ trim (Line.company item) = name)
    ∧ (∀ i name, names !! i = Some name → companies s' !! fresh i = Some name)
    ∧ (∀ companyId, (∀ i, (i < length names)%nat → fresh i ≠ companyId) →
                    companies s' !! companyId = companies s !! companyId).
Proof.
  intros _ _ Hinj.
  destruct (addPurchase_commits s fresh purchaseData) as [s' Hadd].
  set (known := (map_to_list (companies s)).*2).
  set (names := newCompanyNames known (Purchase.items purchaseData)).
  exists s', names. split; [done|].
  destruct (newCompanyNames_spec known (Purchase.items purchaseData))
    as [Hnd Hiff].
  split; [done|]. split.
  - intros name. fold names in Hiff. rewrite Hiff.
    assert (Forall (λ c, toLowerCase c ≠ toLowerCase name) known
            ↔ ∀ companyId c, companies s !! companyId = Some c →
                             toLowerCase c ≠ toLowerCase name) as ->; [|done].
    rewrite Forall_forall. subst known. split.
    + intros Hall k c Hc. apply Hall. apply list_elem_of_fmap.
      exists (k, c). split; [done|]. by apply elem_of_map_to_list.
    + intros Hall c Hc. apply list_elem_of_fmap in Hc as ([k c'] & -> & Hin).
      apply elem_of_map_to_list in Hin. by eapply Hall.
  - unfold handleAddPurchase, addPurchaseWrites in Hadd.
    fold known names in Hadd.
    destruct (addPurchaseFold_writes (products s) fresh
                (Purchase.items purchaseData)
                (length names, companyWrites fresh names, []))
      as (extra & Hws & Hextra).
    destruct (fold_left _ _ _) as [[n ws] out]. simpl in Hws, Hadd. subst ws.
    apply commit_companies in Hadd.
    rewrite !fold_left_app in Hadd. simpl in Hadd.
    rewrite companiesAfter_noCompany in Hadd by done.
    destruct (companyWrites_fold fresh names (companies s)) as [Hout Hin].
    rewrite Hadd. split; [by apply Hin|done].
Qed.

Lemma sample_fresh_inj (i j : nat) : Sample.fresh i = Sample.fresh j → i = j.
Proof.
  unfold Sample.fresh. intros [= Hz]. revert j Hz.
  induction i as [|i IH]; intros [|j] Hz; simpl in Hz; try done.
  f_equal. apply IH. by simplify_eq.
Qed.

(** Two new products of the unknown company Zen, written with different
    blanks, and one of the known company Acme in capitals: Zen is created
    once, Acme not again. *)
Lemma new_companies_of_purchase_witness :
  ∃ s',
    handleAddPurchase (mkStore ∅ ∅ ∅ {[ "c1" := "Acme" ]}) Sample.fresh
      (Sample.invoice
         [Line.mk true "Ibuprofen" " Zen" "3004" (Sample.rupees 12)
            (Some "Ibuprofen 400mg") None None "I-1" "2028-01" 8
            (Sample.rupees 30) (Sample.rupees 20);
          Line.mk true "Cetirizine" "Zen " "3004" (Sample.rupees 12)
            (Some "Cetirizine 10mg") None None "C-1" "2028-01" 4
            (Sample.rupees 15) (Sample.rupees 9);
          Line.mk true "Aspirin" "ACME" "3004" (Sample.rupees 12)
            (Some "Aspirin 75mg") None None "A-1" "2028-01" 6
            (Sample.rupees 5) (Sample.rupees 3)])
    = Some s'
    ∧ companies s' = {[ Sample.fresh 0 := "Zen"; "c1" := "Acme" ]}.
Proof.
  destruct (new_companies_of_purchase
              (mkStore ∅ ∅ ∅ {[ "c1" := "Acme" ]}) Sample.fresh
              (Sample.invoice
                 [Line.mk true "Ibuprofen" " Zen" "3004" (Sample.rupees 12)
                    (Some "Ibuprofen 400mg") None None "I-1" "2028-01" 8
                    (Sample.rupees 30) (Sample.rupees 20);
                  Line.mk true "Cetirizine" "Zen " "3004" (Sample.rupees 12)
                    (Some "Cetirizine 10mg") None None "C-1" "2028-01" 4
                    (Sample.rupees 15) (Sample.rupees 9);
                  Line.mk true "Aspirin" "ACME" "3004" (Sample.rupees 12)
                    (Some "Aspirin 75mg") None None "A-1" "2028-01" 6
                    (Sample.rupees 5) (Sample.rupees 3)]))
    as (s' & names & Hadd & _).
  - repeat constructor; simpl; try (by eexists); repeat split; reflexivity.
  - intros cid c Hc. simpl in Hc. apply lookup_singleton_Some in Hc as [_ <-].
    simpl. repeat split; reflexivity.
  - apply sample_fresh_inj.
  - exists s'. split; [exact Hadd|].
    vm_compute in Hadd. injection Hadd as <-. reflexivity.
Defined.

(** X23.  A purchase of one new-product line, built by the form with a
    composition, commits.  It creates, under a new id, a product with the
    line's name, company, HSN code, GST and composition and exactly one
    batch, which has the line's batch number, expiry date, prices and
    quantity; the purchase is saved with the amount of the line as total
    and with the line linked to that product and batch and no longer marked
    as a new product.  Products already in the store under other ids and
    all bills are untouched. *)
Theorem add_purchase_new_product (s : Store) (fresh : nat → string)
    (purchaseData : Purchase.t) (item : Line.t) (composition : string) :
  Purchase.items purchaseData = [item] →
  Line.isNewProduct item = true →
  Line.composition item = Some composition →
  ∃ n s',
    (n ≤ 1)%nat
    ∧ handleAddPurchase s fresh purchaseData = Some s'
    ∧ products s'
      = <[fresh (S n) :=
            Product.mk (Line.productName item) (Line.company item)
              (Line.hsnCode item) (Line.gst item) (Some composition)
              [Batch.mk (batchIdOf (fresh n)) (Line.batchNumber item)
                 (Line.expiryDate item) (Line.quantity item) (Line.mrp item)
                 (Line.purchasePrice item)]]> (products s)
    ∧ purchases s'
      = <[fresh (S (S n)) :=
            Purchase.mk (Purchase.invoiceNumber purchaseData)
              (Purchase.invoiceDate purchaseData)
              (Purchase.supplier purchaseData)
              [Line.mk false (Line.productName item) (Line.company item)
                 (Line.hsnCode item) (Line.gst item) (Some composition)
                 (Some (fresh (S n))) (Some (batchIdOf (fresh n)))
                 (Line.batchNumber item) (Line.expiryDate item)
                 (Line.quantity item) (Line.mrp item)
                 (Line.purchasePrice item)]
              (Line.purchasePrice item
               * Q2Qc (inject_Z (Line.quantity item)))%Qc]>
          (purchases s)
    ∧ bills s' = bills s.
Proof.
  intros Hitems Hnew Hcomposition.
  assert (totalAmountOf [item]
          = (Line.purchasePrice item * Q2Qc (inject_Z (Line.quantity item)))%Qc)
    as Htotal.
  { unfold totalAmountOf, lineAmount. simpl. apply Qcplus_0_l. }
  unfold handleAddPurchase, addPurchaseWrites. rewrite Hitems, Htotal. simpl.
  unfold newCompanyNames, companyStep. simpl. rewrite Hnew.
  unfold lineProduct, lineBatch, Line.resolvedNew, Purchase.withTotalItems.
  rewrite Hcomposition.
  destruct (decide (trim (Line.company item) = EmptyString)).
  - exists O. simpl. eexists. split; [lia|]. by split_and!.
  - destruct (existsb _ _).
    + exists O. simpl. eexists. split; [lia|]. by split_and!.
    + exists 1%nat. simpl. eexists. split; [lia|]. by split_and!.
Qed.

(** Eight units of the new product Ibuprofen of the new company Zen. *)
Lemma add_purchase_new_product_witness :
  ∃ n s',
    (n ≤ 1)%nat
    ∧ handleAddPurchase AddBug.before Sample.fresh
        (Sample.invoice
           [Line.mk true "Ibuprofen" "Zen" "3004" (Sample.rupees 12)
              (Some "Ibuprofen 400mg") None None "I-1" "2028-01" 8
              (Sample.rupees 30) (Sample.rupees 20)])
      = Some s'
    ∧ stocksOf s' (Sample.fresh (S n)) = [8].
Proof.
  destruct (add_purchase_new_product AddBug.before Sample.fresh
              (Sample.invoice
                 [Line.mk true "Ibuprofen" "Zen" "3004" (Sample.rupees 12)
                    (Some "Ibuprofen 400mg") None None "I-1" "2028-01" 8
                    (Sample.rupees 30) (Sample.rupees 20)])
              _ "Ibuprofen 400mg" eq_refl eq_refl eq_refl)
    as (n & s' & Hn & Hadd & Hprod & _ & _).
  exists n, s'. split_and!; [exact Hn | exact Hadd |].
  unfold stocksOf. rewrite Hprod, lookup_insert_eq. reflexivity.
Defined.

(** ** More on purchase edits *)









(** ** Substitutes *)

Lemma toLowerCase_empty (s : string) :
  toLowerCase s = EmptyString → s = EmptyString.
Proof. by destruct s. Qed.

(** X26.  Substitutes are offered both ways and never for oneself.  A
    product is not among its own substitutes.  For compositions of ASCII
    characters, every substitute is in stock and has the same composition
    up to blanks around it and letter case, and when B is offered for A and
    A itself is in stock, A is offered for B. *)
Theorem substitutes_symmetric (snapshot : gmap string Product.t)
    (idA idB : string) (productA productB : Product.t)
    (offered : gmap string Product.t) :
  snapshot !! idA = Some productA →
  default True (asciiOnly <$> Product.composition productA) →
  default True (asciiOnly <$> Product.composition productB) →
  handleFindSubstitutes snapshot idA productA = Some offered →
  offered !! idA = None
  ∧ (offered !! idB = Some productB →
     snapshot !! idB = Some productB
     ∧ inStock productB = true
     ∧ (∃ compositionA compositionB,
          Product.composition productA = Some compositionA
          ∧ Product.composition productB = Some compositionB
          ∧ toLowerCase (trim compositionB) = toLowerCase (trim compositionA))
     ∧ (inStock productA = true →
        ∃ back, handleFindSubstitutes snapshot idB productB = Some back
                ∧ back !! idA = Some productA)).
Proof.
  intros HA _ _ Hfind. unfold handleFindSubstitutes in Hfind.
  destruct (Product.composition productA) as [compA|] eqn:HcA; [|done].
  destruct (decide (trim compA = EmptyString)) as [|HneA]; [done|].
  injection Hfind as <-. split.
  - apply map_lookup_filter_None. right. intros x _ [Hne _]. done.
  - intros HB. apply map_lookup_filter_Some in HB as [HB (Hne & Hcomp & Hstock)].
    assert (normalComposition productA = Some (toLowerCase (trim compA))) as HnA.
    { unfold normalComposition. by rewrite HcA. }
    unfold normalComposition in Hcomp.
    destruct (Product.composition productB) as [compB|] eqn:HcB; [|done].
    simpl in Hcomp. injection Hcomp as Hcomp.
    split_and!; [done|done|by exists compA, compB|].
    intros HstockA. unfold handleFindSubstitutes. rewrite HcB.
    rewrite decide_False.
    + eexists. split; [done|]. apply map_lookup_filter_Some. split; [done|].
      split_and!; [done| |done]. by rewrite HnA, Hcomp.
    + intros He. rewrite He in Hcomp. simpl in Hcomp.
      symmetry in Hcomp. by apply toLowerCase_empty in Hcomp.
Qed.

Lemma substitutes_symmetric_witness :
  let crocin := Product.mk "Crocin" "GSK" "3004" (Sample.rupees 12)
                  (Some " Paracetamol 500mg") [Sample.batchX 4] in
  let dolo := Product.mk "Dolo" "Micro" "3004" (Sample.rupees 12)
                (Some "paracetamol 500MG ") [Sample.batchY 7] in
  let snapshot : gmap string Product.t := {[ "a" := crocin; "b" := dolo ]} in
  match handleFindSubstitutes snapshot "a" crocin with
  | Some offered =>
      offered !! "b" = Some dolo
      ∧ ∃ back, handleFindSubstitutes snapshot "b" dolo = Some back
                ∧ back !! "a" = Some crocin
  | None => False
  end.
Proof.
  intros crocin dolo snapshot.
  destruct (handleFindSubstitutes snapshot "a" crocin) as [offered|] eqn:Hfind.
  - assert (default True (asciiOnly <$> Product.composition crocin)) as HasciiA.
    { simpl. repeat split; reflexivity. }
    assert (default True (asciiOnly <$> Product.composition dolo)) as HasciiB.
    { simpl. repeat split; reflexivity. }
    pose proof (substitutes_symmetric snapshot "a" "b" crocin dolo offered
                  eq_refl HasciiA HasciiB Hfind) as [_ Hsym].
    assert (offered !! "b" = Some dolo) as Hb.
    { vm_compute in Hfind. injection Hfind as <-. reflexivity. }
    split; [exact Hb|].
    destruct (Hsym Hb) as (_ & _ & _ & Hback). exact (Hback eq_refl).
  - vm_compute in Hfind. discriminate.
Defined.

(** ** Stock non-negativity and the inventory handlers *)

(** X27.  The inventory handlers keep stocks non-negative: deleting a
    batch always does, adding a batch or a product does when the submitted
    stock is not negative. *)
Theorem inventory_keeps_stock_nonneg (s : Store) :
  stockOk s →
  (∀ productId batchId, stockOk (handleDeleteBatch s productId batchId).1)
  ∧ (∀ now productId batchData s',
       0 ≤ BatchData.stock batchData →
       handleAddBatch s now productId batchData = Some s' → stockOk s')
  ∧ (∀ now companyRef productRef productData batchData s',
       0 ≤ BatchData.stock batchData →
       handleAddProduct s now companyRef productRef productData batchData
       = Some s' →
       stockOk s').
Proof.
  intros Hs. split_and!.
  - intros pid bid. unfold handleDeleteBatch.
    destruct (isInBill s bid); [done|]. destruct (isInPurchase s bid); [done|].
    destruct (products s !! pid) as [p|] eqn:Hp; [|done].
    destruct (commit _ s) as [s'|] eqn:Hc; simpl; [|done].
    eapply commit_stockOk; [exact Hs| |exact Hc].
    constructor; [|constructor]. simpl. apply Forall_forall.
    intros b [_ Hb]%list_elem_of_filter.
    pose proof (Hs _ _ Hp) as Hok. by eapply Forall_forall in Hok.
  - intros now pid d s' Hstock Hadd. unfold handleAddBatch in Hadd.
    eapply commit_stockOk; [exact Hs| |exact Hadd]. by repeat constructor.
  - intros now cref pref pd d s' Hstock Hadd. unfold handleAddProduct in Hadd.
    eapply commit_stockOk; [exact Hs| |exact Hadd].
    apply Forall_app. split.
    + destruct (decide _); [constructor|]. destruct (existsb _ _); by repeat constructor.
    + by repeat constructor.
Qed.

Lemma inventory_keeps_stock_nonneg_witness :
  stockOk (handleDeleteBatch AddBug.before "p1" "bX").1.
Proof.
  refine (proj1 (inventory_keeps_stock_nonneg AddBug.before _) "p1" "bX").
  apply sample_shop_ok. repeat constructor; simpl; lia.
Defined.

(** ** A new batch and an update of the same product in one invoice *)

(** X28.  When an invoice holds a line that creates a new batch of a
    product followed by a line on an existing batch of the same product,
    the purchase commits and is saved with the first line linked to the
    new batch id, but the product does not hold that batch: it holds its
    former batches with the second line received, and nothing else. *)
Theorem new_batch_lost_before_update (s : Store) (fresh : nat → string)
    (purchaseData : Purchase.t) (lineNew lineOld : Line.t) (pid : string)
    (p : Product.t) (existingBatch : Batch.t) :
  Purchase.items purchaseData = [lineNew; lineOld] →
  Line.isNewProduct lineNew = false →
  Line.isNewProduct lineOld = false →
  truthy (Line.productId lineNew) = Some pid →
  truthy (Line.productId lineOld) = Some pid →
  products s !! pid = Some p →
  findByNumber (Product.batches p) (Line.batchNumber lineNew) = None →
  findByNumber (Product.batches p) (Line.batchNumber lineOld) = Some existingBatch →
  ∃ s' saved,
    handleAddPurchase s fresh purchaseData = Some s'
    ∧ purchases s' !! fresh 1%nat = Some saved
    ∧ Line.batchId <$> Purchase.items saved
      = [Some (batchIdOf (fresh O)); Some (Batch.id existingBatch)]
    ∧ products s' !! pid
      = Some (Product.withBatches p
                (receiveBatch (Batch.id existingBatch) lineOld
                   <$> Product.batches p))
    ∧ carrying (Line.batchNumber lineNew)
        (receiveBatch (Batch.id existingBatch) lineOld <$> Product.batches p)
      = [].
Proof.
  intros Hitems Hn1 Hn2 Hp1 Hp2 Hp Hf1 Hf2.
  unfold handleAddPurchase, addPurchaseWrites. rewrite Hitems. simpl.
  unfold newCompanyNames, companyStep. simpl. rewrite Hn1, Hn2. simpl.
  rewrite Hp1, Hp, Hf1. simpl. rewrite Hn2, Hp2, Hp, Hf2. simpl.
  rewrite Hp. simpl. rewrite lookup_insert_eq. simpl.
  eexists _, _. split; [done|]. simpl. split; [apply lookup_insert_eq|].
  split; [done|]. split.
  - by rewrite lookup_insert_eq.
  - rewrite carrying_fmap by apply receiveBatch_number.
    rewrite findByNumber_carrying in Hf1.
    by destruct (carrying (Line.batchNumber lineNew) (Product.batches p)).
Qed.

Lemma new_batch_lost_before_update_witness :
  ∃ s' saved,
    handleAddPurchase AddBug.before Sample.fresh
      (Sample.invoice [Sample.line (Some "p1") None "Z-9" 5; AddBug.lineX])
    = Some s'
    ∧ purchases s' !! Sample.fresh 1%nat = Some saved
    ∧ Line.batchId <$> Purchase.items saved
      = [Some (batchIdOf (Sample.fresh O)); Some "bX"]
    ∧ stocksOf s' "p1" = [15; 10].
Proof.
  destruct (new_batch_lost_before_update AddBug.before Sample.fresh
              (Sample.invoice [Sample.line (Some "p1") None "Z-9" 5; AddBug.lineX])
              (Sample.line (Some "p1") None "Z-9" 5) AddBug.lineX "p1"
              (Sample.paracetamol [Sample.batchX 10; Sample.batchY 10])
              (Sample.batchX 10)
              eq_refl eq_refl eq_refl eq_refl eq_refl eq_refl eq_refl eq_refl)
    as (s' & saved & H1 & H2 & H3 & H4 & _).
  exists s', saved. split_and!; [exact H1 | exact H2 | exact H3 |].
  unfold stocksOf. rewrite H4. reflexivity.
Defined.
